(** * scarlettctl: control coercion, name classification and assemblers

    A shallow embedding of the Go package [scarlettctl] (its type
    declarations, [cgo.go], [control.go], the routing and mixer functions,
    [preamp.go], [events.go]) together with the properties of its
    specification that can be stated over it.

    Conventions.
    - Go [string] is a byte sequence: Rocq [string].  Functions of the
      standard library that read runes ([strings.ToLower],
      [strings.EqualFold], the scanner of [fmt]) decode UTF-8 as Go does;
      the case tables of package [unicode] are the fields of the class
      [UnicodeTables].
    - Go [int], [int64] and C [long] are 64-bit on the supported platform:
      [Z], with overflow written out where the code can reach it.
    - [*Control] fields that may be [nil] are [option].
    - The ALSA C library is not part of the package: its entry points
      are the fields of the record [AlsaLib]. *)

From Stdlib Require Import ZArith Lia Ascii String List Bool Permutation.
From stdpp Require Import base option list gmap strings fin_maps.

Local Open Scope string_scope.
Local Open Scope list_scope.
Local Open Scope Z_scope.

(** ** Bytes and strings *)

Module GoString.

Definition byte_val (c : ascii) : Z := Z.of_nat (nat_of_ascii c).

(** [\d] and ['0' <= c <= '9']. *)
Definition is_digit (c : ascii) : bool :=
  (48 <=? byte_val c) && (byte_val c <=? 57).

(** [[A-Z]]. *)
Definition is_upper (c : ascii) : bool :=
  (65 <=? byte_val c) && (byte_val c <=? 90).

Definition digit_val (c : ascii) : Z := byte_val c - 48.

(** [strings.HasPrefix], returning the remainder on success. *)
Fixpoint strip_prefix (p s : string) : option string :=
  match p with
  | EmptyString => Some s
  | String a p' =>
      match s with
      | EmptyString => None
      | String b s' => if Ascii.eqb a b then strip_prefix p' s' else None
      end
  end.

Definition HasPrefix (s p : string) : bool :=
  match strip_prefix p s with Some _ => true | None => false end.

(** [strings.Contains]. *)
Fixpoint Contains (s sub : string) : bool :=
  if HasPrefix s sub then true
  else match s with
       | EmptyString => false
       | String _ s' => Contains s' sub
       end.

(** *** UTF-8

    A Go string holds UTF-8 by convention only.  [for _, r := range s]
    and [utf8.DecodeRuneInString] read one rune at a time: a byte below
    128 is a rune of its own, a well-formed sequence of two to four bytes
    is one rune, and any other byte is read as [RuneError], one byte
    wide. *)

Definition RuneError : Z := 65533.

Definition byte_of (v : Z) : ascii := ascii_of_nat (Z.to_nat v).

Definition between (lo v hi : Z) : bool := (lo <=? v) && (v <=? hi).

Definition is_cont (v : Z) : bool := between 128 v 191.

Definition two_bytes (v0 v1 : Z) : bool := between 194 v0 223 && is_cont v1.

Definition three_bytes (v0 v1 v2 : Z) : bool :=
  between 224 v0 239
  && (if v0 =? 224 then between 160 v1 191
      else if v0 =? 237 then between 128 v1 159
      else is_cont v1)
  && is_cont v2.

Definition four_bytes (v0 v1 v2 v3 : Z) : bool :=
  between 240 v0 244
  && (if v0 =? 240 then between 144 v1 191
      else if v0 =? 244 then between 128 v1 143
      else is_cont v1)
  && is_cont v2 && is_cont v3.

Definition rune2 (v0 v1 : Z) : Z :=
  Z.lor (Z.shiftl (Z.land v0 31) 6) (Z.land v1 63).

Definition rune3 (v0 v1 v2 : Z) : Z :=
  Z.lor (Z.shiftl (Z.land v0 15) 12)
        (Z.lor (Z.shiftl (Z.land v1 63) 6) (Z.land v2 63)).

Definition rune4 (v0 v1 v2 v3 : Z) : Z :=
  Z.lor (Z.shiftl (Z.land v0 7) 18)
        (Z.lor (Z.shiftl (Z.land v1 63) 12)
               (Z.lor (Z.shiftl (Z.land v2 63) 6) (Z.land v3 63))).

(** The runes of a string, as a range loop reads them. *)
Fixpoint runes (s : string) : list Z :=
  match s with
  | EmptyString => []
  | String b0 r0 =>
      let v0 := byte_val b0 in
      if v0 <? 128 then v0 :: runes r0
      else
        match r0 with
        | String b1 r1 =>
            let v1 := byte_val b1 in
            if two_bytes v0 v1 then rune2 v0 v1 :: runes r1
            else
              match r1 with
              | String b2 r2 =>
                  let v2 := byte_val b2 in
                  if three_bytes v0 v1 v2 then rune3 v0 v1 v2 :: runes r2
                  else
                    match r2 with
                    | String b3 r3 =>
                        let v3 := byte_val b3 in
                        if four_bytes v0 v1 v2 v3
                        then rune4 v0 v1 v2 v3 :: runes r3
                        else RuneError :: runes r0
                    | EmptyString => RuneError :: runes r0
                    end
              | EmptyString => RuneError :: runes r0
              end
        | EmptyString => [RuneError]
        end
  end.

(** [utf8.AppendRune]: a surrogate or a value above [unicode.MaxRune] is
    written as [RuneError]. *)
Definition EncodeRune (r : Z) : string :=
  let cont v := byte_of (Z.lor 128 (Z.land v 63)) in
  if between 0 r 127 then String (byte_of r) ""
  else if between 0 r 2047 then
    String (byte_of (Z.lor 192 (Z.shiftr r 6))) (String (cont r) "")
  else if negb (between 0 r 1114111) || between 55296 r 57343 then
    String (byte_of 239) (String (byte_of 191) (String (byte_of 189) ""))
  else if r <=? 65535 then
    String (byte_of (Z.lor 224 (Z.shiftr r 12)))
           (String (cont (Z.shiftr r 6)) (String (cont r) ""))
  else
    String (byte_of (Z.lor 240 (Z.shiftr r 18)))
           (String (cont (Z.shiftr r 12))
                   (String (cont (Z.shiftr r 6)) (String (cont r) ""))).

(** [strings.Map]: every rune is replaced by its image, a negative image
    is dropped. *)
Definition Map (mapping : Z -> Z) (s : string) : string :=
  fold_right (fun r out =>
                let r' := mapping r in
                if 0 <=? r' then EncodeRune r' +:+ out else out)
             "" (runes s).

Definition isASCII (s : string) : bool :=
  (fix all (s : string) : bool :=
     match s with
     | EmptyString => true
     | String c s' => (byte_val c <? 128) && all s'
     end) s.

Definition lower_byte (c : ascii) : ascii :=
  if is_upper c then ascii_of_nat (nat_of_ascii c + 32) else c.

Fixpoint lower_bytes (s : string) : string :=
  match s with
  | EmptyString => EmptyString
  | String c s' => String (lower_byte c) (lower_bytes s')
  end.

(** *** The tables of package [unicode]

    The case tables of the Go standard library are not part of the
    package.  Outside the ASCII range the lower-case mapping of a rune
    and the case-folding orbits are taken as given. *)
Class UnicodeTables : Type := {
  (** [unicode.ToLower] on a rune above 127. *)
  unicode_ToLower : Z -> Z;
  (** For two different runes [lo < hi], [hi] above 127: whether
      repeated [unicode.SimpleFold] leads from [lo] to [hi]. *)
  unicode_folds : Z -> Z -> bool
}.

Section Unicode.

Context {U : UnicodeTables}.

(** [unicode.ToLower]. *)
Definition lowerRune (r : Z) : Z :=
  if r <=? 127 then (if between 65 r 90 then r + 32 else r)
  else unicode_ToLower r.

(** [strings.ToLower]: a string of ASCII bytes is mapped byte by byte,
    any other string rune by rune. *)
Definition ToLower (s : string) : string :=
  if isASCII s then lower_bytes s else Map lowerRune s.

(** One step of the loop of [strings.EqualFold]. *)
Definition foldRune (sr tr : Z) : bool :=
  if sr =? tr then true
  else
    let lo := Z.min sr tr in
    let hi := Z.max sr tr in
    if hi <? 128 then between 65 lo 90 && (hi =? lo + 32)
    else unicode_folds lo hi.

Fixpoint foldRunes (rs rt : list Z) : bool :=
  match rs, rt with
  | [], [] => true
  | sr :: rs', tr :: rt' => foldRune sr tr && foldRunes rs' rt'
  | _, _ => false
  end.

(** [strings.EqualFold]: bytes are compared up to ASCII case until one of
    them is not ASCII, the rest rune by rune. *)
Fixpoint EqualFold (s t : string) : bool :=
  match s, t with
  | EmptyString, EmptyString => true
  | String a s', String b t' =>
      if (byte_val a <? 128) && (byte_val b <? 128)
      then foldRune (byte_val a) (byte_val b) && EqualFold s' t'
      else foldRunes (runes s) (runes t)
  | _, _ => false
  end.

End Unicode.

(** Longest prefix of bytes satisfying [p], and the rest. *)
Fixpoint span (p : ascii -> bool) (s : string) : string * string :=
  match s with
  | EmptyString => (EmptyString, EmptyString)
  | String c s' =>
      if p c then let '(a, b) := span p s' in (String c a, b)
      else (EmptyString, s)
  end.

Fixpoint forallb_str (p : ascii -> bool) (s : string) : bool :=
  match s with
  | EmptyString => true
  | String c s' => p c && forallb_str p s'
  end.

(** Value of a run of decimal digits, most significant first. *)
Fixpoint digits_acc (acc : Z) (s : string) : Z :=
  match s with
  | EmptyString => acc
  | String c s' => digits_acc (acc * 10 + digit_val c) s'
  end.

Definition digits_value (s : string) : Z := digits_acc 0 s.

Definition maxInt64 : Z := 9223372036854775807.
Definition minInt64 : Z := -9223372036854775808.

Definition fits_int64 (v : Z) : bool := (minInt64 <=? v) && (v <=? maxInt64).

(** [strconv.ParseInt(tok, 10, 64)] on an optional sign followed by
    digits: [None] is the syntax or range error. *)
Definition ParseInt (tok : string) : option Z :=
  let '(neg, ds) :=
    match tok with
    | String "-" r => (true, r)
    | String "+" r => (false, r)
    | _ => (false, tok)
    end in
  match ds with
  | EmptyString => None
  | _ =>
      if forallb_str is_digit ds then
        let v := if (neg : bool) then - digits_value ds else digits_value ds in
        if fits_int64 v then Some v else None
      else None
  end.

(** [strconv.Atoi]. *)
Definition Atoi (s : string) : option Z := ParseInt s.

(** White space skipped by the scanner in front of a number; a newline
    is an error there for [Sscanf]. *)
Definition is_blank (c : ascii) : bool :=
  let v := byte_val c in
  (v =? 32) || (v =? 9) || (v =? 11) || (v =? 12) || (v =? 13).

(** The table [space] of [fmt/scan.go] and its [isSpace]. *)
Definition space : list (Z * Z) :=
  [(9, 13); (32, 32); (133, 133); (160, 160); (5760, 5760); (8192, 8202);
   (8232, 8233); (8239, 8239); (8287, 8287); (12288, 12288)].

Definition isSpace (r : Z) : bool :=
  if 65536 <=? r then false
  else existsb (fun rng => between (fst rng) r (snd rng)) space.

(** [SkipSpace]: the scanner reads runes; a rune of four bytes and
    [RuneError] are not white space. *)
Fixpoint skip_blank (s : string) : string :=
  match s with
  | EmptyString => EmptyString
  | String b0 r0 =>
      let v0 := byte_val b0 in
      if v0 <? 128 then (if is_blank b0 then skip_blank r0 else s)
      else
        match r0 with
        | String b1 r1 =>
            let v1 := byte_val b1 in
            if two_bytes v0 v1
            then (if isSpace (rune2 v0 v1) then skip_blank r1 else s)
            else
              match r1 with
              | String b2 r2 =>
                  let v2 := byte_val b2 in
                  if three_bytes v0 v1 v2
                  then (if isSpace (rune3 v0 v1 v2) then skip_blank r2 else s)
                  else s
              | EmptyString => s
              end
        | EmptyString => s
        end
  end.

(** [fmt.Sscanf(s, "%d", &v)]: [Some v] when the scan stores [v] and
    returns no error, [None] when it returns an error and leaves the
    operand untouched.  Input after the number is not consumed and is
    not an error. *)
Definition Sscanf_d (s : string) : option Z :=
  let s1 := skip_blank s in
  let '(sign, s2) :=
    match s1 with
    | String "-" r => ("-", r)
    | String "+" r => ("+", r)
    | _ => ("", s1)
    end in
  let '(ds, _) := span is_digit s2 in
  match ds with
  | EmptyString => None
  | _ => ParseInt (sign +:+ ds)
  end.

End GoString.
Import GoString.

(** ** Regular expressions

    The fragment of RE2 syntax used by the package, with the
    leftmost-first, greedy semantics of Go's [regexp]: a backtracking
    matcher in continuation-passing style.  Every pattern of the package
    except [\d+] of [extractPortNumber] starts with [^], so a match can
    only start at offset 0. *)

Module Regex.

Inductive regex : Type :=
| Lit (s : string)                 (* literal text *)
| Class (p : ascii -> bool)        (* one byte of a class *)
| ClassPlus (p : ascii -> bool)    (* [c+], greedy *)
| Seq (r1 r2 : regex)
| Alt (r1 r2 : regex)              (* [r1|r2], left first *)
| Opt (r : regex)                  (* [r?], greedy *)
| Group (r : regex)                (* capturing [( )] *)
| Eol.                             (* [$] without the [m] flag *)

(** [(?: )] only groups: it has no constructor. *)

(** [c+]: as many bytes as possible first, giving back one at a time. *)
Fixpoint plus_try {A} (p : ascii -> bool) (s : string)
    (k : string -> option A) : option A :=
  match s with
  | String c s' =>
      if p c then
        match plus_try p s' k with
        | Some x => Some x
        | None => k s'
        end
      else None
  | EmptyString => None
  end.

(** First [n] bytes of [s]. *)
Fixpoint take_str (n : nat) (s : string) : string :=
  match n, s with
  | S n', String c s' => String c (take_str n' s')
  | _, _ => EmptyString
  end.

(** The text consumed between [s] and its suffix [rest]. *)
Definition consumed (s rest : string) : string :=
  take_str (String.length s - String.length rest) s.

(** Submatches are collected in the order in which their groups close;
    for the patterns below whose submatches are read this is Go's
    numbering. *)
Fixpoint rmatch {A} (r : regex) (s : string) (caps : list string)
    (k : string -> list string -> option A) : option A :=
  match r with
  | Lit l =>
      match strip_prefix l s with
      | Some rest => k rest caps
      | None => None
      end
  | Class p =>
      match s with
      | String c s' => if p c then k s' caps else None
      | EmptyString => None
      end
  | ClassPlus p => plus_try p s (fun rest => k rest caps)
  | Seq r1 r2 => rmatch r1 s caps (fun rest caps' => rmatch r2 rest caps' k)
  | Alt r1 r2 =>
      match rmatch r1 s caps k with
      | Some x => Some x
      | None => rmatch r2 s caps k
      end
  | Opt r1 =>
      match rmatch r1 s caps k with
      | Some x => Some x
      | None => k s caps
      end
  | Group r1 =>
      rmatch r1 s caps (fun rest caps' => k rest (caps' ++ [consumed s rest])%list)
  | Eol =>
      match s with
      | EmptyString => k s caps
      | _ => None
      end
  end.

(** A match starting at offset 0: [matches[0]] followed by the
    submatches. *)
Definition match_here (r : regex) (s : string) : option (list string) :=
  rmatch r s [] (fun rest caps => Some (consumed s rest :: caps)).

(** [re.FindStringSubmatch(s)] for a pattern that starts with [^];
    [None] is the [nil] slice. *)
Definition FindStringSubmatch (r : regex) (s : string) : option (list string) :=
  match_here r s.

(** [re.MatchString(s)] for a pattern that starts with [^]. *)
Definition MatchString (r : regex) (s : string) : bool :=
  match match_here r s with Some _ => true | None => false end.

(** [re.FindAllString(s, -1)] restricted to its first element, for a
    pattern without [^]: the leftmost match. *)
Fixpoint FindFirstString (r : regex) (s : string) : option string :=
  match match_here r s with
  | Some (m :: _) => Some m
  | _ =>
      match s with
      | String _ s' => FindFirstString r s'
      | EmptyString => None
      end
  end.

(** [matches[i]], the empty string when out of range (never the case
    for the patterns below). *)
Definition sub (matches : list string) (i : nat) : string :=
  nth i matches "".

End Regex.
Import Regex.

(** ** Data model (the package's type declarations) *)

Inductive ControlType : Type :=
| ControlTypeNone
| ControlTypeBoolean
| ControlTypeInteger
| ControlTypeEnumerated
| ControlTypeBytes
| ControlTypeIEC958
| ControlTypeInteger64.

Inductive PortCategory : Type :=
| PortCategoryOff
| PortCategoryHW
| PortCategoryMix
| PortCategoryDSP
| PortCategoryPCM.

#[global] Instance ControlType_eq_dec : EqDecision ControlType.
Proof. solve_decision. Defined.

#[global] Instance PortCategory_eq_dec : EqDecision PortCategory.
Proof. solve_decision. Defined.

(** [alsaHandle]: the C pointer and the poll descriptors. *)
Record alsaHandle : Type := mkHandle {
  ptr : Z;
  pollFds : list Z
}.

Record Card : Type := mkCard {
  Number : Z;
  CardName : string;
  handle : option alsaHandle
}.

Record Control : Type := mkControl {
  NumID : Z;
  Name : string;
  Type_ : ControlType;
  Count : Z;
  Index : Z;
  card : option Card;
  Min : Z;
  Max : Z;
  Items : list string
}.

Record RoutingSource : Type := mkSource {
  src_ID : Z;
  src_Name : string;
  src_Category : PortCategory;
  src_PortNum : Z;
  src_HardwareType : string
}.

Record RoutingSink : Type := mkSink {
  sink_Index : Z;
  sink_Name : string;
  sink_Category : PortCategory;
  sink_PortNum : Z;
  sink_Control : Control
}.

Record MixerInput : Type := mkMixerInput {
  MixName : string;
  InputNum : Z;
  mi_Control : Control
}.

Record PreampChannel : Type := mkPreamp {
  ChannelNum : Z;
  Gain : option Control;
  Phantom : option Control;
  Air : option Control;
  Pad : option Control;
  Impedance : option Control;
  Level : option Control;
  Autogain : option Control;
  Safe : option Control;
  Link : option Control
}.

(** The errors built with [fmt.Errorf] and [alsaError], by the place
    that builds them. *)
Inductive Error : Type :=
| ErrCardNotOpen                          (* "card not open" *)
| ErrNotAssociated                        (* "control not associated with open card" *)
| ErrValueRange (value lo hi : Z)         (* "value %d out of range [%d, %d]" *)
| ErrEnumRange (value hi : Z)             (* "enum index %d out of range [0, %d]" *)
| ErrInvalidBoolean (s : string)
| ErrInvalidEnum (s : string) (items : list string)
| ErrInvalidInteger (s : string)
| ErrUnsupportedType (t : ControlType)    (* SetValueByString, readControl *)
| ErrUnsupportedWrite (t : ControlType)   (* writeControl *)
| ErrAlsa (code : Z) (operation : string) (* alsaError *)
| ErrNoRoutingControls
| ErrNoRoutingSinks
| ErrReadRouting (sink : string) (cause : Error)
| ErrSinkNotFound (s : string)
| ErrMixerInputNotFound (mix : string) (input : Z)
| ErrChannelNotFound (n : Z)
| ErrNoSlot (n : Z) (slot : string)
| ErrNoPollDescriptors.

(** A range error of [SetValue]. *)
Definition is_range_error (e : Error) : bool :=
  match e with
  | ErrValueRange _ _ _ | ErrEnumRange _ _ => true
  | _ => false
  end.

(** ** Decimal output ([fmt.Sprintf] with [%d] and [%02d]) *)

Module GoFmt.

Definition digit_char (d : Z) : ascii := ascii_of_nat (Z.to_nat (48 + d)).

Fixpoint digits_of_fuel (fuel : nat) (n : Z) (acc : string) : string :=
  match fuel with
  | O => acc
  | S f =>
      let acc' := String (digit_char (n mod 10)) acc in
      if n <? 10 then acc' else digits_of_fuel f (n / 10) acc'
  end.

(** Decimal digits of [n >= 0], without leading zeros. *)
Definition digits_of (n : Z) : string :=
  digits_of_fuel (S (Z.to_nat (Z.log2 n))) n "".

(** [%d]. *)
Definition format_d (v : Z) : string :=
  if v <? 0 then String "-" (digits_of (- v)) else digits_of v.

(** [%02d] on a non-negative number: zero-padded to two digits. *)
Definition format_02d (v : Z) : string :=
  if v <? 10 then String "0" (digits_of v) else digits_of v.

End GoFmt.
Import GoFmt.

(** ** The C library and the driver calls of [cgo.go] *)

(** What the package uses of libasound. [Registry] is the state of the
    device behind an open handle; reading an element does not change it.
    Return codes follow C: negative is an error. *)
Record AlsaLib : Type := mkAlsa {
  Registry : Type;
  ElemValue : Type;
  snd_ctl_elem_read : Registry -> Z -> Z -> Z + ElemValue;
      (* handle pointer, numid: error code or the element's value *)
  snd_ctl_elem_write : Registry -> Z -> ElemValue -> Registry * Z;
  get_boolean : ElemValue -> Z -> Z;
  get_integer : ElemValue -> Z -> Z;
  get_enumerated : ElemValue -> Z -> Z;
  get_integer64 : ElemValue -> Z -> Z;
  set_boolean : ElemValue -> Z -> Z -> ElemValue;
  set_integer : ElemValue -> Z -> Z -> ElemValue;
  set_enumerated : ElemValue -> Z -> Z -> ElemValue;
  set_integer64 : ElemValue -> Z -> Z -> ElemValue
}.

Inductive result (A : Type) : Type :=
| Ok (a : A)
| Err (e : Error).
Arguments Ok {A} a.
Arguments Err {A} e.

(** [C.uint(value)]: conversion to 32 unsigned bits. *)
Definition to_C_uint (v : Z) : Z := v mod 4294967296.

(** ** Validation and parsing of [control.go]

    [SetValue] and [SetValueByString] either return an error of their own
    or end in the call [writeControl(ctl.card.handle, ctl, value)]; a
    [Plan] records which, so that the value handed to the registry can
    be named. *)

Inductive Plan : Type :=
| Refuse (e : Error)
| CallWrite (h : alsaHandle) (value : Z).

(** The handle that passes [ctl.card == nil || ctl.card.handle == nil]. *)
Definition open_handle (ctl : Control) : option alsaHandle :=
  match card ctl with
  | Some c => handle c
  | None => None
  end.

Definition len (items : list string) : Z := Z.of_nat (length items).

(** [SetValue] up to its final call. *)
Definition SetValue_plan (ctl : Control) (value : Z) : Plan :=
  match open_handle ctl with
  | None => Refuse ErrNotAssociated
  | Some h =>
      if (bool_decide (Type_ ctl = ControlTypeInteger)
          || bool_decide (Type_ ctl = ControlTypeInteger64))
         && ((value <? Min ctl) || (value >? Max ctl))
      then Refuse (ErrValueRange value (Min ctl) (Max ctl))
      else if bool_decide (Type_ ctl = ControlTypeEnumerated)
              && ((value <? 0) || (value >=? len (Items ctl)))
      then Refuse (ErrEnumRange value (len (Items ctl) - 1))
      else CallWrite h value
  end.

(** Index of the first item equal to [s] up to case, as the loop
    [for i, item := range ctl.Items] finds it. *)
Fixpoint find_item {U : UnicodeTables} (i : Z) (items : list string)
    (s : string) : option Z :=
  match items with
  | [] => None
  | item :: rest =>
      if EqualFold item s then Some i else find_item (i + 1) rest s
  end.

(** [SetValueByString] up to its final call. *)
Definition SetValueByString_plan {U : UnicodeTables} (ctl : Control)
    (valueStr : string) : Plan :=
  match Type_ ctl with
  | ControlTypeBoolean =>
      let lowerVal := ToLower valueStr in
      if String.eqb lowerVal "on" || String.eqb lowerVal "true"
         || String.eqb lowerVal "1" || String.eqb lowerVal "yes"
      then SetValue_plan ctl 1
      else if String.eqb lowerVal "off" || String.eqb lowerVal "false"
              || String.eqb lowerVal "0" || String.eqb lowerVal "no"
      then SetValue_plan ctl 0
      else Refuse (ErrInvalidBoolean valueStr)
  | ControlTypeEnumerated =>
      match find_item 0 (Items ctl) valueStr with
      | Some i => SetValue_plan ctl i
      | None =>
          match Sscanf_d valueStr with
          | Some index => SetValue_plan ctl index
          | None => Refuse (ErrInvalidEnum valueStr (Items ctl))
          end
      end
  | ControlTypeInteger | ControlTypeInteger64 =>
      match Sscanf_d valueStr with
      | None => Refuse (ErrInvalidInteger valueStr)
      | Some value => SetValue_plan ctl value
      end
  | t => Refuse (ErrUnsupportedType t)
  end.

(** The [switch] of [GetValueString], on the value read. *)
Definition valueString (ctl : Control) (value : Z) : string :=
  match Type_ ctl with
  | ControlTypeBoolean => if value =? 0 then "Off" else "On"
  | ControlTypeEnumerated =>
      if (value >=? 0) && (value <? len (Items ctl))
      then nth (Z.to_nat value) (Items ctl) ""
      else "Unknown(" +:+ format_d value +:+ ")"
  | _ => format_d value
  end.

(** ** Name patterns (routing, mixer, [preamp.go]) *)

Declare Scope regex_scope.
Delimit Scope regex_scope with re.
Infix ">>" := Seq (at level 60, right associativity) : regex_scope.
Local Open Scope regex_scope.

Definition digits1 : regex := ClassPlus is_digit.   (* [\d+] *)

(** [isRoutingSink]. *)
Definition isRoutingSink (name : string) : bool :=
  (Contains name "Capture Enum"
   || Contains name "Playback Enum"
   || Contains name "Capture Route")
  && negb (Contains name "Volume")
  && negb (Contains name "Switch").

(** [portCategoryRegexes], a Go map: its entries, in the order of the
    source text.  Iteration over the map visits them in an unspecified
    order. *)
Definition pcmCategoryRe : regex := Lit "PCM " >> digits1.
Definition mixCategoryRe : regex :=
  Group (Alt (Lit "Mixer Input") (Alt (Lit "Mixer") (Lit "Matrix")))
  >> Lit " " >> digits1.
Definition dspCategoryRe : regex := Lit "DSP Input " >> digits1.
Definition hwCategoryRe : regex :=
  Group (Alt (Lit "Analogue") (Alt (Lit "S/PDIF") (Lit "ADAT")))
  >> Opt (Group (Alt (Lit " Output") (Lit " Input")))
  >> Lit " " >> digits1.

Definition portCategoryRegexes : list (PortCategory * regex) :=
  [ (PortCategoryPCM, pcmCategoryRe);
    (PortCategoryMix, mixCategoryRe);
    (PortCategoryDSP, dspCategoryRe);
    (PortCategoryHW, hwCategoryRe) ].

(** [extractPortNumber]: the first run of digits, 0 when there is none
    or when [strconv.Atoi] rejects it. *)
Definition extractPortNumber (s : string) : Z :=
  match FindFirstString digits1 s with
  | Some m =>
      match Atoi m with
      | Some num => num
      | None => 0
      end
  | None => 0
  end.

(** [parseRoutingSinkName], for one order of iteration over the map. *)
Fixpoint parseRoutingSinkName_in (order : list (PortCategory * regex))
    (name : string) : PortCategory * Z :=
  match order with
  | [] => (PortCategoryOff, 0)
  | (category, re) :: rest =>
      if MatchString re name then (category, extractPortNumber name)
      else parseRoutingSinkName_in rest name
  end.

Definition parseRoutingSinkName (name : string) : PortCategory * Z :=
  parseRoutingSinkName_in portCategoryRegexes name.

(** A Go computation that may panic at run time. *)
Inductive outcome (A : Type) : Type :=
| Returns (a : A)
| Panics.
Arguments Returns {A} a.
Arguments Panics {A}.

(** [s[lo:hi]]: a run-time panic unless [lo <= hi <= len(s)]. *)
Definition slice (s : string) (lo hi : nat) : outcome string :=
  if (lo <=? hi)%nat && (hi <=? String.length s)%nat
  then Returns (String.substring lo (hi - lo) s)
  else Panics.

(** [s[0]]. *)
Definition first_byte (s : string) : outcome ascii :=
  match s with
  | String c _ => Returns c
  | EmptyString => Panics
  end.

(** [int(b - 'A')] on bytes: the subtraction wraps. *)
Definition byte_minus_A (b : ascii) : Z := (byte_val b - 65) mod 256.

(** [parseRoutingSourceName]. *)
Definition parseRoutingSourceName (name : string) : outcome (PortCategory * Z) :=
  if String.eqb name "Off" then Returns (PortCategoryOff, 0)
  else if HasPrefix name "Mix " then
    match slice name 4 5 with
    | Panics => Panics
    | Returns letter =>
        match first_byte letter with
        | Panics => Panics
        | Returns b => Returns (PortCategoryMix, byte_minus_A b)
        end
    end
  else if HasPrefix name "PCM " then
    Returns (PortCategoryPCM, extractPortNumber name - 1)
  else if HasPrefix name "DSP " then
    Returns (PortCategoryDSP, extractPortNumber name - 1)
  else if Contains name "Analogue" || Contains name "S/PDIF" || Contains name "ADAT"
  then Returns (PortCategoryHW, extractPortNumber name - 1)
  else Returns (PortCategoryOff, 0).

(** [fmt.Sscanf(m, "%d", &n)] with [var n int] and the error dropped:
    [n] keeps its zero value when the scan fails. *)
Definition scan_int (m : string) : Z :=
  match Sscanf_d m with
  | Some n => n
  | None => 0
  end.

(** The two mixer patterns. *)
Definition gen234Re : regex :=
  Lit "Mix " >> Group (Class is_upper) >> Lit " Input " >> Group digits1
  >> Lit " Playback Volume" >> Eol.
Definition gen1Re : regex :=
  Lit "Matrix " >> Group digits1 >> Lit " Mix " >> Group (Class is_upper)
  >> Lit " Playback Volume" >> Eol.

(** The body of the loop of [GetMixerInputs]: the entries appended for
    one control. *)
Definition mixerInputOf (ctl : Control) : list MixerInput :=
  if negb (bool_decide (Type_ ctl = ControlTypeInteger)) then []
  else
    match FindStringSubmatch gen234Re (Name ctl) with
    | Some matches =>
        let mixName := "Mix " +:+ sub matches 1 in
        let inputNum := scan_int (sub matches 2) in
        [mkMixerInput mixName inputNum ctl]
    | None =>
        match FindStringSubmatch gen1Re (Name ctl) with
        | Some matches =>
            let inputNum := scan_int (sub matches 1) in
            let mixName := "Mix " +:+ sub matches 2 in
            [mkMixerInput mixName inputNum ctl]
        | None => []
        end
    end.

(** The nine preamp patterns. *)
Definition gainRe : regex :=
  Lit "Line In " >> Group digits1 >> Lit " Gain Capture Volume" >> Eol.
Definition phantomRe : regex :=
  Lit "Line In " >> Group digits1 >> Opt (Lit "-" >> digits1)
  >> Lit " Phantom Power Capture Switch" >> Eol.
Definition airRe : regex :=
  Lit "Line In " >> Group digits1 >> Lit " Air Capture "
  >> Alt (Lit "Switch") (Lit "Enum") >> Eol.
Definition padRe : regex :=
  Lit "Line In " >> Group digits1 >> Lit " Pad Capture Switch" >> Eol.
Definition impedanceRe : regex :=
  Lit "Line In " >> Group digits1 >> Lit " Impedance Switch" >> Eol.
Definition levelRe : regex :=
  Lit "Line In " >> Group digits1 >> Lit " Level Capture Enum" >> Eol.
Definition autogainRe : regex :=
  Lit "Line In " >> Group digits1 >> Lit " Autogain Capture Switch" >> Eol.
Definition safeRe : regex :=
  Lit "Line In " >> Group digits1 >> Lit " Safe Capture Switch" >> Eol.
Definition linkRe : regex :=
  Lit "Line In " >> Group digits1 >> Lit "-" >> digits1
  >> Lit " Link Capture Switch" >> Eol.

Inductive Slot : Type :=
| SlotGain | SlotPhantom | SlotAir | SlotPad | SlotImpedance
| SlotLevel | SlotAutogain | SlotSafe | SlotLink.

(** The patterns in the order of the [if] / [else if] chain. *)
Definition slotPatterns : list (Slot * regex) :=
  [ (SlotGain, gainRe); (SlotPhantom, phantomRe); (SlotAir, airRe);
    (SlotPad, padRe); (SlotImpedance, impedanceRe); (SlotLevel, levelRe);
    (SlotAutogain, autogainRe); (SlotSafe, safeRe); (SlotLink, linkRe) ].

(** The first branch of the chain whose pattern matches, with the
    channel number it scans from [matches[1]]. *)
Fixpoint matchSlot (patterns : list (Slot * regex)) (name : string)
    : option (Slot * Z) :=
  match patterns with
  | [] => None
  | (slot, re) :: rest =>
      match FindStringSubmatch re name with
      | Some matches => Some (slot, scan_int (sub matches 1))
      | None => matchSlot rest name
      end
  end.

Definition emptyChannel (n : Z) : PreampChannel :=
  mkPreamp n None None None None None None None None None.

(** [channelMap[channelNum].<Slot> = ctl]. *)
Definition setSlot (slot : Slot) (ctl : Control) (ch : PreampChannel)
    : PreampChannel :=
  match ch with
  | mkPreamp n g ph a p im l ag sf lk =>
      match slot with
      | SlotGain => mkPreamp n (Some ctl) ph a p im l ag sf lk
      | SlotPhantom => mkPreamp n g (Some ctl) a p im l ag sf lk
      | SlotAir => mkPreamp n g ph (Some ctl) p im l ag sf lk
      | SlotPad => mkPreamp n g ph a (Some ctl) im l ag sf lk
      | SlotImpedance => mkPreamp n g ph a p (Some ctl) l ag sf lk
      | SlotLevel => mkPreamp n g ph a p im (Some ctl) ag sf lk
      | SlotAutogain => mkPreamp n g ph a p im l (Some ctl) sf lk
      | SlotSafe => mkPreamp n g ph a p im l ag (Some ctl) lk
      | SlotLink => mkPreamp n g ph a p im l ag sf (Some ctl)
      end
  end.

(** One iteration of the first loop of [GetPreampChannels]. *)
Definition addControl (channelMap : gmap Z PreampChannel) (ctl : Control)
    : gmap Z PreampChannel :=
  match matchSlot slotPatterns (Name ctl) with
  | None => channelMap
  | Some (slot, channelNum) =>
      let ch := match channelMap !! channelNum with
                | Some ch => ch
                | None => emptyChannel channelNum
                end in
      <[channelNum := setSlot slot ctl ch]> channelMap
  end.

(** The second loop: [for i := 1; i <= len(channelMap)+10; i++]. *)
Definition sortedChannels (channelMap : gmap Z PreampChannel)
    : list PreampChannel :=
  omap (fun i => channelMap !! i)
       (seqZ 1 (Z.of_nat (size channelMap) + 10)).

(** [GetPreampChannels] after the control list has been fetched. *)
Definition preampChannelsOf (controls : list Control) : list PreampChannel :=
  sortedChannels (fold_left addControl controls ∅).

Section Driver.

Context {U : UnicodeTables}.
Variable lib : AlsaLib.

Abbreviation Reg := (Registry lib).

(** [alsaError]. *)
Definition alsaError (code : Z) (operation : string) : option Error :=
  if code >=? 0 then None else Some (ErrAlsa code operation).

(** [readControl]. *)
Definition readControl (h : alsaHandle) (ctl : Control) (r : Reg) : result Z :=
  match snd_ctl_elem_read lib r (ptr h) (NumID ctl) with
  | inl err => Err (ErrAlsa err "read control")
  | inr value =>
      match Type_ ctl with
      | ControlTypeBoolean => Ok (get_boolean lib value (Index ctl))
      | ControlTypeInteger => Ok (get_integer lib value (Index ctl))
      | ControlTypeEnumerated => Ok (get_enumerated lib value (Index ctl))
      | ControlTypeInteger64 => Ok (get_integer64 lib value (Index ctl))
      | t => Err (ErrUnsupportedType t)
      end
  end.

(** [writeControl]: the element is read, one slot is replaced, and the
    element is written back. *)
Definition writeControl (h : alsaHandle) (ctl : Control) (value : Z) (r : Reg)
    : Reg * option Error :=
  match snd_ctl_elem_read lib r (ptr h) (NumID ctl) with
  | inl err => (r, Some (ErrAlsa err "read before write"))
  | inr elemValue =>
      let put (e : ElemValue lib) :=
        let '(r', err) := snd_ctl_elem_write lib r (ptr h) e in
        (r', alsaError err "write control") in
      match Type_ ctl with
      | ControlTypeBoolean => put (set_boolean lib elemValue (Index ctl) value)
      | ControlTypeInteger => put (set_integer lib elemValue (Index ctl) value)
      | ControlTypeEnumerated =>
          put (set_enumerated lib elemValue (Index ctl) (to_C_uint value))
      | ControlTypeInteger64 => put (set_integer64 lib elemValue (Index ctl) value)
      | t => (r, Some (ErrUnsupportedWrite t))
      end
  end.

(** Carrying out a plan on the registry. *)
Definition run_plan (ctl : Control) (p : Plan) (r : Reg) : Reg * option Error :=
  match p with
  | Refuse e => (r, Some e)
  | CallWrite h value => writeControl h ctl value r
  end.

(** [GetValue]. *)
Definition GetValue (ctl : Control) (r : Reg) : result Z :=
  match open_handle ctl with
  | None => Err ErrNotAssociated
  | Some h => readControl h ctl r
  end.

(** [SetValue]. *)
Definition SetValue (ctl : Control) (value : Z) (r : Reg) : Reg * option Error :=
  run_plan ctl (SetValue_plan ctl value) r.

(** [GetValueString]. *)
Definition GetValueString (ctl : Control) (r : Reg) : result string :=
  match GetValue ctl r with
  | Err e => Err e
  | Ok value => Ok (valueString ctl value)
  end.

(** [SetValueByString]. *)
Definition SetValueByString (ctl : Control) (valueStr : string) (r : Reg)
    : Reg * option Error :=
  run_plan ctl (SetValueByString_plan ctl valueStr) r.

(** [enumerateControls] of [cgo.go] walks the C element list; its
    result on a registry is taken as given. *)
Variable enumerateControls : alsaHandle -> Reg -> result (list Control).

Definition set_card (c : Card) (ctl : Control) : Control :=
  mkControl (NumID ctl) (Name ctl) (Type_ ctl) (Count ctl) (Index ctl)
            (Some c) (Min ctl) (Max ctl) (Items ctl).

(** [GetControls]. *)
Definition GetControls (c : Card) (r : Reg) : result (list Control) :=
  match handle c with
  | None => Err ErrCardNotOpen
  | Some h =>
      match enumerateControls h r with
      | Err e => Err e
      | Ok controls => Ok (map (set_card c) controls)
      end
  end.

(** ** Routing *)

Definition isSinkControl (ctl : Control) : bool :=
  bool_decide (Type_ ctl = ControlTypeEnumerated) && isRoutingSink (Name ctl).

Definition hardwareTypeOf (name : string) : string :=
  if Contains name "Analogue" then "Analogue"
  else if Contains name "S/PDIF" then "S/PDIF"
  else if Contains name "ADAT" then "ADAT"
  else "".

(** The loop over [sinkControl.Items]. *)
Fixpoint sourcesFrom (i : Z) (items : list string)
    : outcome (list RoutingSource) :=
  match items with
  | [] => Returns []
  | name :: rest =>
      match parseRoutingSourceName name with
      | Panics => Panics
      | Returns (category, portNum) =>
          match sourcesFrom (i + 1) rest with
          | Panics => Panics
          | Returns sources =>
              Returns (mkSource i name category portNum (hardwareTypeOf name)
                       :: sources)
          end
      end
  end.

(** [GetRoutingSources]. *)
Definition GetRoutingSources (c : Card) (r : Reg)
    : outcome (result (list RoutingSource)) :=
  match GetControls c r with
  | Err e => Returns (Err e)
  | Ok controls =>
      match List.find isSinkControl controls with
      | None => Returns (Err ErrNoRoutingControls)
      | Some sinkControl =>
          match sourcesFrom 0 (Items sinkControl) with
          | Panics => Panics
          | Returns sources => Returns (Ok sources)
          end
      end
  end.

(** The loop of [GetRoutingSinks]. *)
Fixpoint sinksFrom (sinkIndex : Z) (controls : list Control)
    : list RoutingSink :=
  match controls with
  | [] => []
  | ctl :: rest =>
      if isSinkControl ctl then
        let '(category, portNum) := parseRoutingSinkName (Name ctl) in
        mkSink sinkIndex (Name ctl) category portNum ctl
        :: sinksFrom (sinkIndex + 1) rest
      else sinksFrom sinkIndex rest
  end.

(** [GetRoutingSinks]. *)
Definition GetRoutingSinks (c : Card) (r : Reg) : result (list RoutingSink) :=
  match GetControls c r with
  | Err e => Err e
  | Ok controls =>
      match sinksFrom 0 controls with
      | [] => Err ErrNoRoutingSinks
      | sinks => Ok sinks
      end
  end.

(** The loop of [GetRouting]. *)
Fixpoint routingFrom (sinks : list RoutingSink) (routing : gmap string Z)
    (r : Reg) : result (gmap string Z) :=
  match sinks with
  | [] => Ok routing
  | sink :: rest =>
      match GetValue (sink_Control sink) r with
      | Err e => Err (ErrReadRouting (sink_Name sink) e)
      | Ok value => routingFrom rest (<[sink_Name sink := value]> routing) r
      end
  end.

(** [GetRouting]. *)
Definition GetRouting (c : Card) (r : Reg) : result (gmap string Z) :=
  match GetRoutingSinks c r with
  | Err e => Err e
  | Ok sinks => routingFrom sinks ∅ r
  end.

(** ** Mixer *)

(** [GetMixerInputs]. *)
Definition GetMixerInputs (c : Card) (r : Reg) : result (list MixerInput) :=
  match GetControls c r with
  | Err e => Err e
  | Ok controls => Ok (concat (map mixerInputOf controls))
  end.

(** What the [Print...] functions and the callback of [WatchWithDisplay]
    write to standard output: one constructor per kind of line, the two
    lines of a banner counted as one. *)
Inductive OutputLine : Type :=
| LineNoMixerControls
| LineMixerBanner
| LineBlank
| LineMixHeading (mixName : string)
| LineMixerInput (inputNum value lo hi : Z)
| LineMixerInputError (inputNum : Z) (e : Error)
| LineNoPreampControls
| LinePreampBanner
| LineChannelHeading (channelNum : Z)
| LineGain (text : string) (lo hi : Z)
| LineSlot (slot : Slot) (text : string)
| LineChange (name : string) (text : string).

(** The loop of [PrintMixerState]. *)
Fixpoint printInputs (inputs : list MixerInput) (currentMix : string)
    (r : Reg) : list OutputLine :=
  match inputs with
  | [] => []
  | input :: rest =>
      let changed := negb (String.eqb (MixName input) currentMix) in
      let heading :=
        if changed then
          (if negb (String.eqb currentMix "") then [LineBlank] else [])
          ++ [LineMixHeading (MixName input)]
        else [] in
      let currentMix' := if changed then MixName input else currentMix in
      let line :=
        match GetValue (mi_Control input) r with
        | Err e => LineMixerInputError (InputNum input) e
        | Ok value =>
            LineMixerInput (InputNum input) value
                           (Min (mi_Control input)) (Max (mi_Control input))
        end in
      heading ++ line :: printInputs rest currentMix' r
  end.

(** [PrintMixerState]: the lines printed and the error returned. *)
Definition PrintMixerState (c : Card) (r : Reg)
    : list OutputLine * option Error :=
  match GetMixerInputs c r with
  | Err e => ([], Some e)
  | Ok [] => ([LineNoMixerControls], None)
  | Ok inputs => (LineMixerBanner :: printInputs inputs "" r, None)
  end.

(** ** [preamp.go] *)

(** [GetPreampChannels]. *)
Definition GetPreampChannels (c : Card) (r : Reg)
    : result (list PreampChannel) :=
  match GetControls c r with
  | Err e => Err e
  | Ok controls => Ok (preampChannelsOf controls)
  end.

(** [value, _ := ctl.GetValueString()]. *)
Definition slotText (ctl : Control) (r : Reg) : string :=
  match GetValueString ctl r with
  | Ok text => text
  | Err _ => ""
  end.

Definition printSlot (slot : Slot) (field : option Control) (r : Reg)
    : list OutputLine :=
  match field with
  | None => []
  | Some ctl =>
      match slot with
      | SlotGain => [LineGain (slotText ctl r) (Min ctl) (Max ctl)]
      | _ => [LineSlot slot (slotText ctl r)]
      end
  end.

(** The body of the loop of [PrintPreampState]. *)
Definition printChannel (ch : PreampChannel) (r : Reg) : list OutputLine :=
  LineChannelHeading (ChannelNum ch)
  :: printSlot SlotGain (Gain ch) r
  ++ printSlot SlotPhantom (Phantom ch) r
  ++ printSlot SlotAir (Air ch) r
  ++ printSlot SlotPad (Pad ch) r
  ++ printSlot SlotImpedance (Impedance ch) r
  ++ printSlot SlotLevel (Level ch) r
  ++ printSlot SlotAutogain (Autogain ch) r
  ++ printSlot SlotSafe (Safe ch) r
  ++ printSlot SlotLink (Link ch) r.

(** [PrintPreampState]. *)
Definition PrintPreampState (c : Card) (r : Reg)
    : list OutputLine * option Error :=
  match GetPreampChannels c r with
  | Err e => ([], Some e)
  | Ok [] => ([LineNoPreampControls], None)
  | Ok channels =>
      (LinePreampBanner :: concat (map (fun ch => printChannel ch r) channels),
       None)
  end.

(** ** [events.go]

    [Watch] blocks in [unix.Poll] and calls [callback(0)] once for each
    element event that [checkEvent] reports.  The device changes between
    events: [events] lists the registry as it stands at each reported
    event, up to the moment the monitor is stopped.  The time-out, the
    retry on [EINTR] and the stop channel are not part of this model. *)

Fixpoint deliver {S : Type} (callback : Reg -> S -> S * option Error)
    (events : list Reg) (s : S) : S * option Error :=
  match events with
  | [] => (s, None)
  | r :: rest =>
      match callback r s with
      | (s', Some e) => (s', Some e)
      | (s', None) => deliver callback rest s'
      end
  end.

(** [Watch]. *)
Definition Watch {S : Type} (c : Card) (callback : Reg -> S -> S * option Error)
    (events : list Reg) (s : S) : S * option Error :=
  match handle c with
  | None => (s, Some ErrCardNotOpen)
  | Some h =>
      match pollFds h with
      | [] => (s, Some ErrNoPollDescriptors)
      | _ => deliver callback events s
      end
  end.

(** The closure that [WatchControls] hands to [Watch]: every control of
    the list is read, and the callback is called for those read. *)
Fixpoint checkControls {S : Type}
    (callback : Reg -> Control -> Z -> S -> S * option Error)
    (controls : list Control) (r : Reg) (s : S) : S * option Error :=
  match controls with
  | [] => (s, None)
  | ctl :: rest =>
      match GetValue ctl r with
      | Err _ => checkControls callback rest r s
      | Ok value =>
          match callback r ctl value s with
          | (s', Some e) => (s', Some e)
          | (s', None) => checkControls callback rest r s'
          end
      end
  end.

(** [WatchControls]: the control list is fetched once, from the
    registry [r0] as it stands when watching starts. *)
Definition WatchControls {S : Type} (c : Card)
    (callback : Reg -> Control -> Z -> S -> S * option Error)
    (r0 : Reg) (events : list Reg) (s : S) : S * option Error :=
  match GetControls c r0 with
  | Err e => (s, Some e)
  | Ok controls => Watch c (checkControls callback controls) events s
  end.

(** The state of the callback of [WatchWithDisplay]: the map
    [lastUpdate] and the lines printed so far. *)
Definition DisplayState : Type := gmap Z Z * list OutputLine.

(** The callback of [WatchWithDisplay] (the time stamp of the line is
    left out). *)
Definition displayChange (r : Reg) (control : Control) (value : Z)
    (s : DisplayState) : DisplayState * option Error :=
  let '(lastUpdate, printed) := s in
  let key := NumID control in
  let same :=
    match lastUpdate !! key with
    | Some lastValue => lastValue =? value
    | None => false
    end in
  if same then (s, None)
  else
    ((<[key := value]> lastUpdate,
      printed ++ [LineChange (Name control) (slotText control r)]),
     None).

(** [WatchWithDisplay]. *)
Definition WatchWithDisplay (c : Card) (r0 : Reg) (events : list Reg)
    : DisplayState * option Error :=
  WatchControls c displayChange r0 events (∅, []).

End Driver.


(** ** Terms of the statements

    Predicates in which the properties below are stated, and the concrete
    cards, controls and registries on which they are run. *)

(** [sub] occurs in [s]. *)
Definition Substring (sub s : string) : Prop :=
  exists pre post, s = pre +:+ sub +:+ post.

Definition head_byte (s : string) : option ascii :=
  match s with
  | String c _ => Some c
  | EmptyString => None
  end.

Definition matching (name : string) (order : list (PortCategory * regex))
    : list (PortCategory * regex) :=
  List.filter (fun e => MatchString (snd e) name) order.

(** A stand-in for the tables of package [unicode], used to run the code
    on ASCII text, where the tables are not consulted. *)
Definition asciiTables : UnicodeTables :=
  {| unicode_ToLower := fun r => r; unicode_folds := fun _ _ => false |}.

(** An in-memory stand-in for libasound, used to run the driver code on
    concrete registries: an element is its [numid] and the values of its
    slots. *)
Definition memLib : AlsaLib :=
  {| Registry := gmap Z (gmap Z Z);
     ElemValue := Z * gmap Z Z;
     snd_ctl_elem_read := fun r _ numid =>
       match r !! numid with
       | Some slots => inr (numid, slots)
       | None => inl (-2)
       end;
     snd_ctl_elem_write := fun r _ e => (<[fst e := snd e]> r, 0);
     get_boolean := fun e idx => default 0 (snd e !! idx);
     get_integer := fun e idx => default 0 (snd e !! idx);
     get_enumerated := fun e idx => default 0 (snd e !! idx);
     get_integer64 := fun e idx => default 0 (snd e !! idx);
     set_boolean := fun e idx v => (fst e, <[idx := v]> (snd e));
     set_integer := fun e idx v => (fst e, <[idx := v]> (snd e));
     set_enumerated := fun e idx v => (fst e, <[idx := v]> (snd e));
     set_integer64 := fun e idx v => (fst e, <[idx := v]> (snd e)) |}.

Definition handle0 : alsaHandle := mkHandle 1 [3].

Definition card0 : Card := mkCard 0 "Scarlett 18i20 USB" (Some handle0).

(** An enumerated control with five items, an integer control and a
    boolean control of the open card [card0]. *)
Definition enum5 : Control :=
  mkControl 1 "PCM 01 Capture Enum" ControlTypeEnumerated 1 0 (Some card0)
            0 0 ["Off"; "Analogue 1"; "Analogue 2"; "Mix A"; "PCM 1"].

Definition gain1 : Control :=
  mkControl 2 "Line In 1 Gain Capture Volume" ControlTypeInteger 1 0
            (Some card0) 0 70 [].

Definition phantom1 : Control :=
  mkControl 3 "Line In 1 Phantom Power Capture Switch" ControlTypeBoolean 1 0
            (Some card0) 0 0 [].

(** The bounds the specification gives for a written value. *)
Definition within_bounds (ctl : Control) (value : Z) : Prop :=
  match Type_ ctl with
  | ControlTypeEnumerated => 0 <= value < len (Items ctl)
  | ControlTypeInteger | ControlTypeInteger64 => Min ctl <= value <= Max ctl
  | _ => True
  end.

(** The write of a boolean slot, as [writeControl] performs it. *)
Definition write_boolean (lib : AlsaLib) (h : alsaHandle) (ctl : Control)
    (value : Z) (r : Registry lib) : Registry lib * option Error :=
  match snd_ctl_elem_read lib r (ptr h) (NumID ctl) with
  | inl err => (r, Some (ErrAlsa err "read before write"))
  | inr elemValue =>
      let '(r', err) :=
        snd_ctl_elem_write lib r (ptr h)
          (set_boolean lib elemValue (Index ctl) value) in
      (r', alsaError err "write control")
  end.

(** The write of a slot of an enumerated, integer or integer64 element:
    the element is read from the registry, its slot [Index] is replaced
    by the value (converted to a C unsigned int for an enumerated
    element), and the element is written back to the registry. *)
Definition write_ranged (lib : AlsaLib) (h : alsaHandle) (ctl : Control)
    (value : Z) (r : Registry lib) : Registry lib * option Error :=
  match snd_ctl_elem_read lib r (ptr h) (NumID ctl) with
  | inl err => (r, Some (ErrAlsa err "read before write"))
  | inr elemValue =>
      let stored :=
        match Type_ ctl with
        | ControlTypeEnumerated =>
            set_enumerated lib elemValue (Index ctl) (to_C_uint value)
        | ControlTypeInteger64 =>
            set_integer64 lib elemValue (Index ctl) value
        | _ => set_integer lib elemValue (Index ctl) value
        end in
      let '(r', err) := snd_ctl_elem_write lib r (ptr h) stored in
      (r', alsaError err "write control")
  end.

(** The registry of the stand-in library in which the five-item control
    [enum5] stands at item 0. *)
Definition enumAt0 : gmap Z (gmap Z Z) := {[ 1 := {[ 0 := 0 ]} ]}.

(** [valueStr] is accepted by [SetValueByString] and makes it write
    [value]. *)
Definition selects {U : UnicodeTables} (ctl : Control) (valueStr : string)
    (value : Z) : Prop :=
  exists h, SetValueByString_plan ctl valueStr = CallWrite h value.

(** No item before [value] has the name of item [value], up to case. *)
Definition no_earlier_namesake {U : UnicodeTables} (items : list string)
    (value : Z) : Prop :=
  forall j : nat, (j < Z.to_nat value)%nat ->
    EqualFold (nth j items "") (nth (Z.to_nat value) items "") = false.

(** An enumerated control with two items that differ only in case. *)
Definition dupEnum : Control :=
  mkControl 4 "Line In 1 Level Capture Enum" ControlTypeEnumerated 1 0
            (Some card0) 0 0 ["Line"; "LINE"].

(** [rest] does not start with a byte of the class [p]. *)
Definition stops (p : ascii -> bool) (rest : string) : Prop :=
  match rest with
  | String c _ => p c = false
  | EmptyString => True
  end.

(** The two spellings of input [ds] of mix [L]. *)
Definition gen234Name (L : ascii) (ds : string) : string :=
  "Mix " +:+ String L (" Input " +:+ ds +:+ " Playback Volume").

Definition gen1Name (L : ascii) (ds : string) : string :=
  "Matrix " +:+ ds +:+ " Mix " +:+ String L " Playback Volume".

Definition mixA01_gen234 : Control :=
  mkControl 10 "Mix A Input 01 Playback Volume" ControlTypeInteger 1 0
            (Some card0) 0 255 [].

Definition mixA01_gen1 : Control :=
  mkControl 11 "Matrix 01 Mix A Playback Volume" ControlTypeInteger 1 0
            (Some card0) 0 255 [].

(** The channel numbers that occur in the matched names of a control
    list. *)
Definition matchedChannel (ctl : Control) : option Z :=
  match matchSlot slotPatterns (Name ctl) with
  | Some (_, channelNum) => Some channelNum
  | None => None
  end.

Definition matchedChannels (controls : list Control) : gset Z :=
  list_to_set (omap matchedChannel controls).

(** Every entry of the channel map carries its own key. *)
Definition keyed (m : gmap Z PreampChannel) : Prop :=
  forall n ch, m !! n = Some ch -> ChannelNum ch = n.

(** A control list whose only preamp control is the gain of channel 12. *)
Definition gain12 : Control :=
  mkControl 20 "Line In 12 Gain Capture Volume" ControlTypeInteger 1 0
            (Some card0) 0 70 [].

Section MonitorTerms.

Variable lib : AlsaLib.

(** The line printed for a control on an event. *)
Definition changeLine (r : Registry lib) (ctl : Control) : OutputLine :=
  LineChange (Name ctl) (slotText lib ctl r).

(** The callback prints for [ctl]: it can be read and the table does not
    hold its value. *)
Definition fires (last : gmap Z Z) (r : Registry lib) (ctl : Control) : bool :=
  match GetValue lib ctl r with
  | Ok value => negb (bool_decide (last !! NumID ctl = Some value))
  | Err _ => false
  end.

(** The controls for which the callback prints on an event. *)
Definition reported (last : gmap Z Z) (r : Registry lib)
    (controls : list Control) : list Control :=
  List.filter (fires last r) controls.

(** The table after an event. *)
Definition learned (last : gmap Z Z) (r : Registry lib)
    (controls : list Control) : gmap Z Z :=
  fold_left (fun m ctl =>
               match GetValue lib ctl r with
               | Ok value => <[NumID ctl := value]> m
               | Err _ => m
               end) controls last.

End MonitorTerms.

(** The gain of channel 1 at 5, and then at 6. *)
Definition gainAt (value : Z) : Registry memLib := {[ 2 := {[ 0 := value ]} ]}.

Section ListingTerms.

Variable lib : AlsaLib.

Definition readable (r : Registry lib) (ctl : Control) : Prop :=
  exists value, GetValue lib ctl r = Ok value.

(** The line of [PrintMixerState] for one input. *)
Definition inputLine (r : Registry lib) (input : MixerInput) : OutputLine :=
  match GetValue lib (mi_Control input) r with
  | Err e => LineMixerInputError (InputNum input) e
  | Ok value =>
      LineMixerInput (InputNum input) value
                     (Min (mi_Control input)) (Max (mi_Control input))
  end.

End ListingTerms.

Definition isInputLine (line : OutputLine) : bool :=
  match line with
  | LineMixerInput _ _ _ _ | LineMixerInputError _ _ => true
  | _ => false
  end.

(** The field of a channel for a slot. *)
Definition slotField (slot : Slot) (ch : PreampChannel) : option Control :=
  match slot with
  | SlotGain => Gain ch
  | SlotPhantom => Phantom ch
  | SlotAir => Air ch
  | SlotPad => Pad ch
  | SlotImpedance => Impedance ch
  | SlotLevel => Level ch
  | SlotAutogain => Autogain ch
  | SlotSafe => Safe ch
  | SlotLink => Link ch
  end.

(** The line of the preamp listing for a slot that holds [ctl], given
    the text shown for its value: the gain line carries the range. *)
Definition slotLine (slot : Slot) (ctl : Control) (text : string)
    : OutputLine :=
  match slot with
  | SlotGain => LineGain text (Min ctl) (Max ctl)
  | _ => LineSlot slot text
  end.

(** A registry in which the phantom power switch is on and the gain
    element is missing. *)
Definition phantomOnly : Registry memLib := {[ 3 := {[ 0 := 1 ]} ]}.

(** A registry in which only the second mixer input can be read. *)
Definition secondInputOnly : Registry memLib := {[ 11 := {[ 0 := 7 ]} ]}.

(** Three routing sinks; the registry below has no element for the
    second. *)
Definition pcmSink (numid : Z) (name : string) : Control :=
  mkControl numid name ControlTypeEnumerated 1 0 (Some card0) 0 0
            ["Off"; "Analogue 1"; "Analogue 2"; "Mix A"; "PCM 1"].

Definition threeSinks : list Control :=
  [pcmSink 41 "PCM 01 Capture Enum"; pcmSink 42 "PCM 02 Capture Enum";
   pcmSink 43 "PCM 03 Capture Enum"].

Definition secondMissing : Registry memLib :=
  {[ 41 := {[ 0 := 1 ]}; 43 := {[ 0 := 2 ]} ]}.


(** ** Further functions of the package

    The lookups of [control.go], the card functions of [card.go],
    [cstrlen] of [cgo.go], and the setters and getters built on the
    routing, mixer and preamp assemblers. *)

(** The errors of these functions that [Error] does not list. *)
Inductive LookupError : Type :=
| Core (e : Error)
| ErrControlNotFound (name : string)
| ErrControlIDNotFound (id : string)
| ErrControlPrefixNotFound (prefix : string)
| ErrNoControlsMatching (pattern : string)
| ErrNoDevices
| ErrCardNotFound (cardNum : Z)
| ErrNoCardMatching (identifier : string)
| ErrSinkMatchNotFound (sinkName : string)
| ErrSourceMatchNotFound (sourceName : string).

Inductive found (A : Type) : Type :=
| Found (a : A)
| NotFound (e : LookupError).
Arguments Found {A} a.
Arguments NotFound {A} e.

(** [cstrlen]: the index of the first zero byte, the length when there
    is none. *)
Fixpoint cstrlen (b : list Byte.byte) : nat :=
  match b with
  | [] => 0%nat
  | c :: rest => if Byte.eqb c Byte.x00 then 0%nat else S (cstrlen rest)
  end.

(** [strings.HasSuffix] and [strings.TrimSuffix]. *)
Definition HasSuffix (s suffix : string) : bool :=
  (String.length suffix <=? String.length s)%nat
  && String.eqb (String.substring (String.length s - String.length suffix)
                                  (String.length suffix) s) suffix.

Definition TrimSuffix (s suffix : string) : string :=
  if HasSuffix s suffix
  then take_str (String.length s - String.length suffix) s
  else s.

(** [shortSinkName]. *)
Definition shortSinkName (name : string) : string :=
  let name := TrimSuffix name " Playback Enum" in
  let name := TrimSuffix name " Capture Enum" in
  let name := TrimSuffix name " Capture Route" in
  name.

(** A setter that ends in [ctl.SetValue(value)] on a control it looked
    up: the error it returns instead, or that call. *)
Inductive SetCall : Type :=
| NoCall (e : Error)
| CallSetValue (ctl : Control) (value : Z).

(** The lookup loop of [SetRouting]. *)
Definition SetRouting_call (sinks : list RoutingSink) (sinkName : string)
    (sourceID : Z) : SetCall :=
  match List.find (fun sink => String.eqb (sink_Name sink) sinkName) sinks with
  | Some sink => CallSetValue (sink_Control sink) sourceID
  | None => NoCall (ErrSinkNotFound sinkName)
  end.

(** The lookup loop of [GetMixerInput]. *)
Definition findMixerInput (inputs : list MixerInput) (mixName : string)
    (inputNum : Z) : result Control :=
  match List.find (fun input => String.eqb (MixName input) mixName
                                && (InputNum input =? inputNum)) inputs with
  | Some input => Ok (mi_Control input)
  | None => Err (ErrMixerInputNotFound mixName inputNum)
  end.

(** The lookup loop of [GetPreampChannel]. *)
Definition findChannel (channels : list PreampChannel) (channelNum : Z)
    : result PreampChannel :=
  match List.find (fun ch => ChannelNum ch =? channelNum) channels with
  | Some ch => Ok ch
  | None => Err (ErrChannelNotFound channelNum)
  end.

(** The part shared by [SetPreampGain], [SetPreampPhantom], [SetPreampAir]
    and [SetPreampPad] once the channel is found: the slot must be
    populated. *)
Definition slotCall (channelNum : Z) (slotName : string)
    (field : option Control) (value : Z) : SetCall :=
  match field with
  | None => NoCall (ErrNoSlot channelNum slotName)
  | Some ctl => CallSetValue ctl value
  end.

(** [value := int64(0); if enabled { value = 1 }]. *)
Definition switchValue (enabled : bool) : Z := if enabled then 1 else 0.

Section Lookups.

Context {U : UnicodeTables}.
Variable lib : AlsaLib.
Variable enumerateControls : alsaHandle -> Registry lib -> result (list Control).

(** The fields [Interface], [Device] and [Subdevice] of [Control], set by
    [enumerateControls], and the text of [Interface] under [%s]: their
    declarations are not part of the sources at hand. *)
Variable InterfaceText : Control -> string.
Variable Device : Control -> Z.
Variable Subdevice : Control -> Z.

(** [FullID]: ["%s:%d.%d/%s[%d]"]. *)
Definition FullID (ctl : Control) : string :=
  InterfaceText ctl +:+ ":" +:+ format_d (Device ctl) +:+ "."
  +:+ format_d (Subdevice ctl) +:+ "/" +:+ Name ctl
  +:+ "[" +:+ format_d (Index ctl) +:+ "]".

(** [FindControlByID]. *)
Definition FindControlByID (c : Card) (id : string) (r : Registry lib)
    : found Control :=
  match GetControls lib enumerateControls c r with
  | Err e => NotFound (Core e)
  | Ok controls =>
      match List.find (fun ctl => String.eqb (FullID ctl) id) controls with
      | Some ctl => Found ctl
      | None => NotFound (ErrControlIDNotFound id)
      end
  end.

(** [FindControl]. *)
Definition FindControl (c : Card) (name : string) (r : Registry lib)
    : found Control :=
  if Contains name ":" && Contains name "/" then FindControlByID c name r
  else
    match GetControls lib enumerateControls c r with
    | Err e => NotFound (Core e)
    | Ok controls =>
        match List.find (fun ctl => String.eqb (Name ctl) name) controls with
        | Some ctl => Found ctl
        | None => NotFound (ErrControlNotFound name)
        end
    end.

(** [FindControlByPrefix]. *)
Definition FindControlByPrefix (c : Card) (prefix : string) (r : Registry lib)
    : found Control :=
  match GetControls lib enumerateControls c r with
  | Err e => NotFound (Core e)
  | Ok controls =>
      match List.find (fun ctl => HasPrefix (Name ctl) prefix) controls with
      | Some ctl => Found ctl
      | None => NotFound (ErrControlPrefixNotFound prefix)
      end
  end.

(** [FindControlsMatching]. *)
Definition FindControlsMatching (c : Card) (pattern : string)
    (r : Registry lib) : found (list Control) :=
  match GetControls lib enumerateControls c r with
  | Err e => NotFound (Core e)
  | Ok controls =>
      let patternLower := ToLower pattern in
      match List.filter (fun ctl => Contains (ToLower (Name ctl)) patternLower)
                        controls with
      | [] => NotFound (ErrNoControlsMatching pattern)
      | matched => Found matched
      end
  end.

(** The lookup of the [get] and [set] commands: [FindControl], and
    [FindControlByPrefix] when it fails. *)
Definition lookupControl (c : Card) (name : string) (r : Registry lib)
    : found Control :=
  match FindControl c name r with
  | Found ctl => Found ctl
  | NotFound _ => FindControlByPrefix c name r
  end.

(** Carrying out a [SetCall]. *)
Definition run_call (call : SetCall) (r : Registry lib)
    : Registry lib * option Error :=
  match call with
  | NoCall e => (r, Some e)
  | CallSetValue ctl value => SetValue lib ctl value r
  end.

(** [SetRouting]. *)
Definition SetRouting (c : Card) (sinkName : string) (sourceID : Z)
    (r : Registry lib) : Registry lib * option Error :=
  match GetRoutingSinks lib enumerateControls c r with
  | Err e => (r, Some e)
  | Ok sinks => run_call (SetRouting_call sinks sinkName sourceID) r
  end.

(** [SetRoutingByNames]; the panic of [GetRoutingSources] passes through
    it. *)
Definition SetRoutingByNames (c : Card) (sinkName sourceName : string)
    (r : Registry lib) : outcome (Registry lib * option LookupError) :=
  match GetRoutingSinks lib enumerateControls c r with
  | Err e => Returns (r, Some (Core e))
  | Ok sinks =>
      match List.find (fun sink => Contains (sink_Name sink) sinkName) sinks with
      | None => Returns (r, Some (ErrSinkMatchNotFound sinkName))
      | Some targetSink =>
          match GetRoutingSources lib enumerateControls c r with
          | Panics => Panics
          | Returns (Err e) => Returns (r, Some (Core e))
          | Returns (Ok sources) =>
              match List.find (fun src => Contains (src_Name src) sourceName
                                          || String.eqb (src_Name src) sourceName)
                              sources with
              | Some src =>
                  let '(r', err) :=
                    SetValue lib (sink_Control targetSink) (src_ID src) r in
                  Returns (r', option_map Core err)
              | None => Returns (r, Some (ErrSourceMatchNotFound sourceName))
              end
          end
      end
  end.

(** [GetMixerInput]. *)
Definition GetMixerInput (c : Card) (mixName : string) (inputNum : Z)
    (r : Registry lib) : result Control :=
  match GetMixerInputs lib enumerateControls c r with
  | Err e => Err e
  | Ok inputs => findMixerInput inputs mixName inputNum
  end.

(** [SetMixerLevel]. *)
Definition SetMixerLevel (c : Card) (mixName : string) (inputNum level : Z)
    (r : Registry lib) : Registry lib * option Error :=
  match GetMixerInput c mixName inputNum r with
  | Err e => (r, Some e)
  | Ok ctl => SetValue lib ctl level r
  end.

(** [GetMixerLevel]. *)
Definition GetMixerLevel (c : Card) (mixName : string) (inputNum : Z)
    (r : Registry lib) : result Z :=
  match GetMixerInput c mixName inputNum r with
  | Err e => Err e
  | Ok ctl => GetValue lib ctl r
  end.

(** [GetPreampChannel]. *)
Definition GetPreampChannel (c : Card) (channelNum : Z) (r : Registry lib)
    : result PreampChannel :=
  match GetPreampChannels lib enumerateControls c r with
  | Err e => Err e
  | Ok channels => findChannel channels channelNum
  end.

(** [SetPreampGain]. *)
Definition SetPreampGain (c : Card) (channelNum gain : Z) (r : Registry lib)
    : Registry lib * option Error :=
  match GetPreampChannel c channelNum r with
  | Err e => (r, Some e)
  | Ok ch => run_call (slotCall channelNum "gain" (Gain ch) gain) r
  end.

(** [SetPreampPhantom]. *)
Definition SetPreampPhantom (c : Card) (channelNum : Z) (enabled : bool)
    (r : Registry lib) : Registry lib * option Error :=
  match GetPreampChannel c channelNum r with
  | Err e => (r, Some e)
  | Ok ch =>
      run_call (slotCall channelNum "phantom power" (Phantom ch)
                         (switchValue enabled)) r
  end.

(** [SetPreampAir]. *)
Definition SetPreampAir (c : Card) (channelNum : Z) (enabled : bool)
    (r : Registry lib) : Registry lib * option Error :=
  match GetPreampChannel c channelNum r with
  | Err e => (r, Some e)
  | Ok ch =>
      run_call (slotCall channelNum "air" (Air ch) (switchValue enabled)) r
  end.

(** [SetPreampPad]. *)
Definition SetPreampPad (c : Card) (channelNum : Z) (enabled : bool)
    (r : Registry lib) : Registry lib * option Error :=
  match GetPreampChannel c channelNum r with
  | Err e => (r, Some e)
  | Ok ch =>
      run_call (slotCall channelNum "pad" (Pad ch) (switchValue enabled)) r
  end.

End Lookups.

Section Cards.

Context {U : UnicodeTables}.

(** [getCardInfo] and [openCard] of [cgo.go] talk to the C library: the
    name of a card number, and the handle opened for it, are taken as
    given. *)
Variable getCardInfo : Z -> result string.
Variable openCard : Z -> result alsaHandle.

(** The filter of [ListCards], on the lower-cased name. *)
Definition isFocusriteName (nameLower : string) : bool :=
  Contains nameLower "scarlett" || Contains nameLower "focusrite"
  || Contains nameLower "vocaster" || Contains nameLower "clarett".

(** One iteration of the loop of [ListCards]. *)
Definition listCard (i : Z) : list Card :=
  match getCardInfo i with
  | Err _ => []
  | Ok name =>
      if isFocusriteName (ToLower name) then [mkCard i name None] else []
  end.

(** [ListCards]: card numbers 0 to 7. *)
Definition ListCards : found (list Card) :=
  match concat (map listCard (seqZ 0 8)) with
  | [] => NotFound ErrNoDevices
  | cards => Found cards
  end.

(** [OpenCard]; the handle is closed again when the name cannot be
    read. *)
Definition OpenCard (cardNum : Z) : result Card :=
  match openCard cardNum with
  | Err e => Err e
  | Ok h =>
      match getCardInfo cardNum with
      | Err e => Err e
      | Ok name => Ok (mkCard cardNum name (Some h))
      end
  end.

Definition opened (cardNum : Z) : found Card :=
  match OpenCard cardNum with
  | Ok card => Found card
  | Err e => NotFound (Core e)
  end.

(** [FindCard]. *)
Definition FindCard (identifier : string) : found Card :=
  match ListCards with
  | NotFound e => NotFound e
  | Found cards =>
      match Sscanf_d identifier with
      | Some cardNum =>
          match List.find (fun card => Number card =? cardNum) cards with
          | Some card => opened (Number card)
          | None => NotFound (ErrCardNotFound cardNum)
          end
      | None =>
          let identifierLower := ToLower identifier in
          match List.find (fun card => Contains (ToLower (CardName card))
                                                identifierLower) cards with
          | Some card => opened (Number card)
          | None => NotFound (ErrNoCardMatching identifier)
          end
      end
  end.

(** [IsScarlett]. *)
Definition IsScarlett (c : Card) : bool :=
  let nameLower := ToLower (CardName c) in
  Contains nameLower "scarlett" || Contains nameLower "vocaster"
  || Contains nameLower "clarett".

(** [GetPollFds]. *)
Definition GetPollFds (c : Card) : list Z :=
  match handle c with
  | None => []
  | Some h => pollFds h
  end.

End Cards.


(** ** Terms of the further properties *)

(** A registry in which the three sinks can all be read. *)
Definition allPresent : Registry memLib :=
  {[ 41 := {[ 0 := 1 ]}; 42 := {[ 0 := 3 ]}; 43 := {[ 0 := 2 ]} ]}.

(** Position, counted from [i], of the first item that satisfies [P]. *)
Fixpoint firstIndex (P : string -> bool) (i : Z) (items : list string)
    : option Z :=
  match items with
  | [] => None
  | item :: rest => if P item then Some i else firstIndex P (i + 1) rest
  end.


(** A preamp control name: "Line In ", the channel digits, and a tail. *)
Definition lineIn (ds tail : string) : string := "Line In " +:+ ds +:+ tail.

(** A run of decimal digits, at least one. *)
Definition digitRun (ds : string) : Prop :=
  ds <> "" /\ forallb_str is_digit ds = true.

(** The names of a slot, spelled out: the channel digits [ds], then for
    phantom power optionally, and for link always, "-" and the digits of
    the paired channel, then the fixed suffix of the slot. *)
Definition slotForm (slot : Slot) (name ds : string) : Prop :=
  match slot with
  | SlotGain => name = lineIn ds " Gain Capture Volume"
  | SlotPhantom =>
      name = lineIn ds " Phantom Power Capture Switch"
      \/ exists ds2, digitRun ds2
           /\ name = lineIn ds ("-" +:+ ds2 +:+ " Phantom Power Capture Switch")
  | SlotAir =>
      name = lineIn ds " Air Capture Switch"
      \/ name = lineIn ds " Air Capture Enum"
  | SlotPad => name = lineIn ds " Pad Capture Switch"
  | SlotImpedance => name = lineIn ds " Impedance Switch"
  | SlotLevel => name = lineIn ds " Level Capture Enum"
  | SlotAutogain => name = lineIn ds " Autogain Capture Switch"
  | SlotSafe => name = lineIn ds " Safe Capture Switch"
  | SlotLink =>
      exists ds2, digitRun ds2
        /\ name = lineIn ds ("-" +:+ ds2 +:+ " Link Capture Switch")
  end.

(** The pattern of a slot. *)
Definition slotRe (slot : Slot) : regex :=
  match slot with
  | SlotGain => gainRe
  | SlotPhantom => phantomRe
  | SlotAir => airRe
  | SlotPad => padRe
  | SlotImpedance => impedanceRe
  | SlotLevel => levelRe
  | SlotAutogain => autogainRe
  | SlotSafe => safeRe
  | SlotLink => linkRe
  end.


(** The patterns made of the channel digits and one literal suffix. *)
Definition simpleRe (suffix : string) : regex :=
  (Lit "Line In " >> Group digits1 >> Lit suffix >> Eol)%re.


#[global] Instance Slot_eq_dec : EqDecision Slot.
Proof. solve_decision. Defined.

(** The name of [ctl] is taken by the chain for slot [slot] of channel
    [n]. *)
Definition slotMatches (slot : Slot) (n : Z) (ctl : Control) : bool :=
  match matchSlot slotPatterns (Name ctl) with
  | Some (s, k) => bool_decide (s = slot) && (k =? n)
  | None => false
  end.

(** The last control of the list, in enumeration order, taken for slot
    [slot] of channel [n]. *)
Definition lastMatching (slot : Slot) (n : Z) (controls : list Control)
    : option Control :=
  List.find (slotMatches slot n) (rev controls).

(** Channel [n] is among the channels that [GetPreampChannels] returns
    for a control list. *)
Definition channelReturned (controls : list Control) (n : Z) : Prop :=
  n ∈ matchedChannels controls
  /\ 1 <= n <= Z.of_nat (size (matchedChannels controls)) + 10.

#[global] Instance channelReturned_dec controls n :
  Decision (channelReturned controls n).
Proof. unfold channelReturned. apply _. Defined.


(** The channel map after the first loop: an entry holds, slot by slot,
    the last control taken for that slot and channel; a channel without
    entry has none. *)
Definition slotsCorrect (controls : list Control) (m : gmap Z PreampChannel)
    : Prop :=
  forall n,
    match m !! n with
    | Some ch =>
        ChannelNum ch = n
        /\ (forall slot, slotField slot ch = lastMatching slot n controls)
        /\ exists slot, slotField slot ch <> None
    | None => forall slot, lastMatching slot n controls = None
    end.


(** What a preamp setter comes to on a control list: the channel must be
    returned by [GetPreampChannels], its slot must be populated, and the
    value goes to [SetValue] on the control of the slot. *)
Definition setterOutcome (lib : AlsaLib) (controls : list Control)
    (slot : Slot) (slotName : string) (n value : Z) (r : Registry lib)
    : Registry lib * option Error :=
  if decide (channelReturned controls n) then
    match lastMatching slot n controls with
    | Some ctl => SetValue lib ctl value r
    | None => (r, Some (ErrNoSlot n slotName))
    end
  else (r, Some (ErrChannelNotFound n)).


(** A machine with a built-in sound card and one Scarlett, and a library
    that opens every card. *)
Definition twoCards (cardNum : Z) : result string :=
  if cardNum =? 0 then Ok "HDA Intel PCH"
  else if cardNum =? 1 then Ok "Scarlett 18i20 USB"
  else Err (ErrAlsa (-2) "snd_ctl_open").

Definition openAny (cardNum : Z) : result alsaHandle :=
  Ok (mkHandle cardNum [3]).


(** A callback of [Watch] that counts its calls and fails at the
    second. *)
Definition failSecond (_ : Registry memLib) (calls : nat)
    : nat * option Error :=
  (S calls, if (calls =? 1)%nat then Some (ErrInvalidInteger "stop") else None).


Section MonitorLines.

Variable lib : AlsaLib.

(** The lines that the callback of [WatchWithDisplay] prints on one
    event, control by control in the order of the list: none for a
    control that cannot be read or whose value is the one in the table,
    one line otherwise, after which the table holds the value. *)
Fixpoint contributions (last : gmap Z Z) (r : Registry lib)
    (controls : list Control) : list (list OutputLine) :=
  match controls with
  | [] => []
  | ctl :: rest =>
      match GetValue lib ctl r with
      | Err _ => [] :: contributions last r rest
      | Ok value =>
          if bool_decide (last !! NumID ctl = Some value)
          then [] :: contributions last r rest
          else [LineChange (Name ctl) (valueString ctl value)]
               :: contributions (<[NumID ctl := value]> last) r rest
      end
  end.

End MonitorLines.

(** The two values of a stereo element, which share a [NumID], and
    registries in which they stand at 10 and 20 and the gain of channel 1
    at a given value. *)
Definition masterLeft : Control :=
  mkControl 30 "Master Playback Volume" ControlTypeInteger 2 0
            (Some card0) 0 100 [].

Definition masterRight : Control :=
  mkControl 30 "Master Playback Volume" ControlTypeInteger 2 1
            (Some card0) 0 100 [].

Definition stereoAndGain (gain : Z) : Registry memLib :=
  {[ 30 := {[ 0 := 10; 1 := 20 ]}; 2 := {[ 0 := gain ]} ]}.

(** A card on which the phantom power switch appears only after
    watching has started: the element list holds it once the registry
    has its element. *)
Definition lateEnumerate (_ : alsaHandle) (r : Registry memLib)
    : result (list Control) :=
  match r !! 3 with
  | Some _ => Ok [gain1; phantom1]
  | None => Ok [gain1]
  end.

Definition gainAndPhantom (phantom : Z) : Registry memLib :=
  {[ 2 := {[ 0 := 5 ]}; 3 := {[ 0 := phantom ]} ]}.


(** A string given by its bytes, for text outside the ASCII range. *)
Definition bytes (l : list Z) : string :=
  fold_right (fun v s => String (byte_of v) s) "" l.

(** "E" and "e" with an acute accent (U+00C9, U+00E9) and the no-break
    space (U+00A0), in UTF-8. *)
Definition E_acute : string := bytes [195; 137].
Definition e_acute : string := bytes [195; 169].
Definition no_break_space : string := bytes [194; 160].


(** * Properties *)

(** ** Strings *)

#[local] Set Warnings "-clear-no-such-hyp".
#[local] Arguments append !s1 s2 : simpl nomatch.

Section StringFacts.

Lemma strip_prefix_app (p s : string) : strip_prefix p (p +:+ s) = Some s.
Proof.
  induction p as [|a p IH]; simpl; [reflexivity|].
  now rewrite Ascii.eqb_refl.
Qed.

Lemma strip_prefix_Some (p s rest : string) :
  strip_prefix p s = Some rest -> s = p +:+ rest.
Proof.
  revert s; induction p as [|a p IH]; intros s H; simpl in *.
  - congruence.
  - destruct s as [|b s]; [discriminate|].
    destruct (Ascii.eqb a b) eqn:E; [|discriminate].
    apply Ascii.eqb_eq in E; subst b.
    now rewrite (IH _ H).
Qed.

Lemma HasPrefix_iff (s p : string) :
  HasPrefix s p = true <-> exists rest, s = p +:+ rest.
Proof.
  unfold HasPrefix; split.
  - destruct (strip_prefix p s) eqn:E; [|discriminate].
    intros _; eexists; eauto using strip_prefix_Some.
  - intros [rest ->]. now rewrite strip_prefix_app.
Qed.

Lemma append_assoc (a b c : string) : (a +:+ b) +:+ c = a +:+ (b +:+ c).
Proof. induction a; simpl; congruence. Qed.

Lemma append_nil_r (a : string) : a +:+ "" = a.
Proof. induction a; simpl; congruence. Qed.

Lemma append_length (a b : string) :
  String.length (a +:+ b) = (String.length a + String.length b)%nat.
Proof. induction a; simpl; congruence. Qed.

End StringFacts.

Lemma Contains_iff (s sub : string) : Contains s sub = true <-> Substring sub s.
Proof.
  unfold Substring; split.
  - induction s as [|c s IH]; simpl.
    + destruct (HasPrefix "" sub) eqn:E; [|discriminate].
      intros _. apply HasPrefix_iff in E as [rest E].
      exists "", rest. exact E.
    + destruct (HasPrefix (String c s) sub) eqn:E.
      * intros _. apply HasPrefix_iff in E as [rest E].
        exists "", rest. exact E.
      * intros H. destruct (IH H) as (pre & post & ->).
        exists (String c pre), post. reflexivity.
  - intros (pre & post & ->).
    induction pre as [|c pre IH]; simpl.
    + assert (E : HasPrefix (sub +:+ post) sub = true)
        by (apply HasPrefix_iff; eauto).
      destruct (sub +:+ post); simpl in *; now rewrite E.
    + rewrite IH. now destruct (HasPrefix _ _).
Qed.

(** ** Routing sink detection *)

(** C6. A control name passes [isRoutingSink] exactly when it contains
    "Capture Enum", "Playback Enum" or "Capture Route" and contains
    neither "Volume" nor "Switch". *)
Theorem isRoutingSink_iff (name : string) :
  isRoutingSink name = true <->
  (Substring "Capture Enum" name \/ Substring "Playback Enum" name
   \/ Substring "Capture Route" name)
  /\ ~ Substring "Volume" name
  /\ ~ Substring "Switch" name.
Proof.
  unfold isRoutingSink.
  rewrite !andb_true_iff, !orb_true_iff, !negb_true_iff.
  rewrite <- !Contains_iff.
  rewrite <- !not_true_iff_false.
  tauto.
Qed.

(** ** Routing source classification *)

Lemma parseRoutingSourceName_Mix_letter (c : ascii) (rest : string) :
  parseRoutingSourceName ("Mix " +:+ String c rest)
  = Returns (PortCategoryMix, byte_minus_A c).
Proof. reflexivity. Qed.

(** C9. [parseRoutingSourceName] is not total: on the four-byte name
    "Mix " the slice [name[4:5]] is out of range and the call panics
    instead of returning the default [(PortCategoryOff, 0)].  It is the
    only such name: every other string is classified. *)
Theorem parseRoutingSourceName_panics_iff :
  parseRoutingSourceName "Mix " = Panics
  /\ forall name : string, parseRoutingSourceName name = Panics <-> name = "Mix ".
Proof.
  split; [reflexivity|].
  intros name; split; [|intros ->; reflexivity].
  unfold parseRoutingSourceName.
  destruct (String.eqb name "Off"); [discriminate|].
  destruct (HasPrefix name "Mix ") eqn:E.
  - apply HasPrefix_iff in E as [rest ->].
    destruct rest as [|c rest]; [reflexivity|]. simpl. discriminate.
  - repeat match goal with
           | |- context [if ?b then _ else _] => destruct b
           end; discriminate.
Qed.

(** An item list that reaches the panic through [sourcesFrom], the loop
    of [GetRoutingSources]. *)
Example sourcesFrom_panics :
  sourcesFrom 0 ["Off"; "Mix A"; "Mix "; "PCM 1"] = Panics.
Proof. reflexivity. Qed.

(** ** Routing sink classification *)

(** Case analysis on the literal prefixes that a matcher tries on [name]. *)
Ltac head_of_match re :=
  let name := fresh "name" in
  intros name; unfold MatchString, match_here, re; cbn [rmatch];
  repeat match goal with
         | |- context [strip_prefix ?p name] =>
             let E := fresh "E" in
             destruct (strip_prefix p name) eqn:E;
             [apply strip_prefix_Some in E; subst name;
              intros _; simpl; now auto|]
         end;
  discriminate.

Lemma pcm_head name :
  MatchString pcmCategoryRe name = true -> head_byte name = Some "P"%char.
Proof. revert name. head_of_match pcmCategoryRe. Qed.

Lemma mix_head name :
  MatchString mixCategoryRe name = true -> head_byte name = Some "M"%char.
Proof. revert name. head_of_match mixCategoryRe. Qed.

Lemma dsp_head name :
  MatchString dspCategoryRe name = true -> head_byte name = Some "D"%char.
Proof. revert name. head_of_match dspCategoryRe. Qed.

Lemma hw_head name :
  MatchString hwCategoryRe name = true ->
  head_byte name = Some "A"%char \/ head_byte name = Some "S"%char.
Proof. revert name. head_of_match hwCategoryRe. Qed.

(** No name matches the patterns of two categories. *)
Lemma category_patterns_exclusive (name : string) c1 re1 c2 re2 :
  In (c1, re1) portCategoryRegexes -> In (c2, re2) portCategoryRegexes ->
  MatchString re1 name = true -> MatchString re2 name = true -> c1 = c2.
Proof.
  unfold portCategoryRegexes; simpl.
  intros H1 H2 M1 M2.
  repeat match goal with
         | H : _ \/ _ |- _ => destruct H
         | H : False |- _ => destruct H
         | H : (_, _) = (_, _) |- _ => injection H as <- <-
         end;
    try reflexivity;
    repeat match goal with
           | H : MatchString pcmCategoryRe _ = true |- _ => apply pcm_head in H
           | H : MatchString mixCategoryRe _ = true |- _ => apply mix_head in H
           | H : MatchString dspCategoryRe _ = true |- _ => apply dsp_head in H
           | H : MatchString hwCategoryRe _ = true |- _ =>
               apply hw_head in H; destruct H
           end;
    congruence.
Qed.

Lemma parseRoutingSinkName_in_matching name order :
  parseRoutingSinkName_in order name
  = match matching name order with
    | [] => (PortCategoryOff, 0)
    | (category, _) :: _ => (category, extractPortNumber name)
    end.
Proof.
  induction order as [|[c re] order IH]; simpl; [reflexivity|].
  destruct (MatchString re name); [reflexivity|exact IH].
Qed.

Lemma matching_Permutation name o1 o2 :
  Permutation o1 o2 -> Permutation (matching name o1) (matching name o2).
Proof.
  unfold matching.
  induction 1 as [|x l l' _ IH|x y l|l l' l'' _ IH1 _ IH2]; simpl.
  - constructor.
  - destruct (MatchString _ _); [now constructor|exact IH].
  - destruct (MatchString (snd x) name), (MatchString (snd y) name);
      try reflexivity. apply perm_swap.
  - etransitivity; eauto.
Qed.

Lemma matching_at_most_one name :
  (length (matching name portCategoryRegexes) <= 1)%nat.
Proof.
  pose proof (category_patterns_exclusive name) as X.
  unfold matching, portCategoryRegexes in *; simpl in *.
  destruct (MatchString pcmCategoryRe name) eqn:E1,
           (MatchString mixCategoryRe name) eqn:E2,
           (MatchString dspCategoryRe name) eqn:E3,
           (MatchString hwCategoryRe name) eqn:E4; simpl; try lia; exfalso.
  all: first
    [ specialize (X PortCategoryPCM pcmCategoryRe PortCategoryMix mixCategoryRe);
      (assert (PortCategoryPCM = PortCategoryMix) by (apply X; tauto));
      discriminate
    | specialize (X PortCategoryPCM pcmCategoryRe PortCategoryDSP dspCategoryRe);
      (assert (PortCategoryPCM = PortCategoryDSP) by (apply X; tauto));
      discriminate
    | specialize (X PortCategoryPCM pcmCategoryRe PortCategoryHW hwCategoryRe);
      (assert (PortCategoryPCM = PortCategoryHW) by (apply X; tauto));
      discriminate
    | specialize (X PortCategoryMix mixCategoryRe PortCategoryDSP dspCategoryRe);
      (assert (PortCategoryMix = PortCategoryDSP) by (apply X; tauto));
      discriminate
    | specialize (X PortCategoryMix mixCategoryRe PortCategoryHW hwCategoryRe);
      (assert (PortCategoryMix = PortCategoryHW) by (apply X; tauto));
      discriminate
    | specialize (X PortCategoryDSP dspCategoryRe PortCategoryHW hwCategoryRe);
      (assert (PortCategoryDSP = PortCategoryHW) by (apply X; tauto));
      discriminate ].
Qed.

Lemma Permutation_short {A} (l l' : list A) :
  (length l <= 1)%nat -> Permutation l' l -> l' = l.
Proof.
  intros Hlen HP.
  destruct l as [|x [|y l]]; simpl in Hlen; try lia.
  - now apply Permutation_nil, Permutation_sym.
  - now apply Permutation_length_1_inv, Permutation_sym.
Qed.

(** C7. The classification of a sink name does not depend on the order
    in which the map [portCategoryRegexes] is iterated: whatever two
    orders are taken, [parseRoutingSinkName] returns the same category
    and port, and a name matched by the pattern of one category is
    matched by the pattern of no other. *)
Theorem parseRoutingSinkName_order_independent (name : string)
    (order1 order2 : list (PortCategory * regex)) :
  Permutation order1 portCategoryRegexes ->
  Permutation order2 portCategoryRegexes ->
  parseRoutingSinkName_in order1 name = parseRoutingSinkName_in order2 name
  /\ forall c1 re1 c2 re2,
       In (c1, re1) order1 -> In (c2, re2) order2 ->
       MatchString re1 name = true -> MatchString re2 name = true -> c1 = c2.
Proof.
  intros P1 P2; split.
  - rewrite !parseRoutingSinkName_in_matching.
    pose proof (matching_at_most_one name) as Hlen.
    rewrite (Permutation_short _ _ Hlen (matching_Permutation name _ _ P1)).
    rewrite (Permutation_short _ _ Hlen (matching_Permutation name _ _ P2)).
    reflexivity.
  - intros c1 re1 c2 re2 I1 I2.
    apply category_patterns_exclusive.
    + exact (Permutation_in _ P1 I1).
    + exact (Permutation_in _ P2 I2).
Qed.

Lemma parseRoutingSinkName_order_independent_witness :
  Permutation (rev portCategoryRegexes) portCategoryRegexes
  /\ Permutation portCategoryRegexes portCategoryRegexes
  /\ parseRoutingSinkName_in (rev portCategoryRegexes) "Analogue Output 03 Playback Enum"
     = parseRoutingSinkName_in portCategoryRegexes "Analogue Output 03 Playback Enum".
Proof.
  assert (P1 : Permutation (rev portCategoryRegexes) portCategoryRegexes)
    by (apply Permutation_sym, Permutation_rev).
  assert (P2 : Permutation portCategoryRegexes portCategoryRegexes)
    by reflexivity.
  split; [exact P1|]. split; [exact P2|].
  exact (proj1 (parseRoutingSinkName_order_independent
                  "Analogue Output 03 Playback Enum" _ _ P1 P2)).
Defined.

(** ** Control value coercion *)

(** Every control handed out by [GetControls] belongs to the open card. *)
Lemma GetControls_open_handle lib enumerateControls c r controls ctl :
  GetControls lib enumerateControls c r = Ok controls ->
  In ctl controls -> exists h, handle c = Some h /\ open_handle ctl = Some h.
Proof.
  unfold GetControls.
  destruct (handle c) as [h|] eqn:Hh; [|discriminate].
  destruct (enumerateControls h r) as [l|e]; [|discriminate].
  intros [= <-] Hin. apply in_map_iff in Hin as (ctl0 & <- & _).
  exists h. unfold open_handle; simpl. now rewrite Hh.
Qed.

Lemma SetValue_plan_bounded (ctl : Control) (h : alsaHandle) (value : Z) :
  open_handle ctl = Some h ->
  Type_ ctl = ControlTypeEnumerated \/ Type_ ctl = ControlTypeInteger
  \/ Type_ ctl = ControlTypeInteger64 ->
  (within_bounds ctl value /\ SetValue_plan ctl value = CallWrite h value)
  \/ (~ within_bounds ctl value
      /\ exists e, is_range_error e = true /\ SetValue_plan ctl value = Refuse e).
Proof.
  intros Hh Hty. unfold SetValue_plan, within_bounds. rewrite Hh.
  destruct Hty as [-> | [-> | ->]]; simpl.
  - destruct (value <? 0) eqn:E1; simpl.
    + right; split; [lia|]. eexists; split; [|reflexivity]. reflexivity.
    + destruct (value >=? len (Items ctl)) eqn:E2; simpl.
      * right; split; [lia|]. eexists; split; [|reflexivity]. reflexivity.
      * left; split; [lia|reflexivity].
  - destruct (value <? Min ctl) eqn:E1; simpl.
    + right; split; [lia|]. eexists; split; [|reflexivity]. reflexivity.
    + destruct (value >? Max ctl) eqn:E2; simpl.
      * right; split; [lia|]. eexists; split; [|reflexivity]. reflexivity.
      * left; split; [lia|reflexivity].
  - destruct (value <? Min ctl) eqn:E1; simpl.
    + right; split; [lia|]. eexists; split; [|reflexivity]. reflexivity.
    + destruct (value >? Max ctl) eqn:E2; simpl.
      * right; split; [lia|]. eexists; split; [|reflexivity]. reflexivity.
      * left; split; [lia|reflexivity].
Qed.

(** C3. For an enumerated control of an open card [SetValue] passes
    validation and performs the registry write exactly when
    [0 <= value < len(Items)], and for an integer or integer64 control
    exactly when [Min <= value <= Max]: within the bounds it reads the
    element, stores the value in the slot of the control and writes the
    element back; for any other value it returns a range error and
    leaves the registry as it was. *)
Theorem SetValue_range_checked (lib : AlsaLib) (ctl : Control)
    (h : alsaHandle) (value : Z) :
  open_handle ctl = Some h ->
  Type_ ctl = ControlTypeEnumerated \/ Type_ ctl = ControlTypeInteger
  \/ Type_ ctl = ControlTypeInteger64 ->
  (SetValue_plan ctl value = CallWrite h value <-> within_bounds ctl value)
  /\ (within_bounds ctl value ->
      forall r, SetValue lib ctl value r = write_ranged lib h ctl value r)
  /\ (~ within_bounds ctl value ->
      exists e, is_range_error e = true
                /\ forall r, SetValue lib ctl value r = (r, Some e)).
Proof.
  intros Hh Hty.
  destruct (SetValue_plan_bounded ctl h value Hh Hty)
    as [[Hin Hplan] | [Hout (e & He & Hplan)]];
    unfold SetValue; rewrite Hplan.
  - split; [tauto|]. split; [|tauto]. intros _ r.
    cbn [run_plan]. unfold writeControl, write_ranged.
    destruct Hty as [-> | [-> | ->]]; reflexivity.
  - split; [split; [discriminate|tauto]|].
    split; [tauto|]. intros _. exists e. split; [exact He|reflexivity].
Qed.

Lemma SetValue_range_checked_witness :
  open_handle enum5 = Some handle0
  /\ within_bounds enum5 4
  /\ SetValue memLib enum5 4 enumAt0 = ({[ 1 := {[ 0 := 4 ]} ]}, None)
  /\ ~ within_bounds enum5 5
  /\ SetValue memLib enum5 5 enumAt0 = (enumAt0, Some (ErrEnumRange 5 4)).
Proof.
  assert (Hin : within_bounds enum5 4)
    by (unfold within_bounds, len; simpl; lia).
  assert (Hout : ~ within_bounds enum5 5)
    by (unfold within_bounds, len; simpl; lia).
  split; [reflexivity|]. split; [exact Hin|]. split; [|split; [exact Hout|]].
  - rewrite (proj1 (proj2 (SetValue_range_checked memLib enum5 handle0 4
                             eq_refl (or_introl eq_refl))) Hin enumAt0).
    vm_compute. reflexivity.
  - destruct (proj2 (proj2 (SetValue_range_checked memLib enum5 handle0 5
                              eq_refl (or_introl eq_refl))) Hout)
      as (e & _ & He).
    rewrite (He enumAt0). f_equal.
    specialize (He enumAt0). vm_compute in He. now injection He as <-.
Defined.

(** The two cases the specification lists: five items, values 5 and 4. *)
Example SetValue_enum5_5 :
  SetValue_plan enum5 5 = Refuse (ErrEnumRange 5 4).
Proof. reflexivity. Qed.

Example SetValue_enum5_4 :
  SetValue_plan enum5 4 = CallWrite handle0 4.
Proof. reflexivity. Qed.

(** C10. [SetValue] checks no range for a boolean control: whatever the
    value, it is handed unchanged to [writeControl], which stores it in
    the element with [snd_ctl_elem_value_set_boolean]; and a range error
    is only ever returned for an integer, integer64 or enumerated
    control. *)
Theorem SetValue_boolean_unchecked (lib : AlsaLib) (ctl : Control)
    (h : alsaHandle) (value : Z) :
  open_handle ctl = Some h ->
  Type_ ctl = ControlTypeBoolean ->
  SetValue_plan ctl value = CallWrite h value
  /\ (forall r, SetValue lib ctl value r = write_boolean lib h ctl value r)
  /\ (forall (ctl' : Control) (value' : Z) (e : Error),
        SetValue_plan ctl' value' = Refuse e -> is_range_error e = true ->
        Type_ ctl' = ControlTypeInteger \/ Type_ ctl' = ControlTypeInteger64
        \/ Type_ ctl' = ControlTypeEnumerated).
Proof.
  intros Hh Hty.
  assert (Hplan : SetValue_plan ctl value = CallWrite h value).
  { unfold SetValue_plan. rewrite Hh, Hty. reflexivity. }
  split; [exact Hplan|]. split.
  - intros r. unfold SetValue. rewrite Hplan. simpl.
    unfold writeControl, write_boolean. rewrite Hty. reflexivity.
  - intros ctl' value' e. unfold SetValue_plan.
    destruct (open_handle ctl'); [|intros [= <-]; discriminate].
    destruct (Type_ ctl'); simpl; auto; intros [= <-]; discriminate.
Qed.

Lemma SetValue_boolean_unchecked_witness :
  open_handle phantom1 = Some handle0
  /\ Type_ phantom1 = ControlTypeBoolean
  /\ SetValue_plan phantom1 7 = CallWrite handle0 7.
Proof.
  split; [reflexivity|]. split; [reflexivity|].
  exact (proj1 (SetValue_boolean_unchecked memLib phantom1 handle0 7
                  eq_refl eq_refl)).
Defined.

(** ** Parsing and display of a value *)

Section Folding.

Context {U : UnicodeTables}.

Lemma foldRune_refl (r : Z) : foldRune r r = true.
Proof. unfold foldRune. now rewrite Z.eqb_refl. Qed.

Lemma foldRunes_refl (rs : list Z) : foldRunes rs rs = true.
Proof.
  induction rs as [|r rs IH]; [reflexivity|].
  cbn [foldRunes]. now rewrite foldRune_refl.
Qed.

(** A string equals itself under folding, whatever bytes it holds. *)
Lemma EqualFold_refl (s : string) : EqualFold s s = true.
Proof.
  induction s as [|c s IH]; [reflexivity|].
  cbn [EqualFold]. destruct (_ && _).
  - now rewrite foldRune_refl.
  - apply foldRunes_refl.
Qed.

Lemma find_item_nth (items : list string) (k : nat) (i : Z) :
  (k < length items)%nat ->
  (forall j : nat, (j < k)%nat ->
     EqualFold (nth j items "") (nth k items "") = false) ->
  find_item i items (nth k items "") = Some (i + Z.of_nat k).
Proof.
  revert k i; induction items as [|a items IH]; intros k i Hk Hfirst.
  - simpl in Hk; lia.
  - destruct k as [|k]; simpl.
    + rewrite EqualFold_refl. f_equal; lia.
    + pose proof (Hfirst 0%nat ltac:(lia)) as H0. simpl in H0. rewrite H0.
      rewrite IH.
      * f_equal; lia.
      * simpl in Hk; lia.
      * intros j Hj. apply (Hfirst (S j)). lia.
Qed.

End Folding.

Lemma SetValue_plan_CallWrite (ctl : Control) (value value' : Z) (h : alsaHandle) :
  SetValue_plan ctl value = CallWrite h value' ->
  value' = value /\ open_handle ctl = Some h
  /\ (Type_ ctl = ControlTypeEnumerated -> 0 <= value < len (Items ctl)).
Proof.
  unfold SetValue_plan.
  destruct (open_handle ctl) as [h0|]; [|discriminate].
  destruct (_ && _); [discriminate|].
  destruct (bool_decide (Type_ ctl = ControlTypeEnumerated)) eqn:Ety; simpl.
  - destruct (value <? 0) eqn:E1; simpl; [discriminate|].
    destruct (value >=? len (Items ctl)) eqn:E2; simpl; [discriminate|].
    intros [= <- <-]. repeat split; lia.
  - intros [= <- <-]. split; [reflexivity|]. split; [reflexivity|].
    intros Hty. apply bool_decide_eq_false in Ety. contradiction.
Qed.

(** C8, as far as it holds. For a boolean control, and for an enumerated
    control when the selected item is the first of its name up to case
    (so whenever the item names are pairwise distinct up to case): if
    [SetValueByString] accepts [s] and writes [value], then it accepts
    the text that [GetValueString] displays for [value] and writes
    [value] again. *)
Theorem display_idempotent {U : UnicodeTables} (ctl : Control) (s : string)
    (value : Z) :
  Type_ ctl = ControlTypeBoolean
  \/ (Type_ ctl = ControlTypeEnumerated
      /\ no_earlier_namesake (Items ctl) value) ->
  selects ctl s value ->
  selects ctl (valueString ctl value) value.
Proof.
  intros Hty [h Hsel]. exists h.
  unfold SetValueByString_plan, valueString in *.
  destruct Hty as [Hty | [Hty Hfirst]]; rewrite Hty in *.
  - assert (Hv : SetValue_plan ctl value = CallWrite h value
                 /\ (value = 1 \/ value = 0)).
    { repeat match type of Hsel with
             | (if ?b then _ else _) = _ => destruct b
             end; try discriminate;
        destruct (SetValue_plan_CallWrite _ _ _ _ Hsel) as (-> & _);
        auto. }
    destruct Hv as [Hplan [-> | ->]]; exact Hplan.
  - assert (Hv : SetValue_plan ctl value = CallWrite h value).
    { destruct (find_item 0 (Items ctl) s) as [i|].
      - destruct (SetValue_plan_CallWrite _ _ _ _ Hsel) as (-> & _).
        exact Hsel.
      - destruct (Sscanf_d s) as [index|]; [|discriminate].
        destruct (SetValue_plan_CallWrite _ _ _ _ Hsel) as (-> & _).
        exact Hsel. }
    destruct (SetValue_plan_CallWrite _ _ _ _ Hv) as (_ & _ & Hrange).
    specialize (Hrange Hty).
    replace ((value >=? 0) && (value <? len (Items ctl))) with true
      by (symmetry; apply andb_true_iff; split; lia).
    rewrite (find_item_nth (Items ctl) (Z.to_nat value) 0).
    + rewrite Z2Nat.id by lia. exact Hv.
    + unfold len in Hrange. lia.
    + exact Hfirst.
Qed.

Lemma display_idempotent_witness :
  (Type_ enum5 = ControlTypeEnumerated
   /\ no_earlier_namesake (U := asciiTables) (Items enum5) 3)
  /\ selects (U := asciiTables) enum5 "mix a" 3
  /\ selects (U := asciiTables) enum5 (valueString enum5 3) 3.
Proof.
  assert (Hfirst : no_earlier_namesake (U := asciiTables) (Items enum5) 3).
  { intros j Hj. simpl in Hj.
    destruct j as [|[|[|j]]]; try reflexivity; lia. }
  assert (Hsel : selects (U := asciiTables) enum5 "mix a" 3)
    by (exists handle0; reflexivity).
  split; [split; [reflexivity|exact Hfirst]|]. split; [exact Hsel|].
  exact (display_idempotent (U := asciiTables) enum5 "mix a" 3
           (or_intror (conj eq_refl Hfirst)) Hsel).
Defined.

(** C8 fails as stated, whatever the tables of package [unicode] hold:
    the index "1" selects item 1, which is displayed as "LINE", and
    "LINE" selects item 0. *)
Lemma display_not_idempotent :
  ~ (exists U : UnicodeTables,
       forall (s : string) (value : Z),
         selects dupEnum s value ->
         selects dupEnum (valueString dupEnum value) value).
Proof.
  intros [U H].
  assert (Hsel : selects dupEnum "1" 1) by (exists handle0; reflexivity).
  destruct (H _ _ Hsel) as [h Hh].
  vm_compute in Hh. discriminate.
Qed.

(** The names left empty by [enumerateControls] when an item name cannot
    be queried collide in the same way. *)
Example display_unnamed_items {U : UnicodeTables} :
  let ctl := mkControl 5 "Level" ControlTypeEnumerated 1 0 (Some card0) 0 0
                       ["Line"; ""; ""] in
  SetValueByString_plan ctl "2" = CallWrite handle0 2
  /\ SetValueByString_plan ctl (valueString ctl 2) = CallWrite handle0 1.
Proof. split; reflexivity. Qed.

(** ** Decimal text *)

Lemma is_digit_cases (c : ascii) :
  is_digit c = true ->
  In c ["0"; "1"; "2"; "3"; "4"; "5"; "6"; "7"; "8"; "9"]%char.
Proof.
  destruct c as [[] [] [] [] [] [] [] []]; vm_compute; intros H;
    try discriminate H; tauto.
Qed.

Lemma digit_char_spec (d : Z) :
  0 <= d <= 9 -> is_digit (digit_char d) = true /\ digit_val (digit_char d) = d.
Proof.
  intros H.
  assert (C : d = 0 \/ d = 1 \/ d = 2 \/ d = 3 \/ d = 4 \/ d = 5 \/ d = 6
              \/ d = 7 \/ d = 8 \/ d = 9) by lia.
  repeat (destruct C as [-> | C]; [split; reflexivity|]).
  subst d; split; reflexivity.
Qed.

Lemma digits_of_fuel_value (fuel : nat) (n : Z) (acc : string) :
  0 <= n < 2 ^ Z.of_nat fuel ->
  digits_acc 0 (digits_of_fuel fuel n acc) = digits_acc n acc.
Proof.
  revert n acc; induction fuel as [|fuel IH]; intros n acc Hn.
  - simpl in *. now replace n with 0 by lia.
  - cbn [digits_of_fuel].
    assert (Hmod : 0 <= n mod 10 <= 9) by (pose proof (Z.mod_pos_bound n 10); lia).
    destruct (digit_char_spec _ Hmod) as [_ Hval].
    destruct (n <? 10) eqn:E.
    + cbn [digits_acc]. rewrite Hval.
      rewrite Z.mod_small by lia. reflexivity.
    + rewrite IH.
      * cbn [digits_acc]. rewrite Hval. f_equal.
        pose proof (Z.div_mod n 10). lia.
      * rewrite Nat2Z.inj_succ, Z.pow_succ_r in Hn by lia.
        split; [apply Z.div_pos; lia|].
        apply Z.div_lt_upper_bound; lia.
Qed.

Lemma digits_of_fuel_digits (fuel : nat) (n : Z) (acc : string) :
  0 <= n -> forallb_str is_digit acc = true ->
  forallb_str is_digit (digits_of_fuel fuel n acc) = true.
Proof.
  revert n acc; induction fuel as [|fuel IH]; intros n acc Hn Hacc; [exact Hacc|].
  cbn [digits_of_fuel].
  assert (Hmod : 0 <= n mod 10 <= 9) by (pose proof (Z.mod_pos_bound n 10); lia).
  destruct (digit_char_spec _ Hmod) as [Hd _].
  assert (Hacc' : forallb_str is_digit (String (digit_char (n mod 10)) acc) = true)
    by (cbn [forallb_str]; now rewrite Hd).
  destruct (n <? 10); [exact Hacc'|].
  apply IH; [apply Z.div_pos; lia|exact Hacc'].
Qed.

Lemma digits_of_fuel_nonempty (fuel : nat) (n : Z) (acc : string) :
  (fuel <> 0%nat \/ acc <> "") -> digits_of_fuel fuel n acc <> "".
Proof.
  revert n acc; induction fuel as [|fuel IH]; intros n acc H.
  - simpl. destruct H; congruence.
  - cbn [digits_of_fuel]. destruct (n <? 10); [discriminate|].
    apply IH. right; discriminate.
Qed.

Lemma digits_of_spec (n : Z) :
  0 <= n ->
  digits_of n <> "" /\ forallb_str is_digit (digits_of n) = true
  /\ digits_value (digits_of n) = n.
Proof.
  intros Hn. unfold digits_of, digits_value. split; [|split].
  - apply digits_of_fuel_nonempty. left; discriminate.
  - now apply digits_of_fuel_digits.
  - rewrite digits_of_fuel_value; [reflexivity|].
    split; [exact Hn|].
    destruct (Z.eq_dec n 0) as [->|Hne]; [reflexivity|].
    rewrite Nat2Z.inj_succ, Z2Nat.id by apply Z.log2_nonneg.
    apply Z.log2_spec. lia.
Qed.

Lemma format_02d_spec (n : Z) :
  0 <= n ->
  format_02d n <> "" /\ forallb_str is_digit (format_02d n) = true
  /\ digits_value (format_02d n) = n.
Proof.
  intros Hn. destruct (digits_of_spec n Hn) as (Hne & Hd & Hv).
  unfold format_02d. destruct (n <? 10); [|tauto].
  split; [discriminate|]. split.
  - cbn [forallb_str]. now rewrite Hd.
  - exact Hv.
Qed.

Lemma span_all (p : ascii -> bool) (s : string) :
  forallb_str p s = true -> span p s = (s, "").
Proof.
  induction s as [|c s IH]; simpl; [reflexivity|].
  intros H. apply andb_true_iff in H as [Hc Hs].
  now rewrite Hc, (IH Hs).
Qed.

(** The scan of a run of digits, as the patterns capture it. *)
Lemma Sscanf_d_digits (ds : string) :
  ds <> "" -> forallb_str is_digit ds = true ->
  Sscanf_d ds
  = if fits_int64 (digits_value ds) then Some (digits_value ds) else None.
Proof.
  intros Hne Hd. destruct ds as [|c ds]; [congruence|].
  pose proof Hd as Hd'. cbn [forallb_str] in Hd'.
  apply andb_true_iff in Hd' as [Hc _].
  unfold Sscanf_d.
  assert (Hskip : skip_blank (String c ds) = String c ds).
  { apply is_digit_cases in Hc. simpl in Hc.
    repeat (destruct Hc as [<- | Hc]; [reflexivity|]). destruct Hc. }
  rewrite Hskip.
  assert (Hsign : match String c ds with
                  | String "-" r => ("-", r)
                  | String "+" r => ("+", r)
                  | _ => ("", String c ds)
                  end = ("", String c ds)).
  { apply is_digit_cases in Hc. simpl in Hc.
    repeat (destruct Hc as [<- | Hc]; [reflexivity|]). destruct Hc. }
  rewrite Hsign, (span_all _ _ Hd).
  change ("" +:+ String c ds) with (String c ds).
  unfold ParseInt.
  assert (Hsign' : match String c ds with
                   | String "-" r => (true, r)
                   | String "+" r => (false, r)
                   | _ => (false, String c ds)
                   end = (false, String c ds)).
  { apply is_digit_cases in Hc. simpl in Hc.
    repeat (destruct Hc as [<- | Hc]; [reflexivity|]). destruct Hc. }
  rewrite Hsign', Hd. reflexivity.
Qed.

Lemma scan_int_format_02d (n : Z) :
  0 <= n <= maxInt64 -> scan_int (format_02d n) = n.
Proof.
  intros Hn. destruct (format_02d_spec n) as (Hne & Hd & Hv); [lia|].
  unfold scan_int. rewrite (Sscanf_d_digits _ Hne Hd), Hv.
  replace (fits_int64 n) with true; [reflexivity|].
  symmetry. unfold fits_int64, minInt64.
  apply andb_true_iff; split; lia.
Qed.

(** ** Matching a name that contains a run of digits *)

Lemma take_str_app (a b : string) : take_str (String.length a) (a +:+ b) = a.
Proof. induction a as [|c a IH]; simpl; [now destruct b|now rewrite IH]. Qed.

Lemma consumed_app (a b : string) : consumed (a +:+ b) b = a.
Proof.
  unfold consumed. rewrite append_length.
  replace (String.length a + String.length b - String.length b)%nat
    with (String.length a) by lia.
  apply take_str_app.
Qed.

Lemma consumed_all (s : string) : consumed s "" = s.
Proof.
  rewrite <- (append_nil_r s) at 1. apply consumed_app.
Qed.

(** A greedy [c+] in front of a maximal run [ds] takes all of it when the
    rest of the pattern matches what follows. *)
Lemma plus_try_run {A} (p : ascii -> bool) (ds rest : string)
    (k : string -> option A) (x : A) :
  ds <> "" -> forallb_str p ds = true -> stops p rest ->
  k rest = Some x -> plus_try p (ds +:+ rest) k = Some x.
Proof.
  intros Hne Hd Hstop Hk.
  induction ds as [|c ds IH]; [congruence|].
  cbn [forallb_str] in Hd. apply andb_true_iff in Hd as [Hc Hd].
  simpl. rewrite Hc.
  destruct ds as [|c' ds].
  - simpl. destruct rest as [|c0 rest]; simpl.
    + exact Hk.
    + simpl in Hstop. rewrite Hstop. exact Hk.
  - rewrite IH; [reflexivity|discriminate|exact Hd].
Qed.

Section MixerNames.

Variable L : ascii.
Variable ds : string.
Hypothesis L_upper : is_upper L = true.
Hypothesis ds_nonempty : ds <> "".
Hypothesis ds_digits : forallb_str is_digit ds = true.

Lemma gen234Re_matches :
  FindStringSubmatch gen234Re (gen234Name L ds)
  = Some [gen234Name L ds; String L ""; ds].
Proof.
  unfold FindStringSubmatch, match_here, gen234Re, gen234Name, digits1.
  cbn [rmatch]. rewrite strip_prefix_app. cbv beta iota.
  rewrite L_upper. rewrite strip_prefix_app.
  erewrite plus_try_run;
    [reflexivity|exact ds_nonempty|exact ds_digits|exact eq_refl|].
  cbv beta iota.
  change (strip_prefix " Playback Volume" " Playback Volume") with (Some "").
  cbv beta iota.
  rewrite consumed_all.
  change (String L (" Input " +:+ ds +:+ " Playback Volume"))
    with (String L "" +:+ (" Input " +:+ ds +:+ " Playback Volume")).
  rewrite !consumed_app. reflexivity.
Qed.

Lemma gen234Re_rejects_gen1 : FindStringSubmatch gen234Re (gen1Name L ds) = None.
Proof. reflexivity. Qed.

Lemma gen1Re_matches :
  FindStringSubmatch gen1Re (gen1Name L ds)
  = Some [gen1Name L ds; ds; String L ""].
Proof.
  unfold FindStringSubmatch, match_here, gen1Re, gen1Name, digits1.
  cbn [rmatch]. rewrite strip_prefix_app. cbv beta iota.
  erewrite plus_try_run;
    [reflexivity|exact ds_nonempty|exact ds_digits|exact eq_refl|].
  cbv beta iota. rewrite strip_prefix_app. cbv beta iota.
  rewrite L_upper.
  change (strip_prefix " Playback Volume" " Playback Volume") with (Some "").
  cbv beta iota.
  rewrite consumed_all.
  change (String L " Playback Volume")
    with (String L "" +:+ " Playback Volume").
  rewrite !consumed_app. reflexivity.
Qed.

Lemma mixerInputOf_gen234 (ctl : Control) :
  Type_ ctl = ControlTypeInteger -> Name ctl = (gen234Name L ds) ->
  mixerInputOf ctl = [mkMixerInput (String.append "Mix " (String L "")) (scan_int ds) ctl].
Proof.
  intros Hty Hname. unfold mixerInputOf.
  rewrite Hty, Hname, gen234Re_matches. reflexivity.
Qed.

Lemma mixerInputOf_gen1 (ctl : Control) :
  Type_ ctl = ControlTypeInteger -> Name ctl = (gen1Name L ds) ->
  mixerInputOf ctl = [mkMixerInput (String.append "Mix " (String L "")) (scan_int ds) ctl].
Proof.
  intros Hty Hname. unfold mixerInputOf.
  rewrite Hty, Hname, gen234Re_rejects_gen1, gen1Re_matches. reflexivity.
Qed.

End MixerNames.

(** ** Mixer naming conventions *)

(** C5. For every mix letter [L] and input number [N], an integer control
    named "Mix L Input NN Playback Volume" and one named
    "Matrix NN Mix L Playback Volume" are classified with the same key,
    [MixName = "Mix L"] and [InputNum = N], and [GetMixerInputs] lists
    both under that key. *)
Theorem mixer_conventions_agree (lib : AlsaLib)
    (enumerateControls : alsaHandle -> Registry lib -> result (list Control))
    (c : Card) (r : Registry lib) (controls : list Control)
    (L : ascii) (N : Z) (ctl234 ctl1 : Control) :
  is_upper L = true -> 0 <= N <= maxInt64 ->
  Type_ ctl234 = ControlTypeInteger ->
  Name ctl234 = gen234Name L (format_02d N) ->
  Type_ ctl1 = ControlTypeInteger ->
  Name ctl1 = gen1Name L (format_02d N) ->
  let key := "Mix " +:+ String L "" in
  mixerInputOf ctl234 = [mkMixerInput key N ctl234]
  /\ mixerInputOf ctl1 = [mkMixerInput key N ctl1]
  /\ (GetControls lib enumerateControls c r = Ok controls ->
      In ctl234 controls -> In ctl1 controls ->
      exists inputs,
        GetMixerInputs lib enumerateControls c r = Ok inputs
        /\ In (mkMixerInput key N ctl234) inputs
        /\ In (mkMixerInput key N ctl1) inputs).
Proof.
  intros HL HN Hty234 Hname234 Hty1 Hname1 key.
  destruct (format_02d_spec N) as (Hne & Hd & _); [lia|].
  pose proof (mixerInputOf_gen234 L _ HL Hne Hd ctl234 Hty234 Hname234) as E234.
  pose proof (mixerInputOf_gen1 L _ HL Hne Hd ctl1 Hty1 Hname1) as E1.
  rewrite (scan_int_format_02d N HN) in E234, E1.
  split; [exact E234|]. split; [exact E1|].
  intros Hctl Hin234 Hin1. unfold GetMixerInputs. rewrite Hctl.
  eexists; split; [reflexivity|].
  split; apply in_concat.
  - exists (mixerInputOf ctl234); split; [now apply in_map|].
    rewrite E234. now left.
  - exists (mixerInputOf ctl1); split; [now apply in_map|].
    rewrite E1. now left.
Qed.

Lemma mixer_conventions_agree_witness :
  is_upper "A" = true /\ 0 <= 1 <= maxInt64
  /\ Name mixA01_gen234 = gen234Name "A" (format_02d 1)
  /\ Name mixA01_gen1 = gen1Name "A" (format_02d 1)
  /\ mixerInputOf mixA01_gen234 = [mkMixerInput "Mix A" 1 mixA01_gen234]
  /\ mixerInputOf mixA01_gen1 = [mkMixerInput "Mix A" 1 mixA01_gen1].
Proof.
  assert (HN : 0 <= 1 <= maxInt64) by (unfold maxInt64; lia).
  split; [reflexivity|]. split; [exact HN|].
  split; [reflexivity|]. split; [reflexivity|].
  destruct (mixer_conventions_agree memLib (fun _ _ => Ok []) card0 ∅ []
              "A" 1 mixA01_gen234 mixA01_gen1
              eq_refl HN eq_refl eq_refl eq_refl eq_refl) as (E1 & E2 & _).
  split; [exact E1|exact E2].
Defined.

(** ** Preamp channels *)

Lemma ChannelNum_setSlot slot ctl ch :
  ChannelNum (setSlot slot ctl ch) = ChannelNum ch.
Proof. destruct ch, slot; reflexivity. Qed.

Lemma addControl_keyed m ctl : keyed m -> keyed (addControl m ctl).
Proof.
  intros Hm. unfold addControl.
  destruct (matchSlot slotPatterns (Name ctl)) as [[slot k]|]; [|exact Hm].
  intros n ch. destruct (decide (k = n)) as [->|Hne].
  - rewrite lookup_insert_eq. intros [= <-].
    rewrite ChannelNum_setSlot.
    destruct (m !! n) as [ch0|] eqn:E; [exact (Hm _ _ E)|reflexivity].
  - rewrite lookup_insert_ne by exact Hne. apply Hm.
Qed.

Lemma addControl_dom m ctl :
  dom (addControl m ctl)
  = dom m ∪ match matchedChannel ctl with Some n => {[n]} | None => ∅ end.
Proof.
  unfold addControl, matchedChannel.
  destruct (matchSlot slotPatterns (Name ctl)) as [[slot k]|].
  - rewrite dom_insert_L. set_solver.
  - set_solver.
Qed.

Lemma channelMap_spec (controls : list Control) (m : gmap Z PreampChannel) :
  keyed m ->
  keyed (fold_left addControl controls m)
  /\ dom (fold_left addControl controls m) = dom m ∪ matchedChannels controls.
Proof.
  revert m; induction controls as [|ctl controls IH]; intros m Hm; simpl.
  - split; [exact Hm|]. unfold matchedChannels; simpl. set_solver.
  - destruct (IH _ (addControl_keyed m ctl Hm)) as [Hk Hd].
    split; [exact Hk|]. rewrite Hd, addControl_dom.
    unfold matchedChannels; simpl.
    destruct (matchedChannel ctl); simpl; set_solver.
Qed.

Lemma sortedChannels_numbers (m : gmap Z PreampChannel) (l : list Z) :
  keyed m ->
  map ChannelNum (omap (fun i => m !! i) l) = filter (fun i => i ∈ dom m) l.
Proof.
  intros Hm. induction l as [|i l IH]; [reflexivity|].
  csimpl. destruct (m !! i) as [ch|] eqn:E; csimpl.
  - rewrite filter_cons_True by (apply elem_of_dom; eauto).
    now rewrite IH, (Hm _ _ E).
  - rewrite filter_cons_False by (now apply not_elem_of_dom).
    exact IH.
Qed.

(** What [GetPreampChannels] returns: the matched channel numbers that
    lie between 1 and the number of distinct matched channels plus ten,
    in ascending order. *)
Lemma preampChannelsOf_numbers (controls : list Control) :
  map ChannelNum (preampChannelsOf controls)
  = filter (fun i => i ∈ matchedChannels controls)
           (seqZ 1 (Z.of_nat (size (matchedChannels controls)) + 10)).
Proof.
  unfold preampChannelsOf, sortedChannels.
  destruct (channelMap_spec controls ∅) as [Hk Hd].
  { intros n ch. rewrite lookup_empty. discriminate. }
  rewrite dom_empty_L, (left_id_L ∅ (∪)) in Hd.
  rewrite sortedChannels_numbers by exact Hk.
  rewrite <- size_dom, Hd. reflexivity.
Qed.

(** C1 fails on the code. The name of [gain12] matches the gain pattern
    with channel 12, so channel 12 has a populated slot; the loop that
    builds the result only visits the numbers 1 to [len(channelMap)+10],
    here 11, and [GetPreampChannels] returns no channel at all. *)
Theorem GetPreampChannels_drops_channel_12 :
  matchSlot slotPatterns (Name gain12) = Some (SlotGain, 12)
  /\ matchedChannels [gain12] = {[12]}
  /\ GetPreampChannels memLib (fun _ _ => Ok [gain12]) card0 ∅ = Ok [].
Proof.
  split; [reflexivity|]. split; [reflexivity|].
  vm_compute. reflexivity.
Qed.

(** Channel 0 is never returned either: the loop starts at 1. *)
Example GetPreampChannels_drops_channel_0 :
  let gain0 := mkControl 21 "Line In 0 Gain Capture Volume" ControlTypeInteger
                         1 0 (Some card0) 0 70 [] in
  matchedChannel gain0 = Some 0 /\ preampChannelsOf [gain0; gain1] = [
    mkPreamp 1 (Some gain1) None None None None None None None None].
Proof. split; vm_compute; reflexivity. Qed.

(** ** Change monitor *)

Section Monitor.

Variable lib : AlsaLib.

Lemma reported_ext last1 last2 r controls :
  (forall ctl, In ctl controls -> last1 !! NumID ctl = last2 !! NumID ctl) ->
  reported lib last1 r controls = reported lib last2 r controls.
Proof.
  intros H. unfold reported. apply filter_ext_in.
  intros ctl Hin. unfold fires. now rewrite (H ctl Hin).
Qed.

Lemma learned_other last r controls k :
  ~ In k (map NumID controls) -> learned lib last r controls !! k = last !! k.
Proof.
  revert last; induction controls as [|ctl controls IH]; intros last Hk;
    [reflexivity|].
  simpl in *. rewrite IH by tauto.
  destruct (GetValue lib ctl r); [|reflexivity].
  apply lookup_insert_ne. tauto.
Qed.

Lemma learned_lookup last r controls ctl value :
  NoDup (map NumID controls) -> In ctl controls ->
  GetValue lib ctl r = Ok value ->
  learned lib last r controls !! NumID ctl = Some value.
Proof.
  revert last; induction controls as [|c0 controls IH]; intros last Hnd Hin Hv;
    [destruct Hin|].
  simpl in Hnd. apply NoDup_cons in Hnd as [Hfresh Hnd].
  rewrite list_elem_of_In in Hfresh.
  destruct Hin as [-> | Hin]; simpl.
  - rewrite learned_other by exact Hfresh. simpl.
    rewrite Hv. apply lookup_insert_eq.
  - now apply IH.
Qed.

(** [WatchControls] itself compares nothing: on an event its callback is
    called for every control that can be read, changed or not. *)
Lemma checkControls_calls_every_readable (controls : list Control)
    (r : Registry lib) (calls : list (Control * Z)) :
  checkControls lib (fun _ ctl value calls => (calls ++ [(ctl, value)], None))
                controls r calls
  = (calls ++ omap (fun ctl => match GetValue lib ctl r with
                               | Ok value => Some (ctl, value)
                               | Err _ => None
                               end) controls, None).
Proof.
  revert calls; induction controls as [|ctl controls IH]; intros calls.
  - simpl. now rewrite app_nil_r.
  - cbn [checkControls]. csimpl.
    destruct (GetValue lib ctl r) as [value|e]; [|apply IH].
    rewrite IH, <- app_assoc. reflexivity.
Qed.

(** One event handled by the closure of [WatchControls] around the
    callback of [WatchWithDisplay], when no two controls of the list
    share a [NumID]. *)
Lemma checkControls_display (controls : list Control) (r : Registry lib)
    (last : gmap Z Z) (printed : list OutputLine) :
  NoDup (map NumID controls) ->
  checkControls lib (displayChange lib) controls r (last, printed)
  = ((learned lib last r controls,
      printed ++ map (changeLine lib r) (reported lib last r controls)), None).
Proof.
  revert last printed; induction controls as [|ctl controls IH];
    intros last printed Hnd.
  - simpl. now rewrite app_nil_r.
  - simpl in Hnd. apply NoDup_cons in Hnd as [Hfresh Hnd].
  rewrite list_elem_of_In in Hfresh.
    cbn [checkControls learned fold_left reported List.filter].
    unfold fires at 1.
    destruct (GetValue lib ctl r) as [value|e] eqn:Hv.
    + assert (Hrest : reported lib (<[NumID ctl := value]> last) r controls
                      = reported lib last r controls).
      { apply reported_ext. intros c0 Hin.
        apply lookup_insert_ne. intros E. apply Hfresh.
        rewrite E. now apply in_map. }
      unfold displayChange.
      destruct (last !! NumID ctl) as [lastValue|] eqn:Hl.
      * destruct (lastValue =? value) eqn:E.
        -- apply Z.eqb_eq in E; subst lastValue.
           rewrite bool_decide_eq_true_2 by reflexivity. cbn [negb].
           rewrite IH by exact Hnd.
           fold (learned lib (<[NumID ctl := value]> last) r controls).
           rewrite (insert_id last _ _ Hl). reflexivity.
        -- apply Z.eqb_neq in E.
           rewrite bool_decide_eq_false_2 by congruence. cbn [negb].
           rewrite IH by exact Hnd.
           fold (learned lib (<[NumID ctl := value]> last) r controls).
           rewrite Hrest.
           cbn [map]. rewrite <- app_assoc. reflexivity.
      * rewrite bool_decide_eq_false_2 by discriminate. cbn [negb].
        rewrite IH by exact Hnd.
        fold (learned lib (<[NumID ctl := value]> last) r controls).
        rewrite Hrest.
        cbn [map]. rewrite <- app_assoc. reflexivity.
    + rewrite IH by exact Hnd. reflexivity.
Qed.

Lemma deliver_app {S : Type} (callback : Registry lib -> S -> S * option Error)
    (events later : list (Registry lib)) (s : S) :
  deliver lib callback (events ++ later) s
  = match deliver lib callback events s with
    | (s', Some e) => (s', Some e)
    | (s', None) => deliver lib callback later s'
    end.
Proof.
  revert s; induction events as [|r events IH]; intros s; [reflexivity|].
  cbn [app deliver]. destruct (callback r s) as [s' [e|]]; [reflexivity|].
  apply IH.
Qed.

(** One event handled by the closure of [WatchControls] around the
    callback of [WatchWithDisplay], for any control list. *)
Lemma checkControls_contributions (controls : list Control)
    (r : Registry lib) (last : gmap Z Z) (printed : list OutputLine) :
  checkControls lib (displayChange lib) controls r (last, printed)
  = ((learned lib last r controls,
      printed ++ concat (contributions lib last r controls)), None).
Proof.
  revert last printed; induction controls as [|ctl controls IH];
    intros last printed.
  - cbn. now rewrite app_nil_r.
  - cbn [checkControls learned fold_left contributions].
    destruct (GetValue lib ctl r) as [value|e] eqn:Hv; [|apply IH].
    unfold displayChange.
    assert (Hsame : match last !! NumID ctl with
                    | Some lastValue => lastValue =? value
                    | None => false
                    end = bool_decide (last !! NumID ctl = Some value)).
    { destruct (last !! NumID ctl) as [lastValue|].
      - destruct (Z.eqb_spec lastValue value) as [->|Hne].
        + now rewrite bool_decide_eq_true_2.
        + rewrite bool_decide_eq_false_2; [reflexivity|congruence].
      - now rewrite bool_decide_eq_false_2. }
    rewrite Hsame.
    destruct (bool_decide (last !! NumID ctl = Some value)) eqn:E.
    + apply bool_decide_eq_true in E.
      rewrite IH. fold (learned lib (<[NumID ctl := value]> last) r controls).
      now rewrite (insert_id last _ _ E).
    + rewrite IH. fold (learned lib (<[NumID ctl := value]> last) r controls).
      assert (Htext : slotText lib ctl r = valueString ctl value)
        by (unfold slotText, GetValueString; now rewrite Hv).
      rewrite Htext. cbn [concat]. now rewrite <- app_assoc.
Qed.

Lemma contributions_length last (r : Registry lib) controls :
  length (contributions lib last r controls) = length controls.
Proof.
  revert last; induction controls as [|ctl controls IH]; intros last;
    [reflexivity|].
  cbn [contributions]. destruct (GetValue lib ctl r) as [value|e];
    [destruct (bool_decide _)|]; cbn [length]; now rewrite IH.
Qed.

Lemma contributions_short last (r : Registry lib) controls :
  Forall (fun out => (length out <= 1)%nat) (contributions lib last r controls).
Proof.
  revert last; induction controls as [|ctl controls IH]; intros last;
    [constructor|].
  cbn [contributions]. destruct (GetValue lib ctl r) as [value|e];
    [destruct (bool_decide _)|]; constructor; cbn; auto; lia.
Qed.

(** A control that cannot be read contributes no line. *)
Lemma contributions_unreadable last (r : Registry lib) pre ctl post e :
  GetValue lib ctl r = Err e ->
  nth_error (contributions lib last r (pre ++ ctl :: post)) (length pre)
  = Some [].
Proof.
  intros Hv. revert last; induction pre as [|c0 pre IH]; intros last.
  - cbn. now rewrite Hv.
  - cbn [app contributions length]. destruct (GetValue lib c0 r) as [v0|e0];
      [destruct (bool_decide _)|]; cbn [nth_error]; apply IH.
Qed.

(** A control whose [NumID] no earlier control of the list has
    contributes a line exactly when the table does not hold its value. *)
Lemma contributions_unshared last (r : Registry lib) pre ctl post value :
  ~ In (NumID ctl) (map NumID pre) ->
  GetValue lib ctl r = Ok value ->
  nth_error (contributions lib last r (pre ++ ctl :: post)) (length pre)
  = Some (if bool_decide (last !! NumID ctl = Some value) then []
          else [LineChange (Name ctl) (valueString ctl value)]).
Proof.
  intros Hpre Hv. revert last Hpre; induction pre as [|c0 pre IH];
    intros last Hpre.
  - cbn. rewrite Hv. now destruct (bool_decide _).
  - cbn [map] in Hpre.
    assert (Hne : NumID c0 <> NumID ctl) by (intros E; apply Hpre; now left).
    assert (Hpre' : ~ In (NumID ctl) (map NumID pre))
      by (intros H; apply Hpre; now right).
    cbn [app contributions length]. destruct (GetValue lib c0 r) as [v0|e0];
      [destruct (bool_decide (last !! NumID c0 = Some v0))|];
      cbn [nth_error]; rewrite IH by exact Hpre'; try reflexivity.
    now rewrite lookup_insert_ne.
Qed.

(** After an event the table holds the value read for a control whose
    [NumID] no later control of the list has. *)
Lemma learned_unshared last (r : Registry lib) pre ctl post value :
  ~ In (NumID ctl) (map NumID post) ->
  GetValue lib ctl r = Ok value ->
  learned lib last r (pre ++ ctl :: post) !! NumID ctl = Some value.
Proof.
  intros Hpost Hv. unfold learned. rewrite fold_left_app. cbn [fold_left].
  rewrite Hv.
  match goal with
  | |- fold_left ?f post ?m !! _ = _ => change (fold_left f post m)
                                        with (learned lib m r post)
  end.
  rewrite learned_other by exact Hpost. apply lookup_insert_eq.
Qed.

(** The callback of [WatchWithDisplay] never fails. *)
Lemma deliver_displayChange controls (events : list (Registry lib)) s :
  exists table printed,
    deliver lib (checkControls lib (displayChange lib) controls) events s
    = ((table, printed), None).
Proof.
  revert s; induction events as [|r events IH]; intros [last printed].
  - cbn. eauto.
  - cbn [deliver]. rewrite checkControls_contributions. apply IH.
Qed.

End Monitor.

Lemma NoDup_map_NumID (controls : list Control) :
  NoDup (map NumID controls) -> NoDup controls.
Proof.
  induction controls as [|ctl controls IH]; simpl; intros H; [constructor|].
  apply NoDup_cons in H as [Hfresh H]. apply NoDup_cons. split; [|auto].
  intros Hin. apply Hfresh.
  apply list_elem_of_In, in_map, list_elem_of_In, Hin.
Qed.

Lemma NoDup_List_filter {A} (f : A -> bool) (l : list A) :
  NoDup l -> NoDup (List.filter f l).
Proof.
  induction l as [|x l IH]; simpl; intros H; [constructor|].
  apply NoDup_cons in H as [Hfresh H].
  destruct (f x); [|auto].
  apply NoDup_cons. split; [|auto].
  rewrite list_elem_of_In, filter_In, <- list_elem_of_In. tauto.
Qed.

(** C2, as far as it holds by design. The control list is fetched once,
    when watching starts, and not again. On each event every control of
    that list is read in order; each control gives at most one line; a
    control that cannot be read is skipped. For a control whose [NumID]
    no other control of the list shares and that is read on two events
    in succession, a line is printed on the second exactly when the
    value differs from the one read on the first, and the table
    [lastUpdate] then holds the new value. This holds after any run of
    earlier events, and whatever other controls the list holds. *)
Theorem WatchWithDisplay_reports_changes (lib : AlsaLib)
    (enumerateControls : alsaHandle -> Registry lib -> result (list Control))
    (c : Card) (r0 : Registry lib) (events : list (Registry lib))
    (r1 r2 : Registry lib) (controls : list Control) :
  GetControls lib enumerateControls c r0 = Ok controls ->
  (exists h, handle c = Some h /\ pollFds h <> []) ->
  exists (table0 table1 table2 : gmap Z Z) (lines0 : list OutputLine)
         (outs1 outs2 : list (list OutputLine)),
    WatchWithDisplay lib enumerateControls c r0 events
    = ((table0, lines0), None)
    /\ WatchWithDisplay lib enumerateControls c r0 (events ++ [r1])
       = ((table1, lines0 ++ concat outs1), None)
    /\ WatchWithDisplay lib enumerateControls c r0 (events ++ [r1; r2])
       = ((table2, lines0 ++ concat outs1 ++ concat outs2), None)
    /\ length outs1 = length controls
    /\ length outs2 = length controls
    /\ Forall (fun out => (length out <= 1)%nat) (outs1 ++ outs2)
    /\ (forall pre ctl post,
          controls = pre ++ ctl :: post ->
          (forall e,
             GetValue lib ctl r1 = Err e ->
             nth_error outs1 (length pre) = Some [])
          /\ (forall e,
                GetValue lib ctl r2 = Err e ->
                nth_error outs2 (length pre) = Some [])
          /\ (forall value1 value2,
                ~ In (NumID ctl) (map NumID (pre ++ post)) ->
                GetValue lib ctl r1 = Ok value1 ->
                GetValue lib ctl r2 = Ok value2 ->
                nth_error outs2 (length pre)
                = Some (if value1 =? value2 then []
                        else [LineChange (Name ctl) (valueString ctl value2)])
                /\ table2 !! NumID ctl = Some value2)).
Proof.
  intros Hctl (h & Hh & Hfds).
  unfold WatchWithDisplay, WatchControls, Watch. rewrite Hctl, Hh.
  destruct (pollFds h) as [|fd fds]; [congruence|].
  rewrite !deliver_app.
  destruct (deliver_displayChange lib controls events (∅, []))
    as (table0 & lines0 & ->).
  cbn [deliver]. rewrite !checkControls_contributions.
  exists table0, (learned lib table0 r1 controls),
         (learned lib (learned lib table0 r1 controls) r2 controls),
         lines0, (contributions lib table0 r1 controls),
         (contributions lib (learned lib table0 r1 controls) r2 controls).
  split; [reflexivity|]. split; [reflexivity|].
  split; [now rewrite <- app_assoc|].
  split; [apply contributions_length|].
  split; [apply contributions_length|].
  split; [apply Forall_app; split; apply contributions_short|].
  intros pre ctl post ->.
  split; [|split].
  - intros e He. now apply (contributions_unreadable lib _ r1 pre ctl post e).
  - intros e He. now apply (contributions_unreadable lib _ r2 pre ctl post e).
  - intros value1 value2 Hunshared Hv1 Hv2.
    rewrite map_app, in_app_iff in Hunshared.
    assert (Hpre : ~ In (NumID ctl) (map NumID pre)) by tauto.
    assert (Hpost : ~ In (NumID ctl) (map NumID post)) by tauto.
    split; [|now apply learned_unshared].
    rewrite (contributions_unshared lib _ r2 pre ctl post value2 Hpre Hv2).
    rewrite (learned_unshared lib table0 r1 pre ctl post value1 Hpost Hv1).
    destruct (Z.eqb_spec value1 value2) as [->|Hne].
    + now rewrite bool_decide_eq_true_2.
    + rewrite bool_decide_eq_false_2; [reflexivity|congruence].
Qed.

Lemma WatchWithDisplay_reports_changes_witness :
  GetControls memLib (fun _ _ => Ok [masterLeft; masterRight; gain1]) card0
              (stereoAndGain 5)
  = Ok [masterLeft; masterRight; gain1]
  /\ (exists h, handle card0 = Some h /\ pollFds h <> [])
  /\ exists (table2 : gmap Z Z) (lines : list OutputLine)
            (outs2 : list (list OutputLine)),
       WatchWithDisplay memLib (fun _ _ => Ok [masterLeft; masterRight; gain1])
                        card0 (stereoAndGain 5)
                        ([stereoAndGain 5] ++ [stereoAndGain 5; stereoAndGain 6])
       = ((table2, lines ++ concat outs2), None)
       /\ nth_error outs2 2
          = Some [LineChange "Line In 1 Gain Capture Volume" "6"]
       /\ table2 !! 2 = Some 6.
Proof.
  assert (H1 : GetControls memLib
                 (fun _ _ => Ok [masterLeft; masterRight; gain1]) card0
                 (stereoAndGain 5)
               = Ok [masterLeft; masterRight; gain1]) by reflexivity.
  assert (H2 : exists h, handle card0 = Some h /\ pollFds h <> [])
    by (exists handle0; split; [reflexivity|discriminate]).
  split; [exact H1|]. split; [exact H2|].
  destruct (WatchWithDisplay_reports_changes memLib
              (fun _ _ => Ok [masterLeft; masterRight; gain1]) card0
              (stereoAndGain 5) [stereoAndGain 5]
              (stereoAndGain 5) (stereoAndGain 6)
              [masterLeft; masterRight; gain1] H1 H2)
    as (table0 & table1 & table2 & lines0 & outs1 & outs2
        & _ & _ & Hrun & _ & _ & _ & Hper).
  exists table2, (lines0 ++ concat outs1), outs2.
  split; [now rewrite <- app_assoc|].
  destruct (Hper [masterLeft; masterRight] gain1 [] eq_refl) as (_ & _ & Hgain).
  apply (Hgain 5 6); [|reflexivity|reflexivity].
  simpl. intros [H | [H | []]]; discriminate.
Defined.

(** C2 fails as stated: the control list is not fetched for each
    notification.  A control that appears after watching has started is
    in the element list at both events and its value changes between
    them, yet it is never read and no line is printed for it. *)
Lemma control_list_fetched_once :
  lateEnumerate handle0 (gainAndPhantom 0) = Ok [gain1; phantom1]
  /\ lateEnumerate handle0 (gainAndPhantom 1) = Ok [gain1; phantom1]
  /\ GetValue memLib phantom1 (gainAndPhantom 0) = Ok 0
  /\ GetValue memLib phantom1 (gainAndPhantom 1) = Ok 1
  /\ WatchWithDisplay memLib lateEnumerate card0 (gainAt 5)
                      [gainAndPhantom 0; gainAndPhantom 1]
     = (({[ 2 := 5 ]}, [LineChange "Line In 1 Gain Capture Volume" "5"]), None).
Proof. repeat split; vm_compute; reflexivity. Qed.

(** The first event after the start prints every readable control
    although no value has changed, where the callback is commented
    [only print if value changed]: the table is empty at the start. *)
Example first_sighting_is_reported :
  WatchWithDisplay memLib (fun _ _ => Ok [gain1]) card0 (gainAt 5) [gainAt 5]
  = (({[ 2 := 5 ]}, [LineChange "Line In 1 Gain Capture Volume" "5"]), None).
Proof. vm_compute. reflexivity. Qed.

(** Two values of one multi-valued element share a [NumID], hence a table
    entry: both are reported on every event although neither changes. *)
Example shared_NumID_reported_again :
  let r : Registry memLib := {[ 30 := {[ 0 := 10; 1 := 20 ]} ]} in
  snd (fst (WatchWithDisplay memLib (fun _ _ => Ok [masterLeft; masterRight])
                             card0 r [r; r]))
  = [LineChange "Master Playback Volume" "10";
     LineChange "Master Playback Volume" "20";
     LineChange "Master Playback Volume" "10";
     LineChange "Master Playback Volume" "20"].
Proof. vm_compute. reflexivity. Qed.

(** ** Bulk listings and unreadable controls *)

Section Listings.

Variable lib : AlsaLib.
Variable enumerateControls : alsaHandle -> Registry lib -> result (list Control).

Lemma printInputs_lines (inputs : list MixerInput) (currentMix : string)
    (r : Registry lib) :
  List.filter isInputLine (printInputs lib inputs currentMix r)
  = map (inputLine lib r) inputs.
Proof.
  revert currentMix; induction inputs as [|input inputs IH]; intros currentMix;
    [reflexivity|].
  cbn [printInputs map]. rewrite List.filter_app. cbn [List.filter].
  rewrite IH. fold (inputLine lib r input).
  assert (Hline : isInputLine (inputLine lib r input) = true)
    by (unfold inputLine; now destruct (GetValue _ _ _)).
  rewrite Hline.
  destruct (negb (MixName input =? currentMix)%string); [|reflexivity].
  destruct (negb (currentMix =? "")%string); reflexivity.
Qed.

Lemma printChannel_slot (slot : Slot) (ch : PreampChannel) (r : Registry lib) :
  incl (printSlot lib slot (slotField slot ch) r) (printChannel lib ch r).
Proof.
  intros line Hin. unfold printChannel. right.
  repeat rewrite in_app_iff. destruct slot; simpl in Hin; tauto.
Qed.

Lemma slotText_unreadable (ctl : Control) (r : Registry lib) (e : Error) :
  GetValue lib ctl r = Err e -> slotText lib ctl r = "".
Proof. intros H. unfold slotText, GetValueString. now rewrite H. Qed.

Lemma routingFrom_abort (pre post : list RoutingSink) (sink : RoutingSink)
    (routing : gmap string Z) (r : Registry lib) (e : Error) :
  Forall (fun s => readable lib r (sink_Control s)) pre ->
  GetValue lib (sink_Control sink) r = Err e ->
  routingFrom lib (pre ++ sink :: post) routing r
  = Err (ErrReadRouting (sink_Name sink) e).
Proof.
  intros Hpre Hsink. revert routing.
  induction Hpre as [|s pre [value Hs] _ IH]; intros routing; simpl.
  - now rewrite Hsink.
  - rewrite Hs. apply IH.
Qed.

Lemma routingFrom_complete (sinks : list RoutingSink)
    (routing : gmap string Z) (r : Registry lib) :
  Forall (fun s => readable lib r (sink_Control s)) sinks ->
  exists routing',
    routingFrom lib sinks routing r = Ok routing'
    /\ (forall name, is_Some (routing !! name) -> is_Some (routing' !! name))
    /\ (forall s, In s sinks -> is_Some (routing' !! sink_Name s)).
Proof.
  intros Hall. revert routing.
  induction Hall as [|s sinks [value Hs] _ IH]; intros routing; simpl.
  - exists routing. split; [reflexivity|]. split; [auto|]. intros s [].
  - rewrite Hs.
    destruct (IH (<[sink_Name s := value]> routing))
      as (routing' & Hok & Hkeep & Hnew).
    exists routing'. split; [exact Hok|]. split.
    + intros name Hname. apply Hkeep.
      destruct (decide (sink_Name s = name)) as [->|Hne].
      * rewrite lookup_insert_eq. eauto.
      * now rewrite lookup_insert_ne.
    + intros s' [<- | Hin]; [|now apply Hnew].
      apply Hkeep. rewrite lookup_insert_eq. eauto.
Qed.

(** C4, as far as it holds. The mixer-state and the preamp-state
    listings go past a control that cannot be read: [PrintMixerState]
    prints one line for every mixer input, an error line for an unreadable
    one, and [PrintPreampState] prints the heading of every channel and
    a line for every populated slot of every channel, with the displayed
    value for a readable control and with an empty value for an
    unreadable one; both return no error.  The routing-configuration
    listing [GetRouting] returns the map only when every sink can be
    read: at the first sink that cannot, it returns an error that names
    the sink, and no map. *)
Theorem bulk_listings_on_read_failure (c : Card) (r : Registry lib) :
  (forall inputs,
     GetMixerInputs lib enumerateControls c r = Ok inputs ->
     snd (PrintMixerState lib enumerateControls c r) = None
     /\ List.filter isInputLine (fst (PrintMixerState lib enumerateControls c r))
        = map (inputLine lib r) inputs)
  /\ (forall channels,
        GetPreampChannels lib enumerateControls c r = Ok channels ->
        snd (PrintPreampState lib enumerateControls c r) = None
        /\ forall ch,
             In ch channels ->
             In (LineChannelHeading (ChannelNum ch))
                (fst (PrintPreampState lib enumerateControls c r))
             /\ (forall slot ctl value,
                   slotField slot ch = Some ctl ->
                   GetValue lib ctl r = Ok value ->
                   In (slotLine slot ctl (valueString ctl value))
                      (fst (PrintPreampState lib enumerateControls c r)))
             /\ (forall slot ctl e,
                   slotField slot ch = Some ctl ->
                   GetValue lib ctl r = Err e ->
                   In (slotLine slot ctl "")
                      (fst (PrintPreampState lib enumerateControls c r))))
  /\ (forall sinks,
        GetRoutingSinks lib enumerateControls c r = Ok sinks ->
        (forall pre sink post e,
           sinks = pre ++ sink :: post ->
           Forall (fun s => readable lib r (sink_Control s)) pre ->
           GetValue lib (sink_Control sink) r = Err e ->
           GetRouting lib enumerateControls c r
           = Err (ErrReadRouting (sink_Name sink) e))
        /\ (Forall (fun s => readable lib r (sink_Control s)) sinks ->
            exists routing,
              GetRouting lib enumerateControls c r = Ok routing
              /\ forall s, In s sinks -> is_Some (routing !! sink_Name s))).
Proof.
  split; [|split].
  - intros inputs Hin. unfold PrintMixerState. rewrite Hin.
    destruct inputs as [|input inputs]; [split; reflexivity|].
    split; [reflexivity|].
    cbn [fst List.filter isInputLine]. apply printInputs_lines.
  - intros channels Hch. unfold PrintPreampState. rewrite Hch.
    destruct channels as [|ch0 channels]; [split; [reflexivity|intros ? []]|].
    split; [reflexivity|].
    intros ch Hin. cbn [fst].
    assert (Hch' : forall line, In line (printChannel lib ch r) ->
              In line (LinePreampBanner
                       :: concat (map (fun ch => printChannel lib ch r)
                                      (ch0 :: channels)))).
    { intros line Hline. right. apply in_concat.
      exists (printChannel lib ch r). split; [|exact Hline].
      now apply (in_map (fun ch => printChannel lib ch r)). }
    assert (Hslot : forall slot ctl text,
              slotField slot ch = Some ctl -> slotText lib ctl r = text ->
              In (slotLine slot ctl text) (printChannel lib ch r)).
    { intros slot ctl text Hfield <-.
      apply (printChannel_slot slot). rewrite Hfield.
      destruct slot; now left. }
    split; [apply Hch'; now left|]. split.
    + intros slot ctl value Hfield Hv. apply Hch', Hslot; [exact Hfield|].
      unfold slotText, GetValueString. now rewrite Hv.
    + intros slot ctl e Hfield Hv. apply Hch', Hslot; [exact Hfield|].
      now apply (slotText_unreadable ctl r e).
  - intros sinks Hsinks. unfold GetRouting. rewrite Hsinks. split.
    + intros pre sink post e -> Hpre Hsink. now apply routingFrom_abort.
    + intros Hall.
      destruct (routingFrom_complete sinks ∅ r Hall) as (routing & Hok & _ & Hnew).
      exists routing. split; [exact Hok|exact Hnew].
Qed.

End Listings.

Lemma bulk_listings_on_read_failure_witness :
  List.filter isInputLine
    (fst (PrintMixerState memLib (fun _ _ => Ok [mixA01_gen234; mixA01_gen1])
                          card0 secondInputOnly))
  = [LineMixerInputError 1 (ErrAlsa (-2) "read control");
     LineMixerInput 1 7 0 255]
  /\ In (LineGain "" 0 70)
        (fst (PrintPreampState memLib (fun _ _ => Ok [gain1; phantom1]) card0
                               phantomOnly))
  /\ In (LineSlot SlotPhantom "On")
        (fst (PrintPreampState memLib (fun _ _ => Ok [gain1; phantom1]) card0
                               phantomOnly))
  /\ snd (PrintPreampState memLib (fun _ _ => Ok [gain1; phantom1]) card0
                           phantomOnly) = None
  /\ GetRouting memLib (fun _ _ => Ok threeSinks) card0 secondMissing
     = Err (ErrReadRouting "PCM 02 Capture Enum" (ErrAlsa (-2) "read control")).
Proof.
  destruct (bulk_listings_on_read_failure memLib
              (fun _ _ => Ok [mixA01_gen234; mixA01_gen1]) card0
              secondInputOnly) as (Hmixer & _ & _).
  destruct (bulk_listings_on_read_failure memLib
              (fun _ _ => Ok [gain1; phantom1]) card0 phantomOnly)
    as (_ & Hpreamp & _).
  destruct (bulk_listings_on_read_failure memLib (fun _ _ => Ok threeSinks)
              card0 secondMissing) as (_ & _ & Hrouting).
  split; [|split; [|split; [|split]]].
  - exact (proj2 (Hmixer [mkMixerInput "Mix A" 1 mixA01_gen234;
                          mkMixerInput "Mix A" 1 mixA01_gen1] eq_refl)).
  - destruct (Hpreamp
                [mkPreamp 1 (Some gain1) (Some phantom1)
                          None None None None None None None] eq_refl)
      as [_ Hlines].
    destruct (Hlines _ (or_introl eq_refl)) as (_ & _ & Hunreadable).
    exact (Hunreadable SlotGain gain1 (ErrAlsa (-2) "read control")
                       eq_refl eq_refl).
  - destruct (Hpreamp
                [mkPreamp 1 (Some gain1) (Some phantom1)
                          None None None None None None None] eq_refl)
      as [_ Hlines].
    destruct (Hlines _ (or_introl eq_refl)) as (_ & Hreadable & _).
    exact (Hreadable SlotPhantom phantom1 1 eq_refl eq_refl).
  - exact (proj1 (Hpreamp
                    [mkPreamp 1 (Some gain1) (Some phantom1)
                              None None None None None None None] eq_refl)).
  - destruct (Hrouting (sinksFrom 0 threeSinks) eq_refl) as [Habort _].
    apply (Habort [mkSink 0 "PCM 01 Capture Enum" PortCategoryPCM 1
                          (pcmSink 41 "PCM 01 Capture Enum")]
                  (mkSink 1 "PCM 02 Capture Enum" PortCategoryPCM 2
                          (pcmSink 42 "PCM 02 Capture Enum"))
                  [mkSink 2 "PCM 03 Capture Enum" PortCategoryPCM 3
                          (pcmSink 43 "PCM 03 Capture Enum")]).
    + reflexivity.
    + constructor; [|constructor]. exists 1. reflexivity.
    + reflexivity.
Defined.

(** C4 fails as stated: the routing-configuration listing does not skip
    the unreadable second sink and go on; it returns an error and no
    map, although the first and the third sink can be read. *)
Lemma GetRouting_aborts_on_unreadable_sink :
  GetRouting memLib (fun _ _ => Ok threeSinks) card0 secondMissing
  = Err (ErrReadRouting "PCM 02 Capture Enum" (ErrAlsa (-2) "read control"))
  /\ GetValue memLib (pcmSink 41 "PCM 01 Capture Enum") secondMissing = Ok 1
  /\ GetValue memLib (pcmSink 43 "PCM 03 Capture Enum") secondMissing = Ok 2.
Proof. repeat split; vm_compute; reflexivity. Qed.

(** The mixer listing on an unreadable input: an error line, then the
    next input. *)
Example PrintMixerState_goes_on :
  PrintMixerState memLib (fun _ _ => Ok [mixA01_gen234; mixA01_gen1]) card0
                  {[ 11 := {[ 0 := 7 ]} ]}
  = ([LineMixerBanner; LineMixHeading "Mix A";
      LineMixerInputError 1 (ErrAlsa (-2) "read control");
      LineMixerInput 1 7 0 255], None).
Proof. vm_compute. reflexivity. Qed.

(** ** Worked examples *)

Example source_names :
  parseRoutingSourceName "Off" = Returns (PortCategoryOff, 0)
  /\ parseRoutingSourceName "Mix B" = Returns (PortCategoryMix, 1)
  /\ parseRoutingSourceName "PCM 1" = Returns (PortCategoryPCM, 0)
  /\ parseRoutingSourceName "DSP 2" = Returns (PortCategoryDSP, 1)
  /\ parseRoutingSourceName "Analogue 3" = Returns (PortCategoryHW, 2)
  /\ parseRoutingSourceName "Talkback" = Returns (PortCategoryOff, 0).
Proof. repeat split; reflexivity. Qed.

Example sink_names :
  isRoutingSink "PCM 01 Capture Enum" = true
  /\ isRoutingSink "Line In 1 Level Capture Enum Switch" = false
  /\ parseRoutingSinkName "PCM 01 Capture Enum" = (PortCategoryPCM, 1)
  /\ parseRoutingSinkName "Mixer Input 07 Capture Enum" = (PortCategoryMix, 7)
  /\ parseRoutingSinkName "S/PDIF Output 02 Playback Enum" = (PortCategoryHW, 2)
  /\ parseRoutingSinkName "Input Source 03 Capture Route" = (PortCategoryOff, 0).
Proof. repeat split; reflexivity. Qed.

Example phantom_of_channel_1 :
  preampChannelsOf [phantom1; gain1]
  = [mkPreamp 1 (Some gain1) (Some phantom1) None None None None None None None].
Proof. vm_compute. reflexivity. Qed.

Example stereo_link_names :
  matchSlot slotPatterns "Line In 1-2 Phantom Power Capture Switch"
  = Some (SlotPhantom, 1)
  /\ matchSlot slotPatterns "Line In 3-4 Link Capture Switch" = Some (SlotLink, 3)
  /\ matchSlot slotPatterns "Line In 3 Link Capture Switch" = None.
Proof. repeat split; reflexivity. Qed.

Example boolean_texts {U : UnicodeTables} :
  SetValueByString_plan phantom1 "YES" = CallWrite handle0 1
  /\ SetValueByString_plan phantom1 "Off" = CallWrite handle0 0
  /\ SetValueByString_plan phantom1 "2" = Refuse (ErrInvalidBoolean "2")
  /\ valueString phantom1 7 = "On".
Proof. repeat split; reflexivity. Qed.

Example enumerated_texts {U : UnicodeTables} :
  SetValueByString_plan enum5 "analogue 2" = CallWrite handle0 2
  /\ SetValueByString_plan enum5 "4" = CallWrite handle0 4
  /\ SetValueByString_plan enum5 "5" = Refuse (ErrEnumRange 5 4)
  /\ SetValueByString_plan enum5 "Line"
     = Refuse (ErrInvalidEnum "Line" (Items enum5))
  /\ valueString enum5 9 = "Unknown(9)".
Proof. repeat split; reflexivity. Qed.

Example write_then_read :
  let r : Registry memLib := {[ 2 := {[ 0 := 5 ]} ]} in
  SetValue memLib gain1 71 r = (r, Some (ErrValueRange 71 0 70))
  /\ GetValue memLib gain1 (fst (SetValue memLib gain1 40 r)) = Ok 40.
Proof. split; vm_compute; reflexivity. Qed.

(** Text outside the ASCII range: the scanner skips Unicode white space
    in front of a number, and lower case and folding follow the tables
    of package [unicode]. *)
Example scan_skips_unicode_space :
  Sscanf_d (no_break_space +:+ "1") = Some 1
  /\ Sscanf_d (bytes [226; 128; 139] +:+ "1") = None.
Proof. split; reflexivity. Qed.

Example ToLower_follows_tables {U : UnicodeTables} :
  unicode_ToLower 201 = 233 ->
  ToLower (E_acute +:+ "GAL") = e_acute +:+ "gal".
Proof.
  intros H.
  assert (Hl : lowerRune 201 = 233).
  { unfold lowerRune. change (201 <=? 127) with false. exact H. }
  unfold ToLower.
  change (isASCII (E_acute +:+ "GAL")) with false. cbv iota.
  unfold Map.
  change (runes (E_acute +:+ "GAL")) with [201; 71; 65; 76].
  cbn [fold_right]. rewrite !Hl. reflexivity.
Qed.

Example EqualFold_follows_tables {U : UnicodeTables} :
  unicode_folds 201 233 = true ->
  EqualFold (E_acute +:+ "t" +:+ e_acute) (e_acute +:+ "T" +:+ E_acute) = true
  /\ find_item 0 [E_acute; e_acute] e_acute = Some 0.
Proof.
  intros H.
  assert (Hfold : foldRune 201 233 = true /\ foldRune 233 201 = true).
  { unfold foldRune.
    change (201 =? 233) with false. change (233 =? 201) with false.
    cbv iota. change (Z.min 201 233) with 201. change (Z.max 201 233) with 233.
    change (Z.min 233 201) with 201. change (Z.max 233 201) with 233.
    cbv zeta. change (233 <? 128) with false. cbv iota. now rewrite H. }
  destruct Hfold as [H1 H2]. split.
  - change (EqualFold (E_acute +:+ "t" +:+ e_acute)
                      (e_acute +:+ "T" +:+ E_acute))
      with (foldRune 201 233 && (foldRune 116 84 && (foldRune 233 201 && true))).
    rewrite H1, H2. reflexivity.
  - change (find_item 0 [E_acute; e_acute] e_acute)
      with (if foldRune 201 233 && true then Some 0
            else find_item (0 + 1) [e_acute] e_acute).
    now rewrite H1.
Qed.

(** * Further properties *)

(** ** Control value coercion, continued *)

Lemma Sscanf_d_format_d (v : Z) :
  minInt64 <= v <= maxInt64 -> Sscanf_d (format_d v) = Some v.
Proof.
  intros Hv. unfold format_d. destruct (v <? 0) eqn:E.
  - destruct (digits_of_spec (- v)) as (Hne & Hd & Hval); [lia|].
    unfold Sscanf_d.
    change (skip_blank (String "-" (digits_of (- v))))
      with (String "-" (digits_of (- v))).
    cbv beta iota. rewrite (span_all _ _ Hd).
    destruct (digits_of (- v)) as [|c ds] eqn:Eds; [congruence|].
    cbv beta iota.
    change ("-" +:+ String c ds) with (String "-" (String c ds)).
    unfold ParseInt. cbv beta iota. rewrite Hd, Hval.
    replace (fits_int64 (- - v)) with true.
    + f_equal; lia.
    + symmetry. unfold fits_int64. apply andb_true_iff; split; lia.
  - destruct (digits_of_spec v) as (Hne & Hd & Hval); [lia|].
    rewrite (Sscanf_d_digits _ Hne Hd), Hval.
    replace (fits_int64 v) with true; [reflexivity|].
    symmetry. unfold fits_int64. apply andb_true_iff; split; lia.
Qed.

(** X1. The display of an integer value parses back to it: for an integer
    or integer64 control of an open card and a value within [Min, Max],
    [SetValueByString] on the text shown by [GetValueString] writes that
    value. *)
Theorem integer_display_round_trip {U : UnicodeTables}
    (ctl : Control) (h : alsaHandle) (value : Z) :
  open_handle ctl = Some h ->
  Type_ ctl = ControlTypeInteger \/ Type_ ctl = ControlTypeInteger64 ->
  minInt64 <= value <= maxInt64 ->
  Min ctl <= value <= Max ctl ->
  SetValueByString_plan ctl (valueString ctl value) = CallWrite h value.
Proof.
  intros Hh Hty Hfit Hrange.
  assert (Hplan : SetValue_plan ctl value = CallWrite h value).
  { destruct (SetValue_plan_bounded ctl h value Hh) as [[_ H] | [Hout _]];
      [tauto|exact H|].
    exfalso. apply Hout. unfold within_bounds.
    destruct Hty as [-> | ->]; exact Hrange. }
  unfold SetValueByString_plan, valueString.
  destruct Hty as [Hty | Hty]; rewrite Hty;
    rewrite (Sscanf_d_format_d value Hfit); exact Hplan.
Qed.

Lemma integer_display_round_trip_witness :
  open_handle gain1 = Some handle0
  /\ Min gain1 <= 42 <= Max gain1
  /\ SetValueByString_plan (U := asciiTables) gain1 (valueString gain1 42) = CallWrite handle0 42.
Proof.
  assert (Hfit : minInt64 <= 42 <= maxInt64)
    by (unfold minInt64, maxInt64; lia).
  assert (Hrange : Min gain1 <= 42 <= Max gain1) by (simpl; lia).
  split; [reflexivity|]. split; [exact Hrange|].
  exact (integer_display_round_trip (U := asciiTables) gain1 handle0 42 eq_refl
           (or_introl eq_refl) Hfit Hrange).
Defined.

(** X2. Whatever text [SetValueByString] is given, the value it hands to
    the registry is within the bounds of the control, and for a boolean
    control it is 0 or 1; controls of the types none, bytes and iec958
    are never written through it. *)
Theorem SetValueByString_within_bounds {U : UnicodeTables}
    (ctl : Control) (s : string)
    (h : alsaHandle) (value : Z) :
  SetValueByString_plan ctl s = CallWrite h value ->
  open_handle ctl = Some h
  /\ within_bounds ctl value
  /\ (Type_ ctl = ControlTypeBoolean -> value = 0 \/ value = 1)
  /\ (Type_ ctl = ControlTypeBoolean \/ Type_ ctl = ControlTypeEnumerated
      \/ Type_ ctl = ControlTypeInteger \/ Type_ ctl = ControlTypeInteger64).
Proof.
  intros Hplan.
  assert (Hcall : forall v, SetValue_plan ctl v = CallWrite h value ->
            v = value /\ open_handle ctl = Some h /\ within_bounds ctl value).
  { intros v Hv.
    destruct (SetValue_plan_CallWrite _ _ _ _ Hv) as (-> & Hh & _).
    split; [reflexivity|]. split; [exact Hh|].
    unfold within_bounds.
    destruct (Type_ ctl) eqn:Hty; try exact I.
    - destruct (SetValue_plan_bounded ctl h v Hh) as [[Hin _] | [_ (e & _ & He)]];
        [tauto| |congruence].
      unfold within_bounds in Hin. now rewrite Hty in Hin.
    - destruct (SetValue_plan_bounded ctl h v Hh) as [[Hin _] | [_ (e & _ & He)]];
        [tauto| |congruence].
      unfold within_bounds in Hin. now rewrite Hty in Hin.
    - destruct (SetValue_plan_bounded ctl h v Hh) as [[Hin _] | [_ (e & _ & He)]];
        [tauto| |congruence].
      unfold within_bounds in Hin. now rewrite Hty in Hin. }
  unfold SetValueByString_plan in Hplan.
  destruct (Type_ ctl) eqn:Hty; try discriminate.
  - repeat match type of Hplan with
           | (if ?b then _ else _) = _ => destruct b
           end; try discriminate;
      destruct (Hcall _ Hplan) as (<- & Hh & Hin);
      (split; [exact Hh|]); (split; [exact Hin|]); split; auto.
  - destruct (Sscanf_d s) as [v|]; [|discriminate].
    destruct (Hcall _ Hplan) as (<- & Hh & Hin).
    split; [exact Hh|]. split; [exact Hin|]. split; [discriminate|auto].
  - destruct (find_item 0 (Items ctl) s) as [i|].
    + destruct (Hcall _ Hplan) as (<- & Hh & Hin).
      split; [exact Hh|]. split; [exact Hin|]. split; [discriminate|auto].
    + destruct (Sscanf_d s) as [v|]; [|discriminate].
      destruct (Hcall _ Hplan) as (<- & Hh & Hin).
      split; [exact Hh|]. split; [exact Hin|]. split; [discriminate|auto].
  - destruct (Sscanf_d s) as [v|]; [|discriminate].
    destruct (Hcall _ Hplan) as (<- & Hh & Hin).
    split; [exact Hh|]. split; [exact Hin|]. split; [discriminate|auto].
Qed.

Lemma SetValueByString_within_bounds_witness :
  SetValueByString_plan (U := asciiTables) enum5 "pcm 1" = CallWrite handle0 4
  /\ within_bounds enum5 4.
Proof.
  assert (H : SetValueByString_plan (U := asciiTables) enum5 "pcm 1" = CallWrite handle0 4)
    by reflexivity.
  split; [exact H|].
  exact (proj1 (proj2 (SetValueByString_within_bounds (U := asciiTables) enum5 "pcm 1" handle0 4 H))).
Defined.

(** X3. A control of type none, bytes or iec958 can be neither read nor
    written: [GetValue] returns an error, [SetValue] returns an error and
    leaves the registry as it was, and [SetValueByString] refuses the
    text without touching the registry. *)
Theorem unsupported_types_untouched {U : UnicodeTables}
    (lib : AlsaLib) (ctl : Control)
    (value : Z) (s : string) (r : Registry lib) :
  Type_ ctl = ControlTypeNone \/ Type_ ctl = ControlTypeBytes
  \/ Type_ ctl = ControlTypeIEC958 ->
  (exists e, GetValue lib ctl r = Err e)
  /\ (exists e, SetValue lib ctl value r = (r, Some e))
  /\ SetValueByString lib ctl s r = (r, Some (ErrUnsupportedType (Type_ ctl))).
Proof.
  intros Hty.
  unfold GetValue, SetValue, SetValueByString, SetValue_plan,
    SetValueByString_plan, readControl.
  destruct (open_handle ctl) as [h|].
  - destruct Hty as [Hty | [Hty | Hty]]; rewrite Hty; simpl;
      unfold writeControl; rewrite Hty;
      destruct (snd_ctl_elem_read lib r (ptr h) (NumID ctl));
      repeat split; eauto.
  - destruct Hty as [Hty | [Hty | Hty]]; rewrite Hty; simpl;
      repeat split; eauto.
Qed.

Lemma unsupported_types_untouched_witness :
  let meter := mkControl 50 "Level Meter" ControlTypeBytes 1 0 (Some card0)
                         0 0 [] in
  Type_ meter = ControlTypeBytes
  /\ SetValueByString (U := asciiTables) memLib meter "1" (gainAt 5)
     = (gainAt 5, Some (ErrUnsupportedType ControlTypeBytes)).
Proof.
  intros meter. split; [reflexivity|].
  exact (proj2 (proj2 (unsupported_types_untouched (U := asciiTables) memLib meter 0 "1" (gainAt 5)
                         (or_intror (or_introl eq_refl))))).
Defined.

(** ** Routing, continued *)

Lemma ParseInt_digits (ds : string) :
  ds <> "" -> forallb_str is_digit ds = true ->
  ParseInt ds
  = if fits_int64 (digits_value ds) then Some (digits_value ds) else None.
Proof.
  intros Hne Hd. destruct ds as [|c ds]; [congruence|].
  pose proof Hd as Hd'. cbn [forallb_str] in Hd'.
  apply andb_true_iff in Hd' as [Hc _].
  unfold ParseInt.
  assert (Hsign : match String c ds with
                  | String "-" r => (true, r)
                  | String "+" r => (false, r)
                  | _ => (false, String c ds)
                  end = (false, String c ds)).
  { apply is_digit_cases in Hc. simpl in Hc.
    repeat (destruct Hc as [<- | Hc]; [reflexivity|]). destruct Hc. }
  rewrite Hsign, Hd. reflexivity.
Qed.

Lemma FindFirstString_skips (pre s : string) :
  forallb_str (fun c => negb (is_digit c)) pre = true ->
  FindFirstString digits1 (pre +:+ s) = FindFirstString digits1 s.
Proof.
  induction pre as [|c pre IH]; [reflexivity|].
  cbn [forallb_str]. intros H. apply andb_true_iff in H as [Hc Hpre].
  apply negb_true_iff in Hc.
  change (String c pre +:+ s) with (String c (pre +:+ s)).
  cbn [FindFirstString]. unfold match_here at 1, digits1 at 1.
  cbn [rmatch plus_try]. rewrite Hc. exact (IH Hpre).
Qed.

Lemma FindFirstString_none (s : string) :
  forallb_str (fun c => negb (is_digit c)) s = true ->
  FindFirstString digits1 s = None.
Proof.
  intros H. rewrite <- (append_nil_r s).
  rewrite (FindFirstString_skips s "" H). reflexivity.
Qed.

Lemma FindFirstString_run (ds rest : string) :
  ds <> "" -> forallb_str is_digit ds = true -> stops is_digit rest ->
  FindFirstString digits1 (ds +:+ rest) = Some ds.
Proof.
  intros Hne Hd Hstop.
  assert (H : match_here digits1 (ds +:+ rest) = Some [ds]).
  { unfold match_here, digits1. cbn [rmatch].
    erewrite plus_try_run;
      [reflexivity|exact Hne|exact Hd|exact Hstop|].
    cbv beta. now rewrite consumed_app. }
  destruct ds as [|c ds]; [congruence|].
  change (String c ds +:+ rest) with (String c (ds +:+ rest)) in *.
  cbn [FindFirstString]. now rewrite H.
Qed.

Lemma extractPortNumber_no_digit (s : string) :
  forallb_str (fun c => negb (is_digit c)) s = true -> extractPortNumber s = 0.
Proof.
  intros H. unfold extractPortNumber. now rewrite FindFirstString_none.
Qed.

(** X4. [extractPortNumber] returns the value of the first run of digits
    of the name, whatever follows it, and 0 when that run does not fit
    in 64 bits; on a name without a digit it returns 0. *)
Theorem extractPortNumber_first_run (pre ds rest : string) :
  forallb_str (fun c => negb (is_digit c)) pre = true ->
  ds <> "" -> forallb_str is_digit ds = true ->
  stops is_digit rest ->
  extractPortNumber (pre +:+ ds +:+ rest)
  = (if fits_int64 (digits_value ds) then digits_value ds else 0)
  /\ extractPortNumber pre = 0.
Proof.
  intros Hpre Hne Hd Hstop. split; [|now apply extractPortNumber_no_digit].
  unfold extractPortNumber.
  rewrite (FindFirstString_skips pre _ Hpre).
  rewrite (FindFirstString_run _ rest Hne Hd Hstop).
  unfold Atoi. rewrite (ParseInt_digits _ Hne Hd).
  now destruct (fits_int64 _).
Qed.

Lemma extractPortNumber_first_run_witness :
  extractPortNumber ("Analogue Output " +:+ "03" +:+ " Playback Enum 7") = 3
  /\ extractPortNumber "Analogue Output " = 0.
Proof.
  exact (extractPortNumber_first_run "Analogue Output " "03" " Playback Enum 7"
           eq_refl ltac:(discriminate) eq_refl eq_refl).
Defined.

Lemma sinksFrom_controls (i : Z) (controls : list Control) :
  map sink_Control (sinksFrom i controls) = List.filter isSinkControl controls.
Proof.
  revert i; induction controls as [|ctl controls IH]; intros i; [reflexivity|].
  cbn [sinksFrom List.filter]. destruct (isSinkControl ctl); [|apply IH].
  destruct (parseRoutingSinkName (Name ctl)). cbn [map sink_Control].
  now rewrite IH.
Qed.

Lemma sinksFrom_indices (i : Z) (controls : list Control) :
  map sink_Index (sinksFrom i controls)
  = seqZ i (Z.of_nat (length (sinksFrom i controls))).
Proof.
  revert i; induction controls as [|ctl controls IH]; intros i; [reflexivity|].
  cbn [sinksFrom]. destruct (isSinkControl ctl); [|apply IH].
  destruct (parseRoutingSinkName (Name ctl)).
  cbn [map sink_Index length]. rewrite IH.
  rewrite (seqZ_cons i) by lia. do 2 f_equal; lia.
Qed.

Lemma sinksFrom_names (i : Z) (controls : list Control) :
  Forall (fun sink =>
            sink_Name sink = Name (sink_Control sink)
            /\ (sink_Category sink, sink_PortNum sink)
               = parseRoutingSinkName (sink_Name sink))
         (sinksFrom i controls).
Proof.
  revert i; induction controls as [|ctl controls IH]; intros i; [constructor|].
  cbn [sinksFrom]. destruct (isSinkControl ctl); [|apply IH].
  destruct (parseRoutingSinkName (Name ctl)) eqn:E.
  constructor; [|apply IH]. simpl. now rewrite E.
Qed.

(** The sinks of a card, from its control list. *)
Lemma GetRoutingSinks_sinks (lib : AlsaLib)
    (enumerateControls : alsaHandle -> Registry lib -> result (list Control))
    (c : Card) (r : Registry lib) (controls : list Control) :
  GetControls lib enumerateControls c r = Ok controls ->
  (List.filter isSinkControl controls = [] <->
   GetRoutingSinks lib enumerateControls c r = Err ErrNoRoutingSinks)
  /\ forall sinks,
       GetRoutingSinks lib enumerateControls c r = Ok sinks ->
       map sink_Control sinks = List.filter isSinkControl controls
       /\ map sink_Index sinks = seqZ 0 (Z.of_nat (length sinks))
       /\ Forall (fun sink =>
                    sink_Name sink = Name (sink_Control sink)
                    /\ (sink_Category sink, sink_PortNum sink)
                       = parseRoutingSinkName (sink_Name sink)) sinks.
Proof.
  intros Hctl. unfold GetRoutingSinks. rewrite Hctl.
  pose proof (sinksFrom_controls 0 controls) as Hc.
  pose proof (sinksFrom_indices 0 controls) as Hi.
  pose proof (sinksFrom_names 0 controls) as Hn.
  destruct (sinksFrom 0 controls) as [|sink sinks] eqn:E.
  - split; [|discriminate]. split; [reflexivity|]. intros _. now rewrite <- Hc.
  - split.
    + split; [|discriminate]. intros H. rewrite H in Hc. discriminate.
    + intros sinks' [= <-]. auto.
Qed.

(** X5. [GetRoutingSinks] returns the enumerated controls that pass
    [isRoutingSink], in enumeration order, numbered 0, 1, 2, ... without
    gaps, each under the name of its control and classified by that
    name: it succeeds with that list whenever there is such a control,
    and fails with the no-sinks error when there is none. *)
Theorem GetRoutingSinks_spec (lib : AlsaLib)
    (enumerateControls : alsaHandle -> Registry lib -> result (list Control))
    (c : Card) (r : Registry lib) (controls : list Control) :
  GetControls lib enumerateControls c r = Ok controls ->
  (List.filter isSinkControl controls = [] ->
   GetRoutingSinks lib enumerateControls c r = Err ErrNoRoutingSinks)
  /\ (List.filter isSinkControl controls <> [] ->
      exists sinks,
        GetRoutingSinks lib enumerateControls c r = Ok sinks
        /\ map sink_Control sinks = List.filter isSinkControl controls
        /\ map sink_Index sinks = seqZ 0 (Z.of_nat (length sinks))
        /\ Forall (fun sink =>
                     sink_Name sink = Name (sink_Control sink)
                     /\ (sink_Category sink, sink_PortNum sink)
                        = parseRoutingSinkName (sink_Name sink)) sinks).
Proof.
  intros Hctl. unfold GetRoutingSinks. rewrite Hctl.
  pose proof (sinksFrom_controls 0 controls) as Hc.
  pose proof (sinksFrom_indices 0 controls) as Hi.
  pose proof (sinksFrom_names 0 controls) as Hn.
  destruct (sinksFrom 0 controls) as [|sink sinks] eqn:E.
  - split; [reflexivity|]. intros Hne. now rewrite <- Hc in Hne.
  - split.
    + intros H. rewrite H in Hc. discriminate.
    + intros _. exists (sink :: sinks). auto.
Qed.

Lemma GetRoutingSinks_spec_witness :
  GetControls memLib (fun _ _ => Ok (gain1 :: threeSinks)) card0 secondMissing
  = Ok (gain1 :: threeSinks)
  /\ exists sinks,
       GetRoutingSinks memLib (fun _ _ => Ok (gain1 :: threeSinks)) card0
                       secondMissing = Ok sinks
       /\ map sink_Control sinks = threeSinks.
Proof.
  assert (H : GetControls memLib (fun _ _ => Ok (gain1 :: threeSinks)) card0
                secondMissing = Ok (gain1 :: threeSinks)) by reflexivity.
  split; [exact H|].
  destruct (proj2 (GetRoutingSinks_spec memLib _ card0 secondMissing _ H))
    as (sinks & Hsinks & Hcontrols & _); [discriminate|].
  exists sinks. split; [exact Hsinks|exact Hcontrols].
Defined.

Lemma parseRoutingSourceName_Panics_inv (name : string) :
  parseRoutingSourceName name = Panics -> name = "Mix ".
Proof.
  unfold parseRoutingSourceName.
  destruct (String.eqb name "Off"); [discriminate|].
  destruct (HasPrefix name "Mix ") eqn:E.
  - apply HasPrefix_iff in E as [rest ->].
    destruct rest as [|c rest]; [reflexivity|]. simpl. discriminate.
  - repeat match goal with
           | |- context [if ?b then _ else _] => destruct b
           end; discriminate.
Qed.

Lemma sourcesFrom_Panics_iff (i : Z) (items : list string) :
  sourcesFrom i items = Panics <-> In "Mix " items.
Proof.
  revert i; induction items as [|name items IH]; intros i; simpl.
  - split; [discriminate|tauto].
  - destruct (parseRoutingSourceName name) as [[category portNum]|] eqn:E.
    + destruct (sourcesFrom (i + 1) items) as [sources|] eqn:Es.
      * split; [discriminate|].
        intros [Heq | Hin]; [subst name; vm_compute in E; discriminate E|].
        apply (IH (i + 1)) in Hin. congruence.
      * split; [|reflexivity]. intros _. right. now apply (IH (i + 1)).
    + split; [|reflexivity]. intros _. left.
      now apply parseRoutingSourceName_Panics_inv.
Qed.

Lemma sourcesFrom_Returns (i : Z) (items : list string)
    (sources : list RoutingSource) :
  sourcesFrom i items = Returns sources ->
  map src_Name sources = items
  /\ map src_ID sources = seqZ i (len items)
  /\ Forall (fun src => parseRoutingSourceName (src_Name src)
                        = Returns (src_Category src, src_PortNum src)) sources.
Proof.
  revert i sources; induction items as [|name items IH]; intros i sources; simpl.
  - intros [= <-]. repeat split; constructor.
  - destruct (parseRoutingSourceName name) as [[category portNum]|] eqn:E;
      [|discriminate].
    destruct (sourcesFrom (i + 1) items) as [rest|] eqn:Es; [|discriminate].
    intros [= <-]. destruct (IH _ _ Es) as (Hn & Hi & Hc).
    cbn [map src_Name src_ID]. rewrite Hn, Hi. split; [reflexivity|]. split.
    + unfold len. cbn [length]. rewrite (seqZ_cons i) by lia.
      do 2 f_equal; lia.
    + constructor; [exact E|exact Hc].
Qed.

Lemma sourcesFrom_hardware (i : Z) (items : list string)
    (sources : list RoutingSource) :
  sourcesFrom i items = Returns sources ->
  Forall (fun src => src_HardwareType src = hardwareTypeOf (src_Name src))
         sources.
Proof.
  revert i sources; induction items as [|name items IH]; intros i sources; simpl.
  - intros [= <-]. constructor.
  - destruct (parseRoutingSourceName name) as [[category portNum]|];
      [|discriminate].
    destruct (sourcesFrom (i + 1) items) as [rest|] eqn:Es; [|discriminate].
    intros [= <-]. constructor; [reflexivity|]. now apply (IH (i + 1)).
Qed.

(** X6. [GetRoutingSources] lists the items of the first routing sink
    control, in their order: when none of the items is "Mix " it returns
    one source for every item, the source at position [i] with [ID = i],
    the name of item [i], the category and port that
    [parseRoutingSourceName] gives for that name and the hardware type
    found in it.  When one of the items is "Mix " it panics. *)
Theorem GetRoutingSources_spec (lib : AlsaLib)
    (enumerateControls : alsaHandle -> Registry lib -> result (list Control))
    (c : Card) (r : Registry lib) (controls : list Control)
    (sinkControl : Control) :
  GetControls lib enumerateControls c r = Ok controls ->
  List.find isSinkControl controls = Some sinkControl ->
  (In "Mix " (Items sinkControl) ->
   GetRoutingSources lib enumerateControls c r = Panics)
  /\ (~ In "Mix " (Items sinkControl) ->
      exists sources,
        GetRoutingSources lib enumerateControls c r = Returns (Ok sources)
        /\ map src_Name sources = Items sinkControl
        /\ map src_ID sources = seqZ 0 (len (Items sinkControl))
        /\ Forall (fun src =>
                     parseRoutingSourceName (src_Name src)
                     = Returns (src_Category src, src_PortNum src)
                     /\ src_HardwareType src = hardwareTypeOf (src_Name src))
                  sources).
Proof.
  intros Hctl Hfind. unfold GetRoutingSources. rewrite Hctl, Hfind.
  pose proof (sourcesFrom_Panics_iff 0 (Items sinkControl)) as Hp.
  destruct (sourcesFrom 0 (Items sinkControl)) as [sources|] eqn:E.
  - split.
    + intros Hin. apply Hp in Hin. discriminate.
    + intros _. exists sources.
      destruct (sourcesFrom_Returns _ _ _ E) as (Hn & Hi & Hc).
      pose proof (sourcesFrom_hardware _ _ _ E) as Hh.
      split; [reflexivity|]. split; [exact Hn|]. split; [exact Hi|].
      rewrite Forall_forall in *. intros src Hsrc. split; auto.
  - split; [reflexivity|]. intros Hnot. exfalso. apply Hnot. now apply Hp.
Qed.

Lemma GetRoutingSources_spec_witness :
  List.find isSinkControl threeSinks = Some (pcmSink 41 "PCM 01 Capture Enum")
  /\ exists sources,
       GetRoutingSources memLib (fun _ _ => Ok threeSinks) card0 secondMissing
       = Returns (Ok sources)
       /\ map src_Name sources
          = ["Off"; "Analogue 1"; "Analogue 2"; "Mix A"; "PCM 1"]
       /\ map src_ID sources = [0; 1; 2; 3; 4].
Proof.
  split; [reflexivity|].
  destruct (proj2 (GetRoutingSources_spec memLib (fun _ _ => Ok threeSinks)
                     card0 secondMissing threeSinks
                     (pcmSink 41 "PCM 01 Capture Enum") eq_refl eq_refl))
    as (sources & Hsources & Hnames & Hids & _).
  - simpl. intros [H | [H | [H | [H | [H | []]]]]]; discriminate.
  - exists sources. split; [exact Hsources|]. split; [exact Hnames|exact Hids].
Defined.

Lemma sinks_are_sink_controls lib
    (enumerateControls : alsaHandle -> Registry lib -> result (list Control))
    (c : Card) (r : Registry lib) (controls : list Control)
    (sinks : list RoutingSink) (sink : RoutingSink) :
  GetControls lib enumerateControls c r = Ok controls ->
  GetRoutingSinks lib enumerateControls c r = Ok sinks ->
  In sink sinks ->
  In (sink_Control sink) controls
  /\ isSinkControl (sink_Control sink) = true
  /\ sink_Name sink = Name (sink_Control sink)
  /\ exists h, open_handle (sink_Control sink) = Some h.
Proof.
  intros Hctl Hsinks Hin.
  destruct (GetRoutingSinks_sinks lib enumerateControls c r controls Hctl)
    as [_ Hspec].
  destruct (Hspec sinks Hsinks) as (Hc & _ & Hn).
  assert (Hf : In (sink_Control sink) (List.filter isSinkControl controls))
    by (rewrite <- Hc; now apply in_map).
  apply filter_In in Hf as [Hin' Hsink].
  rewrite Forall_forall in Hn.
  split; [exact Hin'|]. split; [exact Hsink|].
  split; [apply (proj1 (Hn sink ltac:(now apply list_elem_of_In)))|].
  destruct (GetControls_open_handle lib enumerateControls c r controls _
              Hctl Hin') as (h & _ & Hh).
  eauto.
Qed.

(** X7. [SetRouting] changes the registry, or reports success, only for
    an enumerated routing sink control that has exactly the given name
    and a source ID that is an index of that control's item list; when no
    sink has the name it returns the not-found error and leaves the
    registry as it was. *)
Theorem SetRouting_only_valid (lib : AlsaLib)
    (enumerateControls : alsaHandle -> Registry lib -> result (list Control))
    (c : Card) (sinkName : string) (sourceID : Z) (r : Registry lib)
    (controls : list Control) :
  GetControls lib enumerateControls c r = Ok controls ->
  (fst (SetRouting lib enumerateControls c sinkName sourceID r) <> r
   \/ snd (SetRouting lib enumerateControls c sinkName sourceID r) = None ->
   exists ctl,
     In ctl controls /\ isSinkControl ctl = true /\ Name ctl = sinkName
     /\ 0 <= sourceID < len (Items ctl))
  /\ ((forall ctl, In ctl controls -> isSinkControl ctl = true ->
         Name ctl <> sinkName) ->
      List.filter isSinkControl controls <> [] ->
      SetRouting lib enumerateControls c sinkName sourceID r
      = (r, Some (ErrSinkNotFound sinkName))).
Proof.
  intros Hctl. unfold SetRouting.
  destruct (GetRoutingSinks lib enumerateControls c r) as [sinks|e] eqn:Hsinks.
  - unfold SetRouting_call.
    destruct (List.find _ sinks) as [sink|] eqn:Hfind.
    + apply find_some in Hfind as [Hin Hname].
      apply String.eqb_eq in Hname.
      destruct (sinks_are_sink_controls lib enumerateControls c r controls
                  sinks sink Hctl Hsinks Hin) as (Hin' & Hsink & Hn & h & Hh).
      split.
      * intros Hchg. exists (sink_Control sink).
        split; [exact Hin'|]. split; [exact Hsink|].
        split; [congruence|].
        assert (Hty : Type_ (sink_Control sink) = ControlTypeEnumerated).
        { unfold isSinkControl in Hsink.
          apply andb_true_iff in Hsink as [Hty _].
          now apply bool_decide_eq_true in Hty. }
        destruct (SetValue_plan_bounded (sink_Control sink) h sourceID Hh
                    (or_introl Hty)) as [[Hin2 _] | [_ (e & _ & Hplan)]].
        -- unfold within_bounds in Hin2. now rewrite Hty in Hin2.
        -- exfalso. cbn [run_call] in Hchg. unfold SetValue in Hchg.
           rewrite Hplan in Hchg. cbn in Hchg.
           destruct Hchg as [Hc | Hc]; [now apply Hc|discriminate].
      * intros Hnone _. exfalso.
        apply (Hnone (sink_Control sink) Hin' Hsink). congruence.
    + split.
      * cbn. intros [Hc | Hc]; [now contradiction Hc|discriminate].
      * reflexivity.
  - split.
    + cbn. intros [Hc | Hc]; [now contradiction Hc|discriminate].
    + intros _ Hne. exfalso.
      destruct (GetRoutingSinks_sinks lib enumerateControls c r controls Hctl)
        as [Hnone _].
      unfold GetRoutingSinks in Hsinks, Hnone. rewrite Hctl in Hsinks, Hnone.
      destruct (sinksFrom 0 controls); [|discriminate].
      apply Hne. now apply Hnone.
Qed.

Lemma SetRouting_only_valid_witness :
  GetControls memLib (fun _ _ => Ok threeSinks) card0 secondMissing = Ok threeSinks
  /\ snd (SetRouting memLib (fun _ _ => Ok threeSinks) card0
                     "PCM 03 Capture Enum" 4 secondMissing) = None
  /\ exists ctl,
       In ctl threeSinks /\ isSinkControl ctl = true
       /\ Name ctl = "PCM 03 Capture Enum" /\ 0 <= 4 < len (Items ctl).
Proof.
  assert (H : GetControls memLib (fun _ _ => Ok threeSinks) card0 secondMissing
              = Ok threeSinks) by reflexivity.
  assert (Hok : snd (SetRouting memLib (fun _ _ => Ok threeSinks) card0
                               "PCM 03 Capture Enum" 4 secondMissing) = None)
    by reflexivity.
  split; [exact H|]. split; [exact Hok|].
  exact (proj1 (SetRouting_only_valid memLib (fun _ _ => Ok threeSinks) card0
                  "PCM 03 Capture Enum" 4 secondMissing threeSinks H)
               (or_intror Hok)).
Defined.

Lemma routingFrom_entries lib (sinks : list RoutingSink)
    (routing routing' : gmap string Z) (r : Registry lib) :
  routingFrom lib sinks routing r = Ok routing' ->
  Forall (fun sink => exists v, GetValue lib (sink_Control sink) r = Ok v) sinks
  /\ forall name v,
       routing' !! name = Some v ->
       routing !! name = Some v
       \/ exists sink, In sink sinks /\ sink_Name sink = name
                       /\ GetValue lib (sink_Control sink) r = Ok v.
Proof.
  revert routing; induction sinks as [|sink sinks IH]; intros routing; simpl.
  - intros [= <-]. split; [constructor|auto].
  - destruct (GetValue lib (sink_Control sink) r) as [value|e] eqn:Hv;
      [|discriminate].
    intros H. destruct (IH _ H) as [Hall Hent]. split.
    + constructor; eauto.
    + intros name v Hl. destruct (Hent name v Hl) as [Hold | (s & Hin & Hn & Hs)].
      * destruct (decide (sink_Name sink = name)) as [<-|Hne].
        -- rewrite lookup_insert_eq in Hold. injection Hold as <-.
           right. exists sink. auto.
        -- rewrite lookup_insert_ne in Hold by exact Hne. now left.
      * right. exists s. auto.
Qed.

(** X8. When [GetRouting] returns a map, every sink could be read, the
    keys of the map are exactly the sink names, and the value under a
    key is the live value of a sink of that name. *)
Theorem GetRouting_entries (lib : AlsaLib)
    (enumerateControls : alsaHandle -> Registry lib -> result (list Control))
    (c : Card) (r : Registry lib) (sinks : list RoutingSink)
    (routing : gmap string Z) :
  GetRoutingSinks lib enumerateControls c r = Ok sinks ->
  GetRouting lib enumerateControls c r = Ok routing ->
  Forall (fun sink => exists v, GetValue lib (sink_Control sink) r = Ok v) sinks
  /\ (forall name,
        is_Some (routing !! name)
        <-> exists sink, In sink sinks /\ sink_Name sink = name)
  /\ (forall name v,
        routing !! name = Some v ->
        exists sink, In sink sinks /\ sink_Name sink = name
                     /\ GetValue lib (sink_Control sink) r = Ok v).
Proof.
  intros Hsinks Hrouting. unfold GetRouting in Hrouting. rewrite Hsinks in Hrouting.
  destruct (routingFrom_entries lib sinks ∅ routing r Hrouting) as [Hall Hent].
  assert (Hent' : forall name v, routing !! name = Some v ->
            exists sink, In sink sinks /\ sink_Name sink = name
                         /\ GetValue lib (sink_Control sink) r = Ok v).
  { intros name v Hl. destruct (Hent name v Hl) as [Hempty | H]; [|exact H].
    rewrite lookup_empty in Hempty. discriminate. }
  split; [exact Hall|]. split; [|exact Hent'].
  intros name. split.
  - intros [v Hl]. destruct (Hent' name v Hl) as (sink & Hin & Hn & _). eauto.
  - intros (sink & Hin & <-).
    destruct (routingFrom_complete lib sinks ∅ r Hall) as (routing' & Hok & _ & Hnew).
    rewrite Hrouting in Hok. injection Hok as <-. now apply Hnew.
Qed.

Lemma GetRouting_entries_witness :
  GetRouting memLib (fun _ _ => Ok threeSinks) card0 allPresent
  = Ok {[ "PCM 01 Capture Enum" := 1; "PCM 02 Capture Enum" := 3;
          "PCM 03 Capture Enum" := 2 ]}
  /\ Forall (fun sink => exists v, GetValue memLib (sink_Control sink) allPresent
                                   = Ok v) (sinksFrom 0 threeSinks).
Proof.
  assert (H : GetRouting memLib (fun _ _ => Ok threeSinks) card0 allPresent
              = Ok {[ "PCM 01 Capture Enum" := 1; "PCM 02 Capture Enum" := 3;
                      "PCM 03 Capture Enum" := 2 ]})
    by (vm_compute; reflexivity).
  split; [exact H|].
  exact (proj1 (GetRouting_entries memLib (fun _ _ => Ok threeSinks) card0
                  allPresent (sinksFrom 0 threeSinks) _ eq_refl H)).
Defined.

Lemma Contains_refl (s : string) : Contains s s = true.
Proof.
  apply Contains_iff. exists "", "". simpl. now rewrite append_nil_r.
Qed.

Lemma find_sink_by_name (Q : string -> bool) (i : Z) (controls : list Control) :
  match List.find (fun sink => Q (sink_Name sink)) (sinksFrom i controls) with
  | Some sink =>
      List.find (fun ctl => isSinkControl ctl && Q (Name ctl)) controls
      = Some (sink_Control sink)
  | None =>
      List.find (fun ctl => isSinkControl ctl && Q (Name ctl)) controls = None
  end.
Proof.
  revert i; induction controls as [|ctl controls IH]; intros i; [reflexivity|].
  cbn [sinksFrom List.find]. destruct (isSinkControl ctl); [|apply IH].
  destruct (parseRoutingSinkName (Name ctl)).
  cbn [List.find sink_Name andb]. destruct (Q (Name ctl)); [reflexivity|apply IH].
Qed.

Lemma find_source_by_name (x : string) (i : Z) (items : list string)
    (sources : list RoutingSource) :
  sourcesFrom i items = Returns sources ->
  option_map src_ID
    (List.find (fun src => Contains (src_Name src) x || String.eqb (src_Name src) x)
               sources)
  = firstIndex (fun item => Contains item x) i items.
Proof.
  revert i sources; induction items as [|name items IH]; intros i sources; simpl.
  - now intros [= <-].
  - destruct (parseRoutingSourceName name) as [[category portNum]|]; [|discriminate].
    destruct (sourcesFrom (i + 1) items) as [rest|] eqn:Es; [|discriminate].
    intros [= <-]. cbn [List.find src_Name].
    destruct (Contains name x) eqn:Ec; [reflexivity|].
    destruct (String.eqb name x) eqn:Ee.
    + apply String.eqb_eq in Ee; subst x. now rewrite Contains_refl in Ec.
    + cbn [orb]. now apply IH.
Qed.

(** X9. [SetRoutingByNames] writes to the first routing sink whose name
    contains [sinkName] the position of the first item that contains
    [sourceName]; the items are those of the first routing sink control,
    whichever sink is written.  Without such an item it returns the
    source-not-found error and leaves the registry as it was. *)
Theorem SetRoutingByNames_first_match (lib : AlsaLib)
    (enumerateControls : alsaHandle -> Registry lib -> result (list Control))
    (c : Card) (sinkName sourceName : string) (r : Registry lib)
    (controls : list Control) (firstSink target : Control) :
  GetControls lib enumerateControls c r = Ok controls ->
  List.find isSinkControl controls = Some firstSink ->
  List.find (fun ctl => isSinkControl ctl && Contains (Name ctl) sinkName)
            controls = Some target ->
  ~ In "Mix " (Items firstSink) ->
  SetRoutingByNames lib enumerateControls c sinkName sourceName r
  = match firstIndex (fun item => Contains item sourceName) 0 (Items firstSink) with
    | Some i =>
        Returns (fst (SetValue lib target i r),
                 option_map Core (snd (SetValue lib target i r)))
    | None => Returns (r, Some (ErrSourceMatchNotFound sourceName))
    end.
Proof.
  intros Hctl Hfirst Htarget Hmix. unfold SetRoutingByNames, GetRoutingSinks.
  rewrite Hctl.
  pose proof (find_sink_by_name (fun n => Contains n sinkName) 0 controls) as Hs.
  cbv beta in Hs.
  destruct (sinksFrom 0 controls) as [|s0 sinks] eqn:Esinks.
  { simpl in Hs. congruence. }
  destruct (List.find _ (s0 :: sinks)) as [sink|]; [|congruence].
  rewrite Htarget in Hs. injection Hs as Hs.
  unfold GetRoutingSources. rewrite Hctl, Hfirst.
  destruct (sourcesFrom 0 (Items firstSink)) as [sources|] eqn:Esrc.
  - pose proof (find_source_by_name sourceName 0 _ _ Esrc) as Hf.
    destruct (List.find _ sources) as [src|]; simpl in Hf; rewrite <- Hf.
    + subst target.
      now destruct (SetValue lib (sink_Control sink) (src_ID src) r).
    + reflexivity.
  - exfalso. apply Hmix. now apply (sourcesFrom_Panics_iff 0).
Qed.

Lemma SetRoutingByNames_first_match_witness :
  SetRoutingByNames memLib (fun _ _ => Ok threeSinks) card0 "PCM 03" "Analogue"
                    allPresent
  = Returns (fst (SetValue memLib (pcmSink 43 "PCM 03 Capture Enum") 1 allPresent),
             None).
Proof.
  exact (SetRoutingByNames_first_match memLib (fun _ _ => Ok threeSinks) card0
           "PCM 03" "Analogue" allPresent threeSinks
           (pcmSink 41 "PCM 01 Capture Enum") (pcmSink 43 "PCM 03 Capture Enum")
           eq_refl eq_refl eq_refl
           ltac:(simpl; intros [H|[H|[H|[H|[H|[]]]]]]; discriminate H)).
Defined.

(** ** Mixer, continued *)

(** What a successful greedy [c+] has consumed. *)
Lemma plus_try_inv {A} (p : ascii -> bool) (s : string)
    (k : string -> option A) (x : A) :
  plus_try p s k = Some x ->
  exists ds rest, s = ds +:+ rest /\ ds <> "" /\ forallb_str p ds = true
                  /\ k rest = Some x.
Proof.
  induction s as [|c s IH]; simpl; [discriminate|].
  destruct (p c) eqn:Hc; [|discriminate].
  destruct (plus_try p s k) as [y|] eqn:E.
  - intros [= <-]. destruct (IH eq_refl) as (ds & rest & -> & _ & Hd & Hk).
    exists (String c ds), rest. repeat split; try discriminate; try exact Hk.
    cbn [forallb_str]. now rewrite Hc, Hd.
  - intros Hk. exists (String c ""), s.
    repeat split; try discriminate; try exact Hk.
    cbn [forallb_str]. now rewrite Hc.
Qed.

Lemma gen234Re_inv (name : string) (matches : list string) :
  FindStringSubmatch gen234Re name = Some matches ->
  exists L ds, is_upper L = true /\ ds <> "" /\ forallb_str is_digit ds = true
               /\ name = gen234Name L ds /\ matches = [name; String L ""; ds].
Proof.
  unfold FindStringSubmatch, match_here, gen234Re, digits1. cbn [rmatch].
  destruct (strip_prefix "Mix " name) as [r1|] eqn:E1; [|discriminate].
  apply strip_prefix_Some in E1.
  destruct r1 as [|L r2]; [discriminate|].
  destruct (is_upper L) eqn:HL; [|discriminate].
  destruct (strip_prefix " Input " r2) as [r3|] eqn:E3; [|discriminate].
  apply strip_prefix_Some in E3.
  intros H. apply plus_try_inv in H as (ds & rest & E4 & Hne & Hd & Hk).
  destruct (strip_prefix " Playback Volume" rest) as [r5|] eqn:E5; [|discriminate].
  apply strip_prefix_Some in E5.
  destruct r5; [|discriminate]. injection Hk as <-.
  subst rest r3 r2 name.
  change ("Mix " +:+ String L (" Input " +:+ ds +:+ " Playback Volume" +:+ ""))
    with (gen234Name L ds).
  exists L, ds. repeat split; try assumption.
  rewrite consumed_all.
  change (String L (" Input " +:+ ds +:+ " Playback Volume" +:+ ""))
    with (String L "" +:+ (" Input " +:+ ds +:+ " Playback Volume" +:+ "")).
  rewrite !consumed_app. reflexivity.
Qed.

Lemma gen1Re_inv (name : string) (matches : list string) :
  FindStringSubmatch gen1Re name = Some matches ->
  exists L ds, is_upper L = true /\ ds <> "" /\ forallb_str is_digit ds = true
               /\ name = gen1Name L ds /\ matches = [name; ds; String L ""].
Proof.
  unfold FindStringSubmatch, match_here, gen1Re, digits1. cbn [rmatch].
  destruct (strip_prefix "Matrix " name) as [r1|] eqn:E1; [|discriminate].
  apply strip_prefix_Some in E1.
  intros H. apply plus_try_inv in H as (ds & rest & E2 & Hne & Hd & Hk).
  cbv beta in Hk.
  destruct (strip_prefix " Mix " rest) as [r3|] eqn:E3; [|discriminate].
  apply strip_prefix_Some in E3.
  destruct r3 as [|L r4]; [discriminate|].
  destruct (is_upper L) eqn:HL; [|discriminate].
  destruct (strip_prefix " Playback Volume" r4) as [r5|] eqn:E5; [|discriminate].
  apply strip_prefix_Some in E5.
  destruct r5; [|discriminate]. injection Hk as <-.
  subst r4 rest r1 name.
  change ("Matrix " +:+ ds +:+ " Mix " +:+ String L (" Playback Volume" +:+ ""))
    with (gen1Name L ds).
  exists L, ds. repeat split; try assumption.
  rewrite consumed_all.
  change (String L (" Playback Volume" +:+ ""))
    with (String L "" +:+ (" Playback Volume" +:+ "")).
  rewrite !consumed_app. reflexivity.
Qed.

Lemma mixerInputOf_In (ctl : Control) (input : MixerInput) :
  In input (mixerInputOf ctl) ->
  Type_ ctl = ControlTypeInteger /\ mi_Control input = ctl
  /\ mixerInputOf ctl = [input].
Proof.
  unfold mixerInputOf.
  destruct (bool_decide (Type_ ctl = ControlTypeInteger)) eqn:Hty;
    cbn [negb]; [|intros []].
  apply bool_decide_eq_true in Hty.
  destruct (FindStringSubmatch gen234Re (Name ctl)).
  - intros [<- | []]. auto.
  - destruct (FindStringSubmatch gen1Re (Name ctl)); [|intros []].
    intros [<- | []]. auto.
Qed.

(** X10. Every entry of [GetMixerInputs] wraps an integer control of the
    card whose name is spelled in one of the two conventions, and its key
    is read from that name: [MixName] is "Mix " followed by the letter and
    [InputNum] is the scan of the digits, never negative. *)
Theorem GetMixerInputs_entries (lib : AlsaLib)
    (enumerateControls : alsaHandle -> Registry lib -> result (list Control))
    (c : Card) (r : Registry lib) (controls : list Control)
    (inputs : list MixerInput) (input : MixerInput) :
  GetControls lib enumerateControls c r = Ok controls ->
  GetMixerInputs lib enumerateControls c r = Ok inputs ->
  In input inputs ->
  In (mi_Control input) controls
  /\ Type_ (mi_Control input) = ControlTypeInteger
  /\ exists L ds,
       is_upper L = true /\ ds <> "" /\ forallb_str is_digit ds = true
       /\ (Name (mi_Control input) = gen234Name L ds
           \/ Name (mi_Control input) = gen1Name L ds)
       /\ MixName input = "Mix " +:+ String L ""
       /\ InputNum input = scan_int ds
       /\ 0 <= InputNum input.
Proof.
  intros Hctl Hin Hinput. unfold GetMixerInputs in Hin. rewrite Hctl in Hin.
  injection Hin as <-.
  apply in_concat in Hinput as (l & Hl & Hinput).
  apply in_map_iff in Hl as (ctl & <- & Hc).
  pose proof (mixerInputOf_In ctl input Hinput) as (Hty & Hmi & _).
  rewrite Hmi. split; [exact Hc|]. split; [exact Hty|].
  assert (Hpos : forall ds, ds <> "" -> forallb_str is_digit ds = true ->
                   0 <= scan_int ds).
  { intros ds Hne Hd. unfold scan_int. rewrite (Sscanf_d_digits ds Hne Hd).
    destruct (fits_int64 (digits_value ds)); [|lia].
    clear Hne. unfold digits_value.
    assert (G : forall acc, 0 <= acc -> 0 <= digits_acc acc ds).
    { induction ds as [|c0 ds IH]; intros acc Hacc; [exact Hacc|].
      cbn [forallb_str] in Hd. apply andb_true_iff in Hd as [Hc0 Hd].
      cbn [digits_acc]. apply IH; [exact Hd|].
      unfold is_digit in Hc0. apply andb_true_iff in Hc0 as [H1 _].
      unfold digit_val. lia. }
    apply G. lia. }
  unfold mixerInputOf in Hinput.
  rewrite Hty in Hinput. rewrite bool_decide_eq_true_2 in Hinput by reflexivity.
  cbn [negb] in Hinput.
  destruct (FindStringSubmatch gen234Re (Name ctl)) as [matches|] eqn:E.
  - apply gen234Re_inv in E as (L & ds & HL & Hne & Hd & Hname & ->).
    destruct Hinput as [<- | []]. exists L, ds. cbn.
    repeat split; auto.
  - destruct (FindStringSubmatch gen1Re (Name ctl)) as [matches|] eqn:E1;
      [|destruct Hinput].
    apply gen1Re_inv in E1 as (L & ds & HL & Hne & Hd & Hname & ->).
    destruct Hinput as [<- | []]. exists L, ds. cbn.
    repeat split; auto.
Qed.

Lemma GetMixerInputs_entries_witness :
  In (mkMixerInput "Mix A" 1 mixA01_gen1)
     (concat (map mixerInputOf [gain1; mixA01_gen1]))
  /\ Type_ mixA01_gen1 = ControlTypeInteger.
Proof.
  assert (Hin : In (mkMixerInput "Mix A" 1 mixA01_gen1)
                   (concat (map mixerInputOf [gain1; mixA01_gen1])))
    by (now left).
  split; [exact Hin|].
  exact (proj1 (proj2 (GetMixerInputs_entries memLib
                         (fun _ _ => Ok [gain1; mixA01_gen1]) card0 ∅
                         [gain1; mixA01_gen1] _ (mkMixerInput "Mix A" 1 mixA01_gen1)
                         eq_refl eq_refl Hin))).
Defined.

(** X11. [SetMixerLevel] changes the registry, or reports success, only
    for an integer control of the card that is classified under exactly
    the given mix name and input number, and only with a level within
    [Min, Max] of that control; when no mixer input has that key it
    returns the not-found error and leaves the registry as it was. *)
Theorem SetMixerLevel_only_valid (lib : AlsaLib)
    (enumerateControls : alsaHandle -> Registry lib -> result (list Control))
    (c : Card) (mixName : string) (inputNum level : Z) (r : Registry lib)
    (controls : list Control) :
  GetControls lib enumerateControls c r = Ok controls ->
  (fst (SetMixerLevel lib enumerateControls c mixName inputNum level r) <> r
   \/ snd (SetMixerLevel lib enumerateControls c mixName inputNum level r) = None ->
   exists ctl,
     In ctl controls /\ Type_ ctl = ControlTypeInteger
     /\ mixerInputOf ctl = [mkMixerInput mixName inputNum ctl]
     /\ Min ctl <= level <= Max ctl)
  /\ ((forall ctl, In ctl controls ->
         mixerInputOf ctl <> [mkMixerInput mixName inputNum ctl]) ->
      SetMixerLevel lib enumerateControls c mixName inputNum level r
      = (r, Some (ErrMixerInputNotFound mixName inputNum))).
Proof.
  intros Hctl. unfold SetMixerLevel, GetMixerInput, GetMixerInputs, findMixerInput.
  rewrite Hctl.
  destruct (List.find _ (concat (map mixerInputOf controls))) as [input|] eqn:Hfind.
  - apply find_some in Hfind as [Hin Hkey].
    apply andb_true_iff in Hkey as [Hmix Hnum].
    apply String.eqb_eq in Hmix. apply Z.eqb_eq in Hnum.
    apply in_concat in Hin as (l & Hl & Hin).
    apply in_map_iff in Hl as (ctl & <- & Hc).
    destruct (mixerInputOf_In ctl input Hin) as (Hty & Hmi & Hone).
    assert (Hinput : input = mkMixerInput mixName inputNum ctl)
      by (destruct input; simpl in *; congruence).
    rewrite Hmi. split.
    + intros Hchg. exists ctl. split; [exact Hc|]. split; [exact Hty|].
      split; [congruence|].
      destruct (GetControls_open_handle lib enumerateControls c r controls ctl
                  Hctl Hc) as (h & _ & Hh).
      destruct (SetValue_plan_bounded ctl h level Hh (or_intror (or_introl Hty)))
        as [[Hin2 _] | [_ (e & _ & Hplan)]].
      * unfold within_bounds in Hin2. now rewrite Hty in Hin2.
      * exfalso. unfold SetValue in Hchg. rewrite Hplan in Hchg. cbn in Hchg.
        destruct Hchg as [H | H]; [now apply H|discriminate].
    + intros Hnone. exfalso. apply (Hnone ctl Hc). congruence.
  - split; [|reflexivity].
    cbn. intros [H | H]; [now contradiction H|discriminate].
Qed.

Lemma SetMixerLevel_only_valid_witness :
  snd (SetMixerLevel memLib (fun _ _ => Ok [mixA01_gen1]) card0 "Mix A" 1 200
                     {[ 11 := {[ 0 := 7 ]} ]}) = None
  /\ exists ctl,
       In ctl [mixA01_gen1] /\ Type_ ctl = ControlTypeInteger
       /\ mixerInputOf ctl = [mkMixerInput "Mix A" 1 ctl]
       /\ Min ctl <= 200 <= Max ctl.
Proof.
  assert (Hok : snd (SetMixerLevel memLib (fun _ _ => Ok [mixA01_gen1]) card0
                       "Mix A" 1 200 {[ 11 := {[ 0 := 7 ]} ]}) = None)
    by reflexivity.
  split; [exact Hok|].
  exact (proj1 (SetMixerLevel_only_valid memLib (fun _ _ => Ok [mixA01_gen1])
                  card0 "Mix A" 1 200 {[ 11 := {[ 0 := 7 ]} ]} [mixA01_gen1]
                  eq_refl) (or_intror Hok)).
Defined.

(** ** Preamp name patterns *)

Lemma span_run (p : ascii -> bool) (ds rest : string) :
  forallb_str p ds = true -> stops p rest -> span p (ds +:+ rest) = (ds, rest).
Proof.
  intros Hd Hstop. induction ds as [|c ds IH]; simpl.
  - destruct rest as [|c rest]; [reflexivity|].
    simpl in *. now rewrite Hstop.
  - cbn [forallb_str] in Hd. apply andb_true_iff in Hd as [Hc Hd].
    now rewrite Hc, (IH Hd).
Qed.

Lemma digit_run_unique (ds1 ds2 t1 t2 : string) :
  forallb_str is_digit ds1 = true -> forallb_str is_digit ds2 = true ->
  stops is_digit t1 -> stops is_digit t2 ->
  ds1 +:+ t1 = ds2 +:+ t2 -> ds1 = ds2 /\ t1 = t2.
Proof.
  intros H1 H2 S1 S2 E.
  pose proof (span_run is_digit ds1 t1 H1 S1) as E1.
  pose proof (span_run is_digit ds2 t2 H2 S2) as E2.
  rewrite E in E1. rewrite E1 in E2. now injection E2.
Qed.

Lemma strip_prefix_self (s : string) : strip_prefix s s = Some "".
Proof.
  induction s as [|c s IH]; simpl; [reflexivity|]. now rewrite Ascii.eqb_refl.
Qed.

Lemma simpleRe_matches (suffix ds : string) :
  digitRun ds -> stops is_digit suffix ->
  FindStringSubmatch (simpleRe suffix) (lineIn ds suffix)
  = Some [lineIn ds suffix; ds].
Proof.
  intros [Hne Hd] Hstop.
  unfold FindStringSubmatch, match_here, simpleRe, lineIn, digits1.
  cbn [rmatch]. rewrite strip_prefix_app. cbv beta iota.
  erewrite plus_try_run; [reflexivity|exact Hne|exact Hd|exact Hstop|].
  cbv beta iota. rewrite strip_prefix_self.
  cbv beta iota. rewrite consumed_all, consumed_app. reflexivity.
Qed.

Lemma simpleRe_inv (suffix name : string) (matches : list string) :
  FindStringSubmatch (simpleRe suffix) name = Some matches ->
  exists ds, digitRun ds /\ name = lineIn ds suffix /\ matches = [name; ds].
Proof.
  unfold FindStringSubmatch, match_here, simpleRe, digits1. cbn [rmatch].
  destruct (strip_prefix "Line In " name) as [r1|] eqn:E1; [|discriminate].
  apply strip_prefix_Some in E1.
  intros H. apply plus_try_inv in H as (ds & rest & E2 & Hne & Hd & Hk).
  cbv beta in Hk.
  destruct (strip_prefix suffix rest) as [r3|] eqn:E3; [|discriminate].
  apply strip_prefix_Some in E3.
  destruct r3; [|discriminate]. injection Hk as <-.
  rewrite append_nil_r in E3. subst rest r1 name.
  exists ds. split; [split; assumption|]. split; [reflexivity|].
  rewrite consumed_all, consumed_app. reflexivity.
Qed.

Lemma phantomRe_inv (name : string) (matches : list string) :
  FindStringSubmatch phantomRe name = Some matches ->
  exists ds, digitRun ds /\ slotForm SlotPhantom name ds /\ matches = [name; ds].
Proof.
  unfold FindStringSubmatch, match_here, phantomRe, digits1. cbn [rmatch].
  destruct (strip_prefix "Line In " name) as [r1|] eqn:E1; [|discriminate].
  apply strip_prefix_Some in E1.
  intros H. apply plus_try_inv in H as (ds & rest & E2 & Hne & Hd & Hk).
  cbv beta in Hk. exists ds. split; [split; assumption|].
  assert (Hcap : consumed r1 rest = ds) by (subst r1; apply consumed_app).
  rewrite Hcap in Hk.
  destruct (strip_prefix "-" rest) as [r2|] eqn:E3.
  - apply strip_prefix_Some in E3.
    destruct (plus_try is_digit r2 _) as [x|] eqn:E4.
    + injection Hk as <-.
      apply plus_try_inv in E4 as (ds2 & rest2 & E5 & Hne2 & Hd2 & Hk2).
      cbv beta in Hk2.
      destruct (strip_prefix " Phantom Power Capture Switch" rest2) as [r5|] eqn:E6;
        [|discriminate].
      apply strip_prefix_Some in E6. destruct r5; [|discriminate].
      injection Hk2 as <-. split; [|now rewrite consumed_all].
      right. exists ds2. split; [split; assumption|].
      subst rest2 r2 rest r1 name. reflexivity.
    + subst rest. simpl in Hk. discriminate.
  - destruct (strip_prefix " Phantom Power Capture Switch" rest) as [r5|] eqn:E6;
      [|discriminate].
    apply strip_prefix_Some in E6. destruct r5; [|discriminate].
    injection Hk as <-. split; [|now rewrite consumed_all].
    left. subst rest r1 name. reflexivity.
Qed.

Lemma phantomRe_matches (name ds : string) :
  digitRun ds -> slotForm SlotPhantom name ds ->
  FindStringSubmatch phantomRe name = Some [name; ds].
Proof.
  intros [Hne Hd] Hform.
  unfold FindStringSubmatch, match_here, phantomRe, digits1. cbn [rmatch].
  destruct Hform as [-> | (ds2 & [Hne2 Hd2] & ->)]; unfold lineIn;
    rewrite strip_prefix_app; cbv beta iota.
  - erewrite plus_try_run; [reflexivity|exact Hne|exact Hd|exact eq_refl|].
    cbv beta iota.
    change (strip_prefix "-" " Phantom Power Capture Switch") with (@None string).
    rewrite strip_prefix_self. cbv beta iota.
    rewrite consumed_all, consumed_app. reflexivity.
  - erewrite plus_try_run; [reflexivity|exact Hne|exact Hd|exact eq_refl|].
    cbv beta iota. rewrite strip_prefix_app.
    erewrite plus_try_run; [|exact Hne2|exact Hd2|exact eq_refl|].
    + reflexivity.
    + cbv beta iota. rewrite strip_prefix_self. cbv beta iota.
      rewrite consumed_all, consumed_app. reflexivity.
Qed.

Lemma linkRe_inv (name : string) (matches : list string) :
  FindStringSubmatch linkRe name = Some matches ->
  exists ds, digitRun ds /\ slotForm SlotLink name ds /\ matches = [name; ds].
Proof.
  unfold FindStringSubmatch, match_here, linkRe, digits1. cbn [rmatch].
  destruct (strip_prefix "Line In " name) as [r1|] eqn:E1; [|discriminate].
  apply strip_prefix_Some in E1.
  intros H. apply plus_try_inv in H as (ds & rest & E2 & Hne & Hd & Hk).
  cbv beta in Hk. exists ds. split; [split; assumption|].
  assert (Hcap : consumed r1 rest = ds) by (subst r1; apply consumed_app).
  rewrite Hcap in Hk.
  destruct (strip_prefix "-" rest) as [r2|] eqn:E3; [|discriminate].
  apply strip_prefix_Some in E3.
  apply plus_try_inv in Hk as (ds2 & rest2 & E5 & Hne2 & Hd2 & Hk2).
  cbv beta in Hk2.
  destruct (strip_prefix " Link Capture Switch" rest2) as [r5|] eqn:E6;
    [|discriminate].
  apply strip_prefix_Some in E6. destruct r5; [|discriminate].
  injection Hk2 as <-. split; [|now rewrite consumed_all].
  exists ds2. split; [split; assumption|].
  subst rest2 r2 rest r1 name. reflexivity.
Qed.

Lemma linkRe_matches (name ds : string) :
  digitRun ds -> slotForm SlotLink name ds ->
  FindStringSubmatch linkRe name = Some [name; ds].
Proof.
  intros [Hne Hd] (ds2 & [Hne2 Hd2] & ->).
  unfold FindStringSubmatch, match_here, linkRe, digits1, lineIn. cbn [rmatch].
  rewrite strip_prefix_app; cbv beta iota.
  erewrite plus_try_run; [reflexivity|exact Hne|exact Hd|exact eq_refl|].
  cbv beta iota. rewrite strip_prefix_app.
  erewrite plus_try_run; [|exact Hne2|exact Hd2|exact eq_refl|].
  - reflexivity.
  - cbv beta iota. rewrite strip_prefix_self. cbv beta iota.
    rewrite consumed_all, consumed_app. reflexivity.
Qed.

Lemma airRe_inv (name : string) (matches : list string) :
  FindStringSubmatch airRe name = Some matches ->
  exists ds, digitRun ds /\ slotForm SlotAir name ds /\ matches = [name; ds].
Proof.
  unfold FindStringSubmatch, match_here, airRe, digits1. cbn [rmatch].
  destruct (strip_prefix "Line In " name) as [r1|] eqn:E1; [|discriminate].
  apply strip_prefix_Some in E1.
  intros H. apply plus_try_inv in H as (ds & rest & E2 & Hne & Hd & Hk).
  cbv beta in Hk. exists ds. split; [split; assumption|].
  assert (Hcap : consumed r1 rest = ds) by (subst r1; apply consumed_app).
  rewrite Hcap in Hk.
  destruct (strip_prefix " Air Capture " rest) as [r2|] eqn:E3; [|discriminate].
  apply strip_prefix_Some in E3.
  destruct (strip_prefix "Switch" r2) as [r3|] eqn:E4.
  - apply strip_prefix_Some in E4. destruct r3.
    + injection Hk as <-. split; [|now rewrite consumed_all].
      left. subst r2 rest r1 name. reflexivity.
    + subst r2. simpl in Hk. discriminate.
  - destruct (strip_prefix "Enum" r2) as [r3|] eqn:E5; [|discriminate].
    apply strip_prefix_Some in E5. destruct r3; [|discriminate].
    injection Hk as <-. split; [|now rewrite consumed_all].
    right. subst r2 rest r1 name. reflexivity.
Qed.

Lemma airRe_matches (name ds : string) :
  digitRun ds -> slotForm SlotAir name ds ->
  FindStringSubmatch airRe name = Some [name; ds].
Proof.
  intros [Hne Hd] Hform.
  unfold FindStringSubmatch, match_here, airRe, digits1. cbn [rmatch].
  destruct Hform as [-> | ->]; unfold lineIn;
    rewrite strip_prefix_app; cbv beta iota;
    (erewrite plus_try_run; [reflexivity|exact Hne|exact Hd|exact eq_refl|]);
    cbv beta iota.
  - change (strip_prefix " Air Capture " " Air Capture Switch")
      with (Some "Switch").
    cbv beta iota. rewrite strip_prefix_self. cbv beta iota.
    rewrite consumed_all, consumed_app. reflexivity.
  - change (strip_prefix " Air Capture " " Air Capture Enum") with (Some "Enum").
    cbv beta iota.
    change (strip_prefix "Switch" "Enum") with (@None string).
    cbv beta iota. rewrite strip_prefix_self. cbv beta iota.
    rewrite consumed_all, consumed_app. reflexivity.
Qed.

Ltac simple_inv suffix :=
  let H := fresh "H" in
  intros H; apply (simpleRe_inv suffix) in H as (ds & Hrun & Hname & Hm);
  exists ds; auto.

Ltac simple_matches suffix :=
  match goal with
  | Hrun : digitRun ?ds, Hform : _ = lineIn ?ds suffix |- _ =>
      rewrite Hform; exact (simpleRe_matches suffix ds Hrun eq_refl)
  end.

Lemma slotRe_iff (slot : Slot) (name : string) (matches : list string) :
  FindStringSubmatch (slotRe slot) name = Some matches
  <-> exists ds, digitRun ds /\ slotForm slot name ds /\ matches = [name; ds].
Proof.
  split.
  - destruct slot; cbn [slotRe slotForm].
    + simple_inv " Gain Capture Volume".
    + apply phantomRe_inv.
    + apply airRe_inv.
    + simple_inv " Pad Capture Switch".
    + simple_inv " Impedance Switch".
    + simple_inv " Level Capture Enum".
    + simple_inv " Autogain Capture Switch".
    + simple_inv " Safe Capture Switch".
    + apply linkRe_inv.
  - intros (ds & Hrun & Hform & ->).
    destruct slot; cbn [slotRe slotForm] in *.
    + simple_matches " Gain Capture Volume".
    + now apply phantomRe_matches.
    + now apply airRe_matches.
    + simple_matches " Pad Capture Switch".
    + simple_matches " Impedance Switch".
    + simple_matches " Level Capture Enum".
    + simple_matches " Autogain Capture Switch".
    + simple_matches " Safe Capture Switch".
    + now apply linkRe_matches.
Qed.

Ltac tails_differ HT :=
  simpl in HT;
  first [ solve [auto]
        | discriminate HT
        | injection HT as HT;
          apply digit_run_unique in HT as [? HT];
          [|assumption|assumption|exact eq_refl|exact eq_refl];
          first [ solve [auto] | discriminate HT ] ].

(** Two spelled-out forms of one name are the same slot and channel. *)
Lemma slotForm_exclusive (slot1 slot2 : Slot) (name ds1 ds2 : string) :
  digitRun ds1 -> digitRun ds2 ->
  slotForm slot1 name ds1 -> slotForm slot2 name ds2 ->
  slot1 = slot2 /\ ds1 = ds2.
Proof.
  intros [Hne1 Hd1] [Hne2 Hd2] H1 H2.
  destruct slot1; cbn [slotForm] in H1;
    repeat match type of H1 with
           | _ \/ _ => destruct H1 as [H1 | H1]
           | exists _, _ => destruct H1 as (? & [? ?] & H1)
           end;
    subst name;
    destruct slot2; cbn [slotForm] in H2;
    repeat match type of H2 with
           | _ \/ _ => destruct H2 as [H2 | H2]
           | exists _, _ => destruct H2 as (? & [? ?] & H2)
           end;
    unfold lineIn in H2;
    apply (inj (append "Line In ")) in H2;
    apply digit_run_unique in H2 as [-> HT];
    try assumption; try exact eq_refl;
    tails_differ HT.
Qed.

Lemma slotPatterns_slotRe (slot : Slot) (re : regex) :
  In (slot, re) slotPatterns <-> re = slotRe slot.
Proof.
  unfold slotPatterns; simpl. split.
  - intros H.
    repeat (destruct H as [[= <- <-] | H]; [reflexivity|]). destruct H.
  - intros ->. destruct slot; simpl; tauto.
Qed.

Lemma slotRe_exclusive (slot1 slot2 : Slot) (name : string) (m1 m2 : list string) :
  FindStringSubmatch (slotRe slot1) name = Some m1 ->
  FindStringSubmatch (slotRe slot2) name = Some m2 ->
  slot1 = slot2 /\ m1 = m2.
Proof.
  intros H1 H2.
  apply slotRe_iff in H1 as (ds1 & Hr1 & Hf1 & ->).
  apply slotRe_iff in H2 as (ds2 & Hr2 & Hf2 & ->).
  destruct (slotForm_exclusive _ _ _ _ _ Hr1 Hr2 Hf1 Hf2) as [-> ->]. auto.
Qed.

Lemma matchSlot_Some (order : list (Slot * regex)) (name : string)
    (slot : Slot) (n : Z) :
  matchSlot order name = Some (slot, n) ->
  exists re matches,
    In (slot, re) order /\ FindStringSubmatch re name = Some matches
    /\ n = scan_int (sub matches 1).
Proof.
  induction order as [|[s re] order IH]; simpl; [discriminate|].
  destruct (FindStringSubmatch re name) as [matches|] eqn:E.
  - intros [= <- <-]. exists re, matches. auto.
  - intros H. destruct (IH H) as (re' & m & Hin & Hm & Hn).
    exists re', m. auto.
Qed.

Lemma matchSlot_None (order : list (Slot * regex)) (name : string) :
  matchSlot order name = None <->
  forall slot re, In (slot, re) order -> FindStringSubmatch re name = None.
Proof.
  induction order as [|[s re] order IH]; simpl.
  - split; [intros _ ? ? []|reflexivity].
  - destruct (FindStringSubmatch re name) as [matches|] eqn:E.
    + split; [discriminate|]. intros H.
      specialize (H s re (or_introl eq_refl)). congruence.
    + rewrite IH. split.
      * intros H slot re' [[= <- <-] | Hin]; [exact E|now apply (H slot)].
      * intros H slot re' Hin. apply (H slot). now right.
Qed.

(** X12. The else-if chain of [GetPreampChannels] takes a control name
    for slot [slot] of channel [n] exactly when the name is "Line In ",
    a run of digits, for phantom power optionally and for link always
    "-" and a second run of digits, and the fixed suffix of the slot,
    and nothing else; [n] is the scan of the first run (0 when it does
    not fit in 64 bits). *)
Theorem matchSlot_iff (name : string) (slot : Slot) (n : Z) :
  matchSlot slotPatterns name = Some (slot, n)
  <-> exists ds, digitRun ds /\ slotForm slot name ds /\ n = scan_int ds.
Proof.
  split.
  - intros H. apply matchSlot_Some in H as (re & matches & Hin & Hm & ->).
    apply slotPatterns_slotRe in Hin as ->.
    apply slotRe_iff in Hm as (ds & Hrun & Hform & ->).
    exists ds. auto.
  - intros (ds & Hrun & Hform & ->).
    assert (Hm : FindStringSubmatch (slotRe slot) name = Some [name; ds])
      by (apply slotRe_iff; eauto).
    destruct (matchSlot slotPatterns name) as [[slot' n']|] eqn:E.
    + apply matchSlot_Some in E as (re & matches & Hin & Hm' & ->).
      apply slotPatterns_slotRe in Hin as ->.
      destruct (slotRe_exclusive _ _ _ _ _ Hm' Hm) as [-> ->]. reflexivity.
    + exfalso.
      assert (Hnone := proj1 (matchSlot_None slotPatterns name) E
                         slot (slotRe slot)
                         (proj2 (slotPatterns_slotRe slot _) eq_refl)).
      congruence.
Qed.

(** X13. A name matches at most one of the nine preamp patterns, so the
    branch taken does not depend on the order of the chain: every
    permutation of the patterns gives the same slot and channel. *)
Theorem matchSlot_order_independent (name : string)
    (order : list (Slot * regex)) :
  Permutation order slotPatterns ->
  matchSlot order name = matchSlot slotPatterns name
  /\ forall slot1 re1 slot2 re2,
       In (slot1, re1) order -> In (slot2, re2) order ->
       FindStringSubmatch re1 name <> None ->
       FindStringSubmatch re2 name <> None -> slot1 = slot2.
Proof.
  intros HP.
  assert (Hin : forall slot re, In (slot, re) order <-> re = slotRe slot).
  { intros slot re. rewrite <- slotPatterns_slotRe. split; intros H.
    - exact (Permutation_in _ HP H).
    - exact (Permutation_in _ (Permutation_sym HP) H). }
  assert (Hsame : forall o1 o2,
            (forall slot re, In (slot, re) o1 <-> re = slotRe slot) ->
            (forall slot re, In (slot, re) o2 <-> re = slotRe slot) ->
            forall res, matchSlot o1 name = Some res ->
                        matchSlot o2 name = Some res).
  { intros o1 o2 H1 H2 [slot n] E.
    apply matchSlot_Some in E as (re & matches & Hi & Hm & ->).
    apply H1 in Hi as ->.
    destruct (matchSlot o2 name) as [[slot' n']|] eqn:E2.
    - apply matchSlot_Some in E2 as (re' & m' & Hi' & Hm' & ->).
      apply H2 in Hi' as ->.
      destruct (slotRe_exclusive _ _ _ _ _ Hm' Hm) as [-> ->]. reflexivity.
    - exfalso.
      assert (Hnone := proj1 (matchSlot_None o2 name) E2 slot (slotRe slot)
                         (proj2 (H2 slot _) eq_refl)).
      congruence. }
  split.
  - destruct (matchSlot order name) as [res|] eqn:E.
    + symmetry. exact (Hsame order slotPatterns Hin slotPatterns_slotRe res E).
    + destruct (matchSlot slotPatterns name) as [res|] eqn:E2; [|reflexivity].
      rewrite (Hsame slotPatterns order slotPatterns_slotRe Hin res E2) in E.
      discriminate.
  - intros slot1 re1 slot2 re2 H1 H2 M1 M2.
    apply Hin in H1 as ->. apply Hin in H2 as ->.
    destruct (FindStringSubmatch (slotRe slot1) name) as [m1|] eqn:E1;
      [|congruence].
    destruct (FindStringSubmatch (slotRe slot2) name) as [m2|] eqn:E2;
      [|congruence].
    exact (proj1 (slotRe_exclusive _ _ _ _ _ E1 E2)).
Qed.

Lemma matchSlot_order_independent_witness :
  Permutation (rev slotPatterns) slotPatterns
  /\ matchSlot (rev slotPatterns) "Line In 1-2 Phantom Power Capture Switch"
     = matchSlot slotPatterns "Line In 1-2 Phantom Power Capture Switch".
Proof.
  assert (P : Permutation (rev slotPatterns) slotPatterns)
    by (apply Permutation_sym, Permutation_rev).
  split; [exact P|].
  exact (proj1 (matchSlot_order_independent
                  "Line In 1-2 Phantom Power Capture Switch" _ P)).
Defined.

(** ** Preamp channels, continued *)

Lemma slotField_setSlot (slot slot' : Slot) (ctl : Control) (ch : PreampChannel) :
  slotField slot' (setSlot slot ctl ch)
  = if decide (slot = slot') then Some ctl else slotField slot' ch.
Proof. destruct ch, slot, slot'; reflexivity. Qed.

Lemma lastMatching_snoc (slot : Slot) (n : Z) (controls : list Control)
    (ctl : Control) :
  lastMatching slot n (controls ++ [ctl])
  = if slotMatches slot n ctl then Some ctl else lastMatching slot n controls.
Proof. unfold lastMatching. rewrite rev_unit. reflexivity. Qed.

Lemma channelMap_slots (controls : list Control) :
  slotsCorrect controls (fold_left addControl controls ∅).
Proof.
  induction controls as [|ctl controls IH] using rev_ind.
  - intros n. simpl. rewrite lookup_empty. reflexivity.
  - rewrite fold_left_app. cbn [fold_left].
    set (m := fold_left addControl controls ∅) in *.
    intros n. specialize (IH n). unfold addControl.
    destruct (matchSlot slotPatterns (Name ctl)) as [[slot k]|] eqn:E.
    + destruct (decide (k = n)) as [->|Hne].
      * rewrite lookup_insert_eq.
        assert (Hsm : forall slot', slotMatches slot' n ctl
                                    = bool_decide (slot = slot')).
        { intros slot'. unfold slotMatches. rewrite E, Z.eqb_refl.
          now rewrite andb_true_r. }
        split; [|split].
        -- rewrite ChannelNum_setSlot.
           destruct (m !! n) as [ch|]; [apply IH|reflexivity].
        -- intros slot'. rewrite slotField_setSlot, lastMatching_snoc, Hsm.
           destruct (decide (slot = slot')) as [->|Hs].
           ++ now rewrite bool_decide_eq_true_2.
           ++ rewrite bool_decide_eq_false_2 by exact Hs.
              destruct (m !! n) as [ch|]; [apply IH|].
              rewrite IH. now destruct slot'.
        -- exists slot. rewrite slotField_setSlot.
           destruct (decide (slot = slot)); [discriminate|congruence].
      * rewrite lookup_insert_ne by exact Hne.
        assert (Hsm : forall slot', slotMatches slot' n ctl = false).
        { intros slot'. unfold slotMatches. rewrite E.
          apply andb_false_iff. right. now apply Z.eqb_neq. }
        destruct (m !! n) as [ch|].
        -- destruct IH as (Hn & Hs & Hex). split; [exact Hn|]. split; [|exact Hex].
           intros slot'. now rewrite lastMatching_snoc, Hsm.
        -- intros slot'. now rewrite lastMatching_snoc, Hsm.
    + assert (Hsm : forall slot', slotMatches slot' n ctl = false).
      { intros slot'. unfold slotMatches. now rewrite E. }
      destruct (m !! n) as [ch|].
      * destruct IH as (Hn & Hs & Hex). split; [exact Hn|]. split; [|exact Hex].
        intros slot'. now rewrite lastMatching_snoc, Hsm.
      * intros slot'. now rewrite lastMatching_snoc, Hsm.
Qed.

Lemma sortedChannels_In (m : gmap Z PreampChannel) (ch : PreampChannel) :
  In ch (sortedChannels m) -> exists n, m !! n = Some ch.
Proof.
  unfold sortedChannels. intros H. apply list_elem_of_In in H.
  apply list_elem_of_omap in H as (n & _ & Hn). eauto.
Qed.

(** The slots of the channels of a card, from its control list. *)
Lemma GetPreampChannels_slots_holds (lib : AlsaLib)
    (enumerateControls : alsaHandle -> Registry lib -> result (list Control))
    (c : Card) (r : Registry lib) (controls : list Control)
    (channels : list PreampChannel) (ch : PreampChannel) :
  GetControls lib enumerateControls c r = Ok controls ->
  GetPreampChannels lib enumerateControls c r = Ok channels ->
  In ch channels ->
  (forall slot,
     slotField slot ch = lastMatching slot (ChannelNum ch) controls)
  /\ exists slot, slotField slot ch <> None.
Proof.
  intros Hctl Hch Hin. unfold GetPreampChannels in Hch. rewrite Hctl in Hch.
  injection Hch as <-. unfold preampChannelsOf in Hin.
  apply sortedChannels_In in Hin as (n & Hn).
  pose proof (channelMap_slots controls n) as H. rewrite Hn in H.
  destruct H as (-> & Hs & Hex). auto.
Qed.

(** X14. In every channel that [GetPreampChannels] returns, each slot
    holds the last control, in enumeration order, whose name is taken for
    that slot and that channel number, and is empty when there is none;
    at least one slot is populated. *)
Theorem GetPreampChannels_slots (lib : AlsaLib)
    (enumerateControls : alsaHandle -> Registry lib -> result (list Control))
    (c : Card) (r : Registry lib) (controls : list Control)
    (channels : list PreampChannel) (ch : PreampChannel) :
  GetControls lib enumerateControls c r = Ok controls ->
  GetPreampChannels lib enumerateControls c r = Ok channels ->
  In ch channels ->
  (forall slot,
     slotField slot ch = lastMatching slot (ChannelNum ch) controls)
  /\ exists slot, slotField slot ch <> None.
Proof. intros. eapply GetPreampChannels_slots_holds; eauto. Qed.

Lemma GetPreampChannels_slots_witness :
  let gainB := mkControl 22 "Line In 1 Gain Capture Volume" ControlTypeInteger
                         1 0 (Some card0) 0 50 [] in
  GetPreampChannels memLib (fun _ _ => Ok [gain1; phantom1; gainB]) card0 ∅
  = Ok [mkPreamp 1 (Some gainB) (Some phantom1) None None None None None None None]
  /\ lastMatching SlotGain 1 [gain1; phantom1; gainB] = Some gainB.
Proof.
  intros gainB.
  assert (H : GetPreampChannels memLib (fun _ _ => Ok [gain1; phantom1; gainB])
                card0 ∅
              = Ok [mkPreamp 1 (Some gainB) (Some phantom1) None None None None
                             None None None])
    by (vm_compute; reflexivity).
  split; [exact H|].
  destruct (GetPreampChannels_slots memLib
              (fun _ _ => Ok [gain1; phantom1; gainB]) card0 ∅
              [gain1; phantom1; gainB] _
              (mkPreamp 1 (Some gainB) (Some phantom1) None None None None
                        None None None)
              eq_refl H (or_introl eq_refl)) as [Hs _].
  symmetry. exact (Hs SlotGain).
Defined.

Lemma findChannel_spec (channels : list PreampChannel) (n : Z) :
  match findChannel channels n with
  | Ok ch => In ch channels /\ ChannelNum ch = n
  | Err e => e = ErrChannelNotFound n /\ ~ In n (map ChannelNum channels)
  end.
Proof.
  unfold findChannel.
  destruct (List.find _ channels) as [ch|] eqn:E.
  - apply find_some in E as [Hin Hn]. apply Z.eqb_eq in Hn. auto.
  - split; [reflexivity|]. intros Hin.
    apply in_map_iff in Hin as (ch & Hn & Hin).
    pose proof (find_none _ _ E ch Hin) as H. cbv beta in H.
    apply Z.eqb_neq in H. contradiction.
Qed.

Lemma channelReturned_iff (controls : list Control) (n : Z) :
  In n (map ChannelNum (preampChannelsOf controls)) <-> channelReturned controls n.
Proof.
  rewrite preampChannelsOf_numbers, <- list_elem_of_In, list_elem_of_filter,
    elem_of_seqZ.
  unfold channelReturned. split; intros [H1 H2]; split; auto; lia.
Qed.

(** The channel found for a number, from the control list. *)
Lemma GetPreampChannel_found_iff_holds (lib : AlsaLib)
    (enumerateControls : alsaHandle -> Registry lib -> result (list Control))
    (c : Card) (n : Z) (r : Registry lib) (controls : list Control) :
  GetControls lib enumerateControls c r = Ok controls ->
  ((exists ch, GetPreampChannel lib enumerateControls c n r = Ok ch)
   <-> channelReturned controls n)
  /\ (forall ch,
        GetPreampChannel lib enumerateControls c n r = Ok ch ->
        ChannelNum ch = n
        /\ forall slot, slotField slot ch = lastMatching slot n controls)
  /\ (~ channelReturned controls n ->
      GetPreampChannel lib enumerateControls c n r = Err (ErrChannelNotFound n)).
Proof.
  intros Hctl.
  assert (Hch : GetPreampChannels lib enumerateControls c r
                = Ok (preampChannelsOf controls))
    by (unfold GetPreampChannels; now rewrite Hctl).
  unfold GetPreampChannel. rewrite Hch.
  pose proof (findChannel_spec (preampChannelsOf controls) n) as Hf.
  destruct (findChannel (preampChannelsOf controls) n) as [ch|e].
  - destruct Hf as [Hin Hn].
    assert (Hret : channelReturned controls n).
    { apply channelReturned_iff. rewrite <- Hn. now apply in_map. }
    split; [split; eauto|]. split; [|contradiction].
    intros ch' [= <-]. split; [exact Hn|]. rewrite <- Hn.
    apply (GetPreampChannels_slots_holds lib enumerateControls c r controls
             (preampChannelsOf controls) ch Hctl Hch Hin).
  - destruct Hf as [-> Hnot].
    rewrite channelReturned_iff in Hnot.
    split; [split; [intros [ch H]; discriminate|contradiction]|].
    split; [discriminate|reflexivity].
Qed.

(** X15. [GetPreampChannel] finds channel [n] exactly when [n] is a
    matched channel number between 1 and the number of distinct matched
    channel numbers plus ten; the channel it returns has number [n] and
    the slots of [GetPreampChannels]; otherwise it returns the not-found
    error, so never a channel numbered below 1. *)
Theorem GetPreampChannel_found_iff (lib : AlsaLib)
    (enumerateControls : alsaHandle -> Registry lib -> result (list Control))
    (c : Card) (n : Z) (r : Registry lib) (controls : list Control) :
  GetControls lib enumerateControls c r = Ok controls ->
  ((exists ch, GetPreampChannel lib enumerateControls c n r = Ok ch)
   <-> channelReturned controls n)
  /\ (forall ch,
        GetPreampChannel lib enumerateControls c n r = Ok ch ->
        ChannelNum ch = n
        /\ forall slot, slotField slot ch = lastMatching slot n controls)
  /\ (~ channelReturned controls n ->
      GetPreampChannel lib enumerateControls c n r = Err (ErrChannelNotFound n)).
Proof. intros. eapply GetPreampChannel_found_iff_holds; eauto. Qed.

Lemma GetPreampChannel_found_iff_witness :
  GetControls memLib (fun _ _ => Ok [gain12; gain1]) card0 ∅ = Ok [gain12; gain1]
  /\ channelReturned [gain12; gain1] 12
  /\ exists ch, GetPreampChannel memLib (fun _ _ => Ok [gain12; gain1]) card0 12 ∅
                = Ok ch.
Proof.
  assert (H : GetControls memLib (fun _ _ => Ok [gain12; gain1]) card0 ∅
              = Ok [gain12; gain1]) by reflexivity.
  assert (Hret : channelReturned [gain12; gain1] 12)
    by (vm_compute; split; [reflexivity|split; discriminate]).
  split; [exact H|]. split; [exact Hret|].
  exact (proj2 (proj1 (GetPreampChannel_found_iff memLib
                         (fun _ _ => Ok [gain12; gain1]) card0 12 ∅
                         [gain12; gain1] H)) Hret).
Defined.

(** X16. The preamp setters fail with the channel-not-found error when
    [GetPreampChannels] does not return the channel, and with the
    no-such-control error when it does but no control was taken for the
    slot; in both cases the registry is left as it was.  Otherwise they
    are [SetValue] on the last control taken for the slot, with the given
    gain, or with 1 for on and 0 for off. *)
Theorem preamp_setters (lib : AlsaLib)
    (enumerateControls : alsaHandle -> Registry lib -> result (list Control))
    (c : Card) (n gain : Z) (enabled : bool) (r : Registry lib)
    (controls : list Control) :
  GetControls lib enumerateControls c r = Ok controls ->
  SetPreampGain lib enumerateControls c n gain r
  = setterOutcome lib controls SlotGain "gain" n gain r
  /\ SetPreampPhantom lib enumerateControls c n enabled r
     = setterOutcome lib controls SlotPhantom "phantom power" n
                     (if enabled then 1 else 0) r
  /\ SetPreampAir lib enumerateControls c n enabled r
     = setterOutcome lib controls SlotAir "air" n (if enabled then 1 else 0) r
  /\ SetPreampPad lib enumerateControls c n enabled r
     = setterOutcome lib controls SlotPad "pad" n (if enabled then 1 else 0) r.
Proof.
  intros Hctl.
  destruct (GetPreampChannel_found_iff_holds lib enumerateControls c n r controls Hctl)
    as (Hiff & Hslots & Hnot).
  unfold SetPreampGain, SetPreampPhantom, SetPreampAir, SetPreampPad,
    setterOutcome, switchValue.
  destruct (decide (channelReturned controls n)) as [Hret | Hret].
  - apply Hiff in Hret as [ch Hch]. rewrite Hch.
    destruct (Hslots ch Hch) as [_ Hs].
    rewrite <- (Hs SlotGain), <- (Hs SlotPhantom), <- (Hs SlotAir),
      <- (Hs SlotPad).
    cbn [slotField]. unfold slotCall.
    repeat split.
    + now destruct (Gain ch).
    + now destruct (Phantom ch).
    + now destruct (Air ch).
    + now destruct (Pad ch).
  - rewrite (Hnot Hret). repeat split.
Qed.

Lemma preamp_setters_witness :
  SetPreampGain memLib (fun _ _ => Ok [gain1]) card0 1 40 (gainAt 5)
  = (gainAt 40, None)
  /\ SetPreampPhantom memLib (fun _ _ => Ok [gain1]) card0 1 true (gainAt 5)
     = (gainAt 5, Some (ErrNoSlot 1 "phantom power"))
  /\ SetPreampGain memLib (fun _ _ => Ok [gain1]) card0 2 40 (gainAt 5)
     = (gainAt 5, Some (ErrChannelNotFound 2)).
Proof.
  destruct (preamp_setters memLib (fun _ _ => Ok [gain1]) card0 1 40 true
              (gainAt 5) [gain1] eq_refl) as (Hg & Hp & _).
  destruct (preamp_setters memLib (fun _ _ => Ok [gain1]) card0 2 40 true
              (gainAt 5) [gain1] eq_refl) as (Hg2 & _).
  split; [|split].
  - rewrite Hg. vm_compute. reflexivity.
  - rewrite Hp. vm_compute. reflexivity.
  - rewrite Hg2. vm_compute. reflexivity.
Defined.

(** ** Control lookups *)

Lemma lower_byte_idem (c : ascii) : lower_byte (lower_byte c) = lower_byte c.
Proof. destruct c as [[] [] [] [] [] [] [] []]; reflexivity. Qed.

Lemma lower_byte_ascii (c : ascii) :
  (byte_val c <? 128) = true -> (byte_val (lower_byte c) <? 128) = true.
Proof. destruct c as [[] [] [] [] [] [] [] []]; vm_compute; auto. Qed.

Lemma isASCII_cons (c : ascii) (s : string) :
  isASCII (String c s) = (byte_val c <? 128) && isASCII s.
Proof. reflexivity. Qed.

Lemma isASCII_lower_bytes (s : string) :
  isASCII s = true -> isASCII (lower_bytes s) = true.
Proof.
  induction s as [|c s IH]; [reflexivity|].
  cbn [lower_bytes]. rewrite !isASCII_cons, !andb_true_iff.
  intros [Hc Hs]. split; [now apply lower_byte_ascii|now apply IH].
Qed.

Lemma lower_bytes_idem (s : string) :
  lower_bytes (lower_bytes s) = lower_bytes s.
Proof.
  induction s as [|c s IH]; [reflexivity|].
  cbn [lower_bytes]. now rewrite lower_byte_idem, IH.
Qed.

(** On ASCII text [strings.ToLower] maps the letters A to Z, and the
    tables of package [unicode] are not consulted. *)
Lemma ToLower_ascii {U : UnicodeTables} (s : string) :
  isASCII s = true -> ToLower s = lower_bytes s.
Proof. intros H. unfold ToLower. now rewrite H. Qed.

Lemma ToLower_idem {U : UnicodeTables} (s : string) :
  isASCII s = true -> ToLower (ToLower s) = ToLower s.
Proof.
  intros H. rewrite (ToLower_ascii s H).
  rewrite ToLower_ascii by now apply isASCII_lower_bytes.
  apply lower_bytes_idem.
Qed.

Lemma Contains_empty (s : string) : Contains s "" = true.
Proof. apply Contains_iff. exists "", s. reflexivity. Qed.

Lemma filter_all {A} (f : A -> bool) (l : list A) :
  (forall x, In x l -> f x = true) -> List.filter f l = l.
Proof.
  induction l as [|x l IH]; simpl; intros H; [reflexivity|].
  rewrite (H x) by now left. f_equal. apply IH. auto.
Qed.

(** X17. [FindControlsMatching] returns, in enumeration order, exactly
    the controls whose lower-cased name contains the lower-cased pattern,
    and fails exactly when there is none, lower case being that of
    [strings.ToLower] whatever the tables of package [unicode] hold; an
    ASCII pattern and its lower-case form select the same controls, and
    the empty pattern selects every control. *)
Theorem FindControlsMatching_spec {U : UnicodeTables} (lib : AlsaLib)
    (enumerateControls : alsaHandle -> Registry lib -> result (list Control))
    (c : Card) (pattern : string) (r : Registry lib) (controls : list Control) :
  GetControls lib enumerateControls c r = Ok controls ->
  let selected :=
    List.filter (fun ctl => Contains (ToLower (Name ctl)) (ToLower pattern))
                controls in
  (selected <> [] ->
   FindControlsMatching lib enumerateControls c pattern r = Found selected)
  /\ (selected = [] ->
      FindControlsMatching lib enumerateControls c pattern r
      = NotFound (ErrNoControlsMatching pattern))
  /\ (forall ctl,
        In ctl selected
        <-> In ctl controls /\ Substring (ToLower pattern) (ToLower (Name ctl)))
  /\ (isASCII pattern = true -> selected <> [] ->
      FindControlsMatching lib enumerateControls c (ToLower pattern) r
      = Found selected)
  /\ (controls <> [] ->
      FindControlsMatching lib enumerateControls c "" r = Found controls).
Proof.
  intros Hctl selected. unfold FindControlsMatching. rewrite Hctl.
  cbv zeta. fold selected.
  split; [|split; [|split; [|split]]].
  - intros Hne. destruct selected; [congruence|reflexivity].
  - now intros ->.
  - intros ctl. unfold selected. rewrite filter_In, Contains_iff. reflexivity.
  - intros Hascii Hne. rewrite (ToLower_idem pattern Hascii). fold selected.
    destruct selected; [congruence|reflexivity].
  - intros Hne. change (ToLower "") with "".
    rewrite filter_all by (intros; apply Contains_empty).
    destruct controls; [congruence|reflexivity].
Qed.

Lemma FindControlsMatching_spec_witness :
  GetControls memLib (fun _ _ => Ok [gain1; phantom1; enum5]) card0 ∅
  = Ok [gain1; phantom1; enum5]
  /\ FindControlsMatching (U := asciiTables) memLib (fun _ _ => Ok [gain1; phantom1; enum5]) card0
                          "LINE in" ∅
     = Found [gain1; phantom1].
Proof.
  split; [reflexivity|].
  exact (proj1 (FindControlsMatching_spec (U := asciiTables) memLib
                  (fun _ _ => Ok [gain1; phantom1; enum5]) card0 "LINE in" ∅
                  [gain1; phantom1; enum5] eq_refl) ltac:(discriminate)).
Defined.

Section ControlIDs.

Variable lib : AlsaLib.
Variable enumerateControls : alsaHandle -> Registry lib -> result (list Control).
Variable InterfaceText : Control -> string.
Variable Device : Control -> Z.
Variable Subdevice : Control -> Z.

Lemma FullID_looks_like_ID (ctl : Control) :
  Contains (FullID InterfaceText Device Subdevice ctl) ":" = true
  /\ Contains (FullID InterfaceText Device Subdevice ctl) "/" = true.
Proof.
  unfold FullID. split; apply Contains_iff.
  - eexists (InterfaceText ctl), _. reflexivity.
  - eexists (InterfaceText ctl +:+ ":" +:+ format_d (Device ctl) +:+ "."
             +:+ format_d (Subdevice ctl)), _.
    rewrite !append_assoc. reflexivity.
Qed.

Lemma find_first_In {A} (f : A -> bool) (l : list A) (x : A) :
  In x l -> f x = true -> exists y, List.find f l = Some y.
Proof.
  intros Hin Hf. destruct (List.find f l) as [y|] eqn:E; [eauto|].
  pose proof (find_none _ _ E x Hin). congruence.
Qed.

(** X18. The identifier printed by [FullID] leads back to the control:
    for a control of the card, [FindControl] on its [FullID] takes the
    identifier path and returns a control of the card with that same
    identifier, the first in enumeration order. *)
Theorem FindControl_FullID_round_trip (c : Card) (r : Registry lib)
    (controls : list Control) (ctl : Control) :
  GetControls lib enumerateControls c r = Ok controls ->
  In ctl controls ->
  exists ctl',
    FindControl lib enumerateControls InterfaceText Device Subdevice c
                (FullID InterfaceText Device Subdevice ctl) r = Found ctl'
    /\ In ctl' controls
    /\ FullID InterfaceText Device Subdevice ctl'
       = FullID InterfaceText Device Subdevice ctl
    /\ List.find (fun x => String.eqb (FullID InterfaceText Device Subdevice x)
                                      (FullID InterfaceText Device Subdevice ctl))
                 controls = Some ctl'.
Proof.
  intros Hctl Hin. unfold FindControl, FindControlByID.
  destruct (FullID_looks_like_ID ctl) as [-> ->]. cbn [andb]. rewrite Hctl.
  destruct (find_first_In
              (fun x => String.eqb (FullID InterfaceText Device Subdevice x)
                                   (FullID InterfaceText Device Subdevice ctl))
              controls ctl Hin (String.eqb_refl _)) as [ctl' Hfind].
  rewrite Hfind. exists ctl'.
  pose proof (find_some _ _ Hfind) as [Hin' Heq].
  apply String.eqb_eq in Heq. auto.
Qed.

(** X19. The lookup of the [get] and [set] commands: whatever it finds is
    a control of the card that bears the given text as its name, as its
    identifier or as a prefix of its name; and it finds a control
    whenever some control's name starts with the text. *)
Theorem lookupControl_spec (c : Card) (name : string) (r : Registry lib)
    (controls : list Control) :
  GetControls lib enumerateControls c r = Ok controls ->
  (forall ctl,
     lookupControl lib enumerateControls InterfaceText Device Subdevice c name r
     = Found ctl ->
     In ctl controls
     /\ (Name ctl = name
         \/ FullID InterfaceText Device Subdevice ctl = name
         \/ HasPrefix (Name ctl) name = true))
  /\ (forall ctl,
        In ctl controls -> HasPrefix (Name ctl) name = true ->
        exists ctl',
          lookupControl lib enumerateControls InterfaceText Device Subdevice
                        c name r = Found ctl').
Proof.
  intros Hctl. unfold lookupControl, FindControl, FindControlByID,
    FindControlByPrefix. rewrite Hctl.
  destruct (List.find (fun x => String.eqb
                                  (FullID InterfaceText Device Subdevice x) name)
                      controls) as [byID|] eqn:EID;
    destruct (List.find (fun x => String.eqb (Name x) name) controls)
      as [byName|] eqn:EName;
    destruct (List.find (fun x => HasPrefix (Name x) name) controls)
      as [byPrefix|] eqn:EPrefix;
    try (apply find_some in EID as [HinID HeqID]; apply String.eqb_eq in HeqID);
    try (apply find_some in EName as [HinName HeqName];
         apply String.eqb_eq in HeqName);
    try (pose proof (find_some _ _ EPrefix) as [HinPrefix HeqPrefix]);
    destruct (Contains name ":" && Contains name "/");
    (split;
     [ intros ctl H; first [discriminate H | injection H as <-; auto]
     | intros ctl Hin Hp; first [ eauto; fail
                                | pose proof (find_none _ _ EPrefix ctl Hin);
                                  cbv beta in *; congruence ] ]).
Qed.

End ControlIDs.

Lemma lookupControl_spec_witness :
  GetControls memLib (fun _ _ => Ok [gain1; phantom1]) card0 ∅
  = Ok [gain1; phantom1]
  /\ In phantom1 [gain1; phantom1]
  /\ HasPrefix (Name phantom1) "Line In 1 Ph" = true
  /\ exists ctl',
       lookupControl memLib (fun _ _ => Ok [gain1; phantom1])
                     (fun _ => "mixer") (fun _ => 0) (fun _ => 0)
                     card0 "Line In 1 Ph" ∅ = Found ctl'.
Proof.
  assert (Hin : In phantom1 [gain1; phantom1]) by (right; now left).
  split; [reflexivity|]. split; [exact Hin|]. split; [reflexivity|].
  exact (proj2 (lookupControl_spec memLib (fun _ _ => Ok [gain1; phantom1])
                  (fun _ => "mixer") (fun _ => 0) (fun _ => 0)
                  card0 "Line In 1 Ph" ∅ [gain1; phantom1] eq_refl)
               phantom1 Hin eq_refl).
Defined.

Lemma FindControl_FullID_round_trip_witness :
  In phantom1 [gain1; phantom1]
  /\ FullID (fun _ => "mixer") (fun _ => 0) (fun _ => 0) phantom1
     = "mixer:0.0/Line In 1 Phantom Power Capture Switch[0]"
  /\ exists ctl',
       FindControl memLib (fun _ _ => Ok [gain1; phantom1])
                   (fun _ => "mixer") (fun _ => 0) (fun _ => 0) card0
                   "mixer:0.0/Line In 1 Phantom Power Capture Switch[0]" ∅
       = Found ctl'.
Proof.
  assert (Hin : In phantom1 [gain1; phantom1]) by (right; now left).
  split; [exact Hin|]. split; [reflexivity|].
  destruct (FindControl_FullID_round_trip memLib
              (fun _ _ => Ok [gain1; phantom1])
              (fun _ => "mixer") (fun _ => 0) (fun _ => 0) card0 ∅
              [gain1; phantom1] phantom1 eq_refl Hin) as (ctl' & H & _).
  exists ctl'. exact H.
Defined.

(** ** Cards *)

Section CardFacts.

Context {U : UnicodeTables}.
Variable getCardInfo : Z -> result string.
Variable openCard : Z -> result alsaHandle.

Lemma listCard_In (i : Z) (card : Card) :
  In card (listCard getCardInfo i)
  <-> Number card = i /\ handle card = None
      /\ getCardInfo i = Ok (CardName card)
      /\ isFocusriteName (ToLower (CardName card)) = true.
Proof.
  unfold listCard. destruct (getCardInfo i) as [name|e] eqn:E.
  - destruct (isFocusriteName (ToLower name)) eqn:F; simpl.
    + split.
      * intros [<- | []]. simpl. auto.
      * intros (Hn & Hh & [= Hname] & _). left.
        destruct card as [n nm h]; simpl in *. now subst.
    + split; [intros []|]. intros (_ & _ & [= <-] & H). congruence.
  - simpl. split; [intros []|]. intros (_ & _ & H & _). discriminate.
Qed.

(** The cards of the loop of [ListCards]. *)
Lemma listed_In (card : Card) :
  In card (concat (map (listCard getCardInfo) (seqZ 0 8)))
  <-> 0 <= Number card <= 7 /\ handle card = None
      /\ getCardInfo (Number card) = Ok (CardName card)
      /\ isFocusriteName (ToLower (CardName card)) = true.
Proof.
  rewrite in_concat. split.
  - intros (l & Hl & Hc). apply in_map_iff in Hl as (i & <- & Hi).
    apply listCard_In in Hc as (Hn & Hh & Hi' & Hf). subst i.
    apply list_elem_of_In, elem_of_seqZ in Hi. repeat split; auto; lia.
  - intros (Hn & Hh & Hi & Hf). exists (listCard getCardInfo (Number card)).
    split.
    + apply in_map. apply list_elem_of_In, elem_of_seqZ. lia.
    + apply listCard_In. auto.
Qed.

Lemma ListCards_Found (cards : list Card) :
  ListCards getCardInfo = Found cards ->
  cards = concat (map (listCard getCardInfo) (seqZ 0 8)) /\ cards <> [].
Proof.
  unfold ListCards.
  destruct (concat (map (listCard getCardInfo) (seqZ 0 8))) as [|c0 cs];
    [discriminate|].
  intros [= <-]. split; [reflexivity|discriminate].
Qed.

Lemma ListCards_listed (i : Z) (name : string) :
  0 <= i <= 7 -> getCardInfo i = Ok name ->
  isFocusriteName (ToLower name) = true ->
  exists cards,
    ListCards getCardInfo = Found cards /\ In (mkCard i name None) cards.
Proof.
  intros Hi Hname Hf.
  assert (Hin : In (mkCard i name None)
                   (concat (map (listCard getCardInfo) (seqZ 0 8))))
    by (apply listed_In; cbn; auto).
  unfold ListCards.
  destruct (concat (map (listCard getCardInfo) (seqZ 0 8))) as [|c0 cs];
    [destruct Hin|].
  eauto.
Qed.

(** X20. [ListCards] returns the cards numbered 0 to 7 whose name can be
    read and contains "scarlett", "focusrite", "vocaster" or "clarett"
    once lower-cased, in ascending order of number: it succeeds as soon
    as there is one such card, and fails with the no-devices error when
    there is none.  The cards it returns are not open: [GetControls] on
    any of them fails with "card not open". *)
Theorem ListCards_spec :
  (forall i name,
     0 <= i <= 7 -> getCardInfo i = Ok name ->
     isFocusriteName (ToLower name) = true ->
     exists cards,
       ListCards getCardInfo = Found cards /\ In (mkCard i name None) cards)
  /\ ((forall i name,
         0 <= i <= 7 -> getCardInfo i = Ok name ->
         isFocusriteName (ToLower name) = false) ->
      ListCards getCardInfo = NotFound ErrNoDevices)
  /\ (forall cards,
        ListCards getCardInfo = Found cards ->
        (forall card,
           In card cards
           <-> 0 <= Number card <= 7 /\ handle card = None
               /\ getCardInfo (Number card) = Ok (CardName card)
               /\ isFocusriteName (ToLower (CardName card)) = true)
        /\ sublist (map Number cards) (seqZ 0 8)
        /\ (forall (lib : AlsaLib) enumerateControls (r : Registry lib) card,
              In card cards ->
              GetControls lib enumerateControls card r = Err ErrCardNotOpen)).
Proof.
  split; [exact ListCards_listed|]. split.
  - intros Hnone. unfold ListCards.
    destruct (concat (map (listCard getCardInfo) (seqZ 0 8))) as [|c0 cs] eqn:E;
      [reflexivity|].
    exfalso.
    assert (Hin : In c0 (concat (map (listCard getCardInfo) (seqZ 0 8))))
      by (rewrite E; now left).
    apply listed_In in Hin as (Hr & _ & Hname & Hf).
    rewrite (Hnone _ _ Hr Hname) in Hf. discriminate.
  - intros cards Hcards. apply ListCards_Found in Hcards as [-> _].
    split; [exact listed_In|]. split.
    + generalize (seqZ 0 8). intros l.
      induction l as [|i l IH]; [constructor|].
      cbn [map concat]. rewrite map_app. unfold listCard at 1.
      destruct (getCardInfo i); [|cbn; now apply sublist_cons].
      destruct (isFocusriteName _); [|cbn; now apply sublist_cons].
      cbn. now apply sublist_skip.
    + intros lib enumerateControls r card Hc.
      apply listed_In in Hc as (_ & Hh & _).
      unfold GetControls. now rewrite Hh.
Qed.

(** The first card of the listing that passes a test: the cards before
    it, in order of number, do not pass. *)
Lemma find_listed (p : Card -> bool) (k : nat) (start : Z) (card : Card) :
  List.find p (concat (map (listCard getCardInfo) (seqZ start (Z.of_nat k))))
  = Some card ->
  start <= Number card < start + Z.of_nat k
  /\ In card (listCard getCardInfo (Number card))
  /\ p card = true
  /\ (forall i c', start <= i < Number card ->
        In c' (listCard getCardInfo i) -> p c' = false).
Proof.
  revert start. induction k as [|k IH]; intros start.
  - simpl. discriminate.
  - rewrite seqZ_cons by lia.
    replace (Z.pred (Z.of_nat (S k))) with (Z.of_nat k) by lia.
    cbn [map concat].
    assert (Hrest :
      List.find p (concat (map (listCard getCardInfo)
                               (seqZ (Z.succ start) (Z.of_nat k)))) = Some card ->
      (forall c', In c' (listCard getCardInfo start) -> p c' = false) ->
      start <= Number card < start + Z.of_nat (S k)
      /\ In card (listCard getCardInfo (Number card))
      /\ p card = true
      /\ (forall i c', start <= i < Number card ->
            In c' (listCard getCardInfo i) -> p c' = false)).
    { intros H Hstart. apply IH in H as (Hr & Hin & Hp & Hbefore).
      split; [lia|]. split; [exact Hin|]. split; [exact Hp|].
      intros i c' Hi Hc'. destruct (Z.eq_dec i start) as [->|Hne].
      - now apply Hstart.
      - apply (Hbefore i); [lia|exact Hc']. }
    unfold listCard at 1.
    destruct (getCardInfo start) as [name|e] eqn:E.
    + destruct (isFocusriteName (ToLower name)) eqn:F.
      * cbn [app List.find].
        destruct (p (mkCard start name None)) eqn:P.
        -- intros [= <-]. cbn [Number]. split; [lia|].
           split; [unfold listCard; rewrite E, F; now left|].
           split; [exact P|]. intros i c' Hi. lia.
        -- intros H. apply Hrest; [exact H|].
           intros c' Hc'. unfold listCard in Hc'. rewrite E, F in Hc'.
           destruct Hc' as [<- | []]. exact P.
      * cbn [app]. intros H. apply Hrest; [exact H|].
        intros c' Hc'. unfold listCard in Hc'. rewrite E, F in Hc'.
        destruct Hc'.
    + cbn [app]. intros H. apply Hrest; [exact H|].
      intros c' Hc'. unfold listCard in Hc'. rewrite E in Hc'. destruct Hc'.
Qed.

Lemma find_exists {A} (p : A -> bool) (l : list A) (x : A) :
  In x l -> p x = true -> exists y, List.find p l = Some y.
Proof.
  intros Hin Hp. destruct (List.find p l) as [y|] eqn:E; [eauto|].
  rewrite (find_none _ _ E x Hin) in Hp. discriminate.
Qed.

Lemma opened_Found (cardNum : Z) (card : Card) :
  opened getCardInfo openCard cardNum = Found card ->
  Number card = cardNum
  /\ (exists h, openCard cardNum = Ok h /\ handle card = Some h)
  /\ getCardInfo cardNum = Ok (CardName card).
Proof.
  unfold opened, OpenCard.
  destruct (openCard cardNum) as [h|e]; [|discriminate].
  destruct (getCardInfo cardNum) as [name|e]; [|discriminate].
  intros [= <-]. cbn. eauto.
Qed.

Lemma opened_listed (i : Z) (name : string) :
  getCardInfo i = Ok name ->
  opened getCardInfo openCard i
  = match openCard i with
    | Ok h => Found (mkCard i name (Some h))
    | Err e => NotFound (Core e)
    end.
Proof.
  intros Hname. unfold opened, OpenCard. rewrite Hname.
  now destruct (openCard i).
Qed.

(** X21. [FindCard] opens the card it selects: for an identifier that
    starts with a number, the listed card of that number; otherwise the
    listed card of least number whose lower-cased name contains the
    lower-cased identifier.  The result is the error of [openCard] when
    the card cannot be opened, and else the open card, with the handle
    that [openCard] gave.  So a card that [FindCard] returns is open, its
    number is between 0 and 7 and its name passes the filter of
    [ListCards]. *)
Theorem FindCard_found (identifier : string) :
  (forall card,
     FindCard getCardInfo openCard identifier = Found card ->
     (exists h, openCard (Number card) = Ok h /\ handle card = Some h)
     /\ 0 <= Number card <= 7
     /\ getCardInfo (Number card) = Ok (CardName card)
     /\ isFocusriteName (ToLower (CardName card)) = true
     /\ match Sscanf_d identifier with
        | Some cardNum => Number card = cardNum
        | None =>
            Contains (ToLower (CardName card)) (ToLower identifier) = true
            /\ (forall i name,
                  0 <= i < Number card ->
                  getCardInfo i = Ok name ->
                  isFocusriteName (ToLower name) = true ->
                  Contains (ToLower name) (ToLower identifier) = false)
        end)
  /\ (forall i name,
        0 <= i <= 7 -> getCardInfo i = Ok name ->
        isFocusriteName (ToLower name) = true ->
        match Sscanf_d identifier with
        | Some cardNum => cardNum = i
        | None =>
            Contains (ToLower name) (ToLower identifier) = true
            /\ (forall j name',
                  0 <= j < i -> getCardInfo j = Ok name' ->
                  isFocusriteName (ToLower name') = true ->
                  Contains (ToLower name') (ToLower identifier) = false)
        end ->
        FindCard getCardInfo openCard identifier
        = match openCard i with
          | Ok h => Found (mkCard i name (Some h))
          | Err e => NotFound (Core e)
          end).
Proof.
  split.
  - intros card. unfold FindCard, ListCards.
    destruct (concat (map (listCard getCardInfo) (seqZ 0 8))) as [|c0 cs] eqn:E;
      [discriminate|].
    rewrite <- E. clear E c0 cs.
    assert (Hopen : forall (p : Card -> bool) listed,
      List.find p (concat (map (listCard getCardInfo) (seqZ 0 (Z.of_nat 8))))
      = Some listed ->
      opened getCardInfo openCard (Number listed) = Found card ->
      (exists h, openCard (Number card) = Ok h /\ handle card = Some h)
      /\ 0 <= Number card <= 7
      /\ getCardInfo (Number card) = Ok (CardName card)
      /\ isFocusriteName (ToLower (CardName card)) = true
      /\ Number card = Number listed
      /\ p listed = true
      /\ CardName listed = CardName card
      /\ (forall i c', 0 <= i < Number card ->
            In c' (listCard getCardInfo i) -> p c' = false)).
    { intros p listed Hfind Hop.
      apply find_listed in Hfind as (Hr & Hin & Hp & Hbefore).
      apply opened_Found in Hop as (Hn & Hh & Hname).
      apply listCard_In in Hin as (_ & _ & Hname' & Hf).
      assert (Heq : CardName listed = CardName card) by congruence.
      rewrite Hn. rewrite Heq in Hf.
      split; [exact Hh|]. split; [lia|]. split; [exact Hname|].
      split; [exact Hf|]. split; [reflexivity|]. split; [exact Hp|].
      split; [exact Heq|]. exact Hbefore. }
    change 8 with (Z.of_nat 8).
    destruct (Sscanf_d identifier) as [cardNum|].
    + destruct (List.find (fun c => Number c =? cardNum) _) as [listed|] eqn:F;
        [|discriminate].
      intros Hop.
      destruct (Hopen _ _ F Hop) as (Hh & Hr & Hname & Hf & Hn & Hp & _).
      repeat (split; [assumption|]). lia.
    + destruct (List.find
                  (fun c => Contains (ToLower (CardName c)) (ToLower identifier))
                  _) as [listed|] eqn:F; [|discriminate].
      intros Hop.
      destruct (Hopen _ _ F Hop) as (Hh & Hr & Hname & Hf & Hn & Hp & Heq & Hb).
      repeat (split; [assumption|]). split.
      * cbv beta in Hp. now rewrite Heq in Hp.
      * intros i name Hi Hinfo Hfilter.
        apply (Hb i (mkCard i name None) Hi).
        apply listCard_In. cbn. auto.
  - intros i name Hi Hname Hf Hsel.
    destruct (ListCards_listed i name Hi Hname Hf) as (cards & Hcards & Hin).
    unfold FindCard. rewrite Hcards.
    apply ListCards_Found in Hcards as [-> _].
    rewrite <- (opened_listed i name Hname).
    destruct (Sscanf_d identifier) as [cardNum|].
    + subst cardNum.
      destruct (find_exists (fun c => Number c =? i) _ _ Hin (Z.eqb_refl i))
        as [listed Hfind].
      rewrite Hfind. apply find_some in Hfind as [_ Hn].
      apply Z.eqb_eq in Hn. now rewrite Hn.
    + destruct Hsel as [Hc Hfirst].
      destruct (find_exists
                  (fun c => Contains (ToLower (CardName c)) (ToLower identifier))
                  _ _ Hin Hc) as [listed Hfind].
      rewrite Hfind. change 8 with (Z.of_nat 8) in Hfind.
      apply find_listed in Hfind as (Hr & Hl & Hp & Hbefore).
      apply listCard_In in Hl as (_ & _ & Hlname & Hlf).
      destruct (Z.lt_trichotomy (Number listed) i) as [Hlt | [Heq | Hgt]].
      * rewrite (Hfirst (Number listed) (CardName listed)) in Hp;
          [discriminate|lia|exact Hlname|exact Hlf].
      * now rewrite Heq.
      * assert (H : Contains (ToLower name) (ToLower identifier) = false).
        { apply (Hbefore i (mkCard i name None)); [lia|].
          apply listCard_In. cbn. auto. }
        congruence.
Qed.

(** X22. An identifier that starts with a number is looked up by number
    only.  When no listed card has that number [FindCard] fails, with
    "card <n> not found" if any card is listed, whatever the names of the
    listed cards are: an identifier such as "18i20" never selects a card
    by name. *)
Theorem FindCard_number_only (identifier : string) (cardNum : Z) :
  Sscanf_d identifier = Some cardNum ->
  ~ (0 <= cardNum <= 7
     /\ exists name, getCardInfo cardNum = Ok name
                     /\ isFocusriteName (ToLower name) = true) ->
  FindCard getCardInfo openCard identifier
  = match ListCards getCardInfo with
    | Found _ => NotFound (ErrCardNotFound cardNum)
    | NotFound e => NotFound e
    end.
Proof.
  intros Hscan Hnot. unfold FindCard.
  destruct (ListCards getCardInfo) as [cards|e] eqn:L; [|reflexivity].
  rewrite Hscan.
  destruct (List.find (fun c => Number c =? cardNum) cards) as [listed|] eqn:F;
    [|reflexivity].
  exfalso. apply Hnot.
  apply find_some in F as (Hin & Hn). apply Z.eqb_eq in Hn.
  apply ListCards_Found in L as [-> _].
  apply listed_In in Hin as (Hr & _ & Hname & Hf).
  split; [lia|]. exists (CardName listed). split; [congruence|exact Hf].
Qed.

End CardFacts.

Lemma ListCards_spec_witness :
  exists cards,
    ListCards (U := asciiTables) twoCards = Found cards
    /\ In (mkCard 1 "Scarlett 18i20 USB" None) cards.
Proof.
  apply (proj1 (ListCards_spec (U := asciiTables) twoCards)
               1 "Scarlett 18i20 USB"); [lia|reflexivity|reflexivity].
Defined.

Lemma FindCard_found_witness :
  FindCard (U := asciiTables) twoCards openAny "scarlett"
  = Found (mkCard 1 "Scarlett 18i20 USB" (Some (mkHandle 1 [3]))).
Proof.
  apply (proj2 (FindCard_found (U := asciiTables) twoCards openAny "scarlett")
               1 "Scarlett 18i20 USB"); [lia|reflexivity|reflexivity|].
  split; [reflexivity|].
  intros j name' Hj Hname' Hf'.
  assert (j = 0) as -> by lia. vm_compute in Hname'. now injection Hname' as <-.
Defined.

Lemma FindCard_number_only_witness :
  Sscanf_d "18i20" = Some 18
  /\ FindCard (U := asciiTables) twoCards openAny "18i20"
     = NotFound (ErrCardNotFound 18).
Proof.
  split; [reflexivity|].
  apply (FindCard_number_only (U := asciiTables) twoCards openAny "18i20" 18);
    [reflexivity|].
  intros [H _]. lia.
Defined.

(** ** Names read from the C library *)

(** X23. [cstrlen] is the index of the first zero byte of the buffer, and
    the length of the buffer when it holds none: the bytes before that
    index are not zero, and the byte at it, if there is one, is zero. *)
Theorem cstrlen_spec (b : list Byte.byte) :
  (cstrlen b <= length b)%nat
  /\ Forall (fun c => c <> Byte.x00) (firstn (cstrlen b) b)
  /\ match nth_error b (cstrlen b) with
     | Some c => c = Byte.x00
     | None => cstrlen b = length b
     end.
Proof.
  induction b as [|c rest (Hle & Hpre & Hat)].
  - repeat split; constructor.
  - cbn [cstrlen]. destruct (Byte.eqb c Byte.x00) eqn:E.
    + apply Byte.byte_dec_bl in E. subst c. cbn.
      split; [lia|]. split; [constructor|reflexivity].
    + cbn [length firstn nth_error]. split; [lia|]. split.
      * constructor; [|exact Hpre]. intros ->.
        now rewrite Byte.byte_dec_lb in E.
      * destruct (nth_error rest (cstrlen rest)); [exact Hat|now f_equal].
Qed.

(** ** Change monitor, continued *)

Section MonitorRuns.

Variable lib : AlsaLib.

Lemma learned_unreadable last (r : Registry lib) controls ctl e :
  NoDup (map NumID controls) -> In ctl controls ->
  GetValue lib ctl r = Err e ->
  learned lib last r controls !! NumID ctl = last !! NumID ctl.
Proof.
  revert last; induction controls as [|c0 controls IH]; intros last Hnd Hin Hv;
    [destruct Hin|].
  simpl in Hnd. apply NoDup_cons in Hnd as [Hfresh Hnd].
  rewrite list_elem_of_In in Hfresh.
  cbn [learned fold_left]. destruct Hin as [-> | Hin].
  - rewrite Hv. now apply learned_other.
  - fold (learned lib (match GetValue lib c0 r with
                       | Ok value => <[NumID c0 := value]> last
                       | Err _ => last
                       end) r controls).
    rewrite IH by assumption.
    destruct (GetValue lib c0 r); [|reflexivity].
    apply lookup_insert_ne. intros Heq. apply Hfresh. rewrite Heq.
    now apply in_map.
Qed.

(** Handling the same registry a second time changes nothing. *)
Lemma learned_again last (r : Registry lib) controls :
  NoDup (map NumID controls) ->
  learned lib (learned lib last r controls) r controls
  = learned lib last r controls.
Proof.
  intros Hnd. apply map_eq. intros k.
  destruct (in_dec Z.eq_dec k (map NumID controls)) as [Hin|Hout].
  - apply in_map_iff in Hin as (ctl & <- & Hin).
    destruct (GetValue lib ctl r) as [value|e] eqn:Hv.
    + now rewrite !(learned_lookup lib _ r controls ctl value).
    + now rewrite (learned_unreadable _ r controls ctl e).
  - now rewrite learned_other.
Qed.

Lemma reported_again last (r : Registry lib) controls :
  NoDup (map NumID controls) ->
  reported lib (learned lib last r controls) r controls = [].
Proof.
  intros Hnd. unfold reported.
  assert (H : forall ctl, In ctl controls ->
                fires lib (learned lib last r controls) r ctl = false).
  { intros ctl Hin. unfold fires.
    destruct (GetValue lib ctl r) as [value|e] eqn:Hv; [|reflexivity].
    rewrite (learned_lookup lib _ r controls ctl value) by assumption.
    now rewrite bool_decide_eq_true_2. }
  revert H. generalize (fires lib (learned lib last r controls) r).
  clear Hnd. intros f H. induction controls as [|c0 l IH]; [reflexivity|].
  cbn [List.filter]. rewrite (H c0) by now left.
  apply IH. intros ctl Hin. apply H. now right.
Qed.

(** The callback of [WatchWithDisplay] never fails. *)
Lemma deliver_display controls (events : list (Registry lib)) last printed :
  NoDup (map NumID controls) ->
  exists table printed',
    deliver lib (checkControls lib (displayChange lib) controls) events
            (last, printed)
    = ((table, printed'), None).
Proof.
  intros Hnd. revert last printed.
  induction events as [|r events IH]; intros last printed.
  - cbn. eauto.
  - cbn [deliver]. rewrite checkControls_display by exact Hnd. apply IH.
Qed.

(** X24. When no two controls share a [NumID], an event at which the
    registry is as it was at the event before prints nothing and leaves
    the table [lastUpdate] as it is, after any run of events: watching a
    run that ends with the same registry twice gives the table and the
    lines of watching the run that ends with it once, and no error. *)
Theorem WatchWithDisplay_unchanged_is_silent
    (enumerateControls : alsaHandle -> Registry lib -> result (list Control))
    (c : Card) (r0 : Registry lib) (events : list (Registry lib))
    (r : Registry lib) (controls : list Control) :
  GetControls lib enumerateControls c r0 = Ok controls ->
  (exists h, handle c = Some h /\ pollFds h <> []) ->
  NoDup (map NumID controls) ->
  WatchWithDisplay lib enumerateControls c r0 (events ++ [r; r])
  = WatchWithDisplay lib enumerateControls c r0 (events ++ [r])
  /\ snd (WatchWithDisplay lib enumerateControls c r0 (events ++ [r])) = None.
Proof.
  intros Hctl (h & Hh & Hfds) Hnd.
  unfold WatchWithDisplay, WatchControls, Watch. rewrite Hctl, Hh.
  destruct (pollFds h) as [|fd fds]; [congruence|].
  rewrite !deliver_app.
  destruct (deliver_display controls events ∅ [] Hnd) as (table & printed & ->).
  cbn [deliver]. rewrite !checkControls_display by exact Hnd.
  rewrite learned_again, reported_again by exact Hnd.
  cbn [map snd]. now rewrite app_nil_r.
Qed.

(** X25. An error of the callback ends [Watch]: the events after it are
    not delivered, and the error and the state of the callback at that
    moment are what [Watch] returns. *)
Theorem Watch_stops_at_first_error {S : Type} (c : Card)
    (callback : Registry lib -> S -> S * option Error)
    (events later : list (Registry lib)) (s s' : S) (e : Error) :
  Watch lib c callback events s = (s', Some e) ->
  Watch lib c callback (events ++ later) s = (s', Some e).
Proof.
  unfold Watch. destruct (handle c) as [h|]; [|auto].
  destruct (pollFds h) as [|fd fds]; [auto|].
  intros H. now rewrite deliver_app, H.
Qed.

End MonitorRuns.

Lemma WatchWithDisplay_unchanged_is_silent_witness :
  GetControls memLib (fun _ _ => Ok [gain1]) card0 (gainAt 5) = Ok [gain1]
  /\ (exists h, handle card0 = Some h /\ pollFds h <> [])
  /\ NoDup (map NumID [gain1])
  /\ WatchWithDisplay memLib (fun _ _ => Ok [gain1]) card0 (gainAt 5)
                      ([gainAt 5] ++ [gainAt 6; gainAt 6])
     = WatchWithDisplay memLib (fun _ _ => Ok [gain1]) card0 (gainAt 5)
                        ([gainAt 5] ++ [gainAt 6]).
Proof.
  assert (H1 : GetControls memLib (fun _ _ => Ok [gain1]) card0 (gainAt 5)
               = Ok [gain1]) by reflexivity.
  assert (H2 : exists h, handle card0 = Some h /\ pollFds h <> [])
    by (exists handle0; split; [reflexivity|discriminate]).
  assert (H3 : NoDup (map NumID [gain1])) by apply NoDup_singleton.
  split; [exact H1|]. split; [exact H2|]. split; [exact H3|].
  exact (proj1 (WatchWithDisplay_unchanged_is_silent memLib
                  (fun _ _ => Ok [gain1]) card0 (gainAt 5) [gainAt 5]
                  (gainAt 6) [gain1] H1 H2 H3)).
Defined.

Lemma Watch_stops_at_first_error_witness :
  Watch memLib card0 failSecond [gainAt 5; gainAt 6] 0%nat
  = (2%nat, Some (ErrInvalidInteger "stop"))
  /\ Watch memLib card0 failSecond ([gainAt 5; gainAt 6] ++ [gainAt 7]) 0%nat
     = (2%nat, Some (ErrInvalidInteger "stop")).
Proof.
  split; [reflexivity|].
  apply (Watch_stops_at_first_error memLib card0 failSecond
           [gainAt 5; gainAt 6] [gainAt 7] 0%nat 2%nat).
  reflexivity.
Defined.

(** ** Display names of sinks *)

Lemma substring_all (s : string) : String.substring 0 (String.length s) s = s.
Proof. induction s as [|c s IH]; [reflexivity|]. cbn. now rewrite IH. Qed.

Lemma substring_app (a b : string) (m : nat) :
  String.substring (String.length a) m (a +:+ b) = String.substring 0 m b.
Proof. induction a as [|c a IH]; [reflexivity|]. cbn. exact IH. Qed.

Lemma take_substring (n : nat) (s : string) :
  (n <= String.length s)%nat ->
  s = take_str n s +:+ String.substring n (String.length s - n) s.
Proof.
  revert s; induction n as [|n IH]; intros s Hn.
  - cbn [take_str]. rewrite Nat.sub_0_r, substring_all.
    destruct s; reflexivity.
  - destruct s as [|c s]; [cbn in Hn; lia|].
    cbn in Hn. cbn. f_equal. apply IH. lia.
Qed.

Lemma take_str_length (n : nat) (s : string) :
  String.length (take_str n s) = Nat.min n (String.length s).
Proof.
  revert s; induction n as [|n IH]; intros [|c s]; cbn; try reflexivity.
  now rewrite IH.
Qed.

Lemma HasSuffix_true (s suffix : string) :
  HasSuffix s suffix = true ->
  s = take_str (String.length s - String.length suffix) s +:+ suffix.
Proof.
  unfold HasSuffix. intros H. apply andb_true_iff in H as [Hlen Heq].
  apply Nat.leb_le in Hlen. apply String.eqb_eq in Heq.
  assert (H : (String.length s - String.length suffix <= String.length s)%nat)
    by lia.
  apply take_substring in H.
  replace (String.length s - (String.length s - String.length suffix))%nat
    with (String.length suffix) in H by lia.
  now rewrite Heq in H.
Qed.

Lemma HasSuffix_app (base suffix : string) :
  HasSuffix (base +:+ suffix) suffix = true.
Proof.
  unfold HasSuffix. rewrite append_length. apply andb_true_iff. split.
  - apply Nat.leb_le. lia.
  - replace (String.length base + String.length suffix
             - String.length suffix)%nat with (String.length base) by lia.
    rewrite substring_app, substring_all. apply String.eqb_refl.
Qed.

Lemma TrimSuffix_app (base suffix : string) :
  TrimSuffix (base +:+ suffix) suffix = base.
Proof.
  unfold TrimSuffix. rewrite HasSuffix_app, append_length.
  replace (String.length base + String.length suffix
           - String.length suffix)%nat with (String.length base) by lia.
  apply take_str_app.
Qed.

(** Two ends of one string that have the same length are equal. *)
Lemma append_cancel_r (a b s t : string) :
  a +:+ s = b +:+ t -> String.length s = String.length t -> s = t.
Proof.
  revert b; induction a as [|c a IH]; intros [|d b] H Hlen.
  - exact H.
  - cbn in H. subst s. cbn in Hlen. rewrite append_length in Hlen. lia.
  - cbn in H. subst t. cbn in Hlen. rewrite append_length in Hlen. lia.
  - cbn in H. injection H as _ H. now apply (IH b).
Qed.

Lemma HasSuffix_differ (base a s b t : string) :
  String.length s = String.length t -> s <> t ->
  HasSuffix (base +:+ (a +:+ s)) (b +:+ t) = false.
Proof.
  intros Hlen Hne.
  destruct (HasSuffix (base +:+ (a +:+ s)) (b +:+ t)) eqn:E; [|reflexivity].
  apply HasSuffix_true in E. exfalso. apply Hne.
  rewrite <- !append_assoc in E.
  exact (append_cancel_r _ _ _ _ E Hlen).
Qed.

Lemma TrimSuffix_shorter (s suffix : string) :
  (String.length (TrimSuffix s suffix) <= String.length s)%nat
  /\ (String.length (TrimSuffix s suffix) = String.length s ->
      TrimSuffix s suffix = s).
Proof.
  unfold TrimSuffix. destruct (HasSuffix s suffix) eqn:E; [|auto].
  rewrite take_str_length. split; [lia|]. intros Hlen.
  apply HasSuffix_true in E.
  assert (Hs : String.length suffix = 0%nat).
  { apply (f_equal String.length) in E.
    rewrite append_length, take_str_length in E. lia. }
  destruct suffix; [|discriminate].
  cbn [String.length]. rewrite Nat.sub_0_r. clear.
  induction s as [|c s IH]; [reflexivity|]. cbn. now rewrite IH.
Qed.

(** X26. [shortSinkName] takes one suffix " Playback Enum",
    " Capture Enum" or " Capture Route" off a name whose remainder it
    leaves alone: the display name of such a sink is the name without the
    suffix. *)
Theorem shortSinkName_strips (base suffix : string) :
  In suffix [" Playback Enum"; " Capture Enum"; " Capture Route"] ->
  shortSinkName base = base ->
  shortSinkName (base +:+ suffix) = base.
Proof.
  intros Hsuffix Hbase. unfold shortSinkName in *.
  assert (H : TrimSuffix base " Playback Enum" = base
              /\ TrimSuffix base " Capture Enum" = base
              /\ TrimSuffix base " Capture Route" = base).
  { pose proof (TrimSuffix_shorter base " Playback Enum") as [L1 F1].
    pose proof (TrimSuffix_shorter (TrimSuffix base " Playback Enum")
                                   " Capture Enum") as [L2 F2].
    pose proof (TrimSuffix_shorter
                  (TrimSuffix (TrimSuffix base " Playback Enum")
                              " Capture Enum") " Capture Route") as [L3 F3].
    apply (f_equal String.length) in Hbase.
    assert (E1 : TrimSuffix base " Playback Enum" = base) by (apply F1; lia).
    rewrite E1 in *.
    assert (E2 : TrimSuffix base " Capture Enum" = base) by (apply F2; lia).
    rewrite E2 in *.
    split; [reflexivity|]. split; [reflexivity|]. apply F3; lia. }
  destruct H as (HP & HC & HR).
  destruct Hsuffix as [<- | [<- | [<- | []]]].
  - now rewrite TrimSuffix_app, HC, HR.
  - assert (E : TrimSuffix (base +:+ " Capture Enum") " Playback Enum"
                = base +:+ " Capture Enum").
    { unfold TrimSuffix.
      assert (H : HasSuffix (base +:+ " Capture Enum") " Playback Enum" = false)
        by (apply (HasSuffix_differ base " Captur" "e Enum" " Playbac" "k Enum");
            [reflexivity|discriminate]).
      now rewrite H. }
    now rewrite E, TrimSuffix_app, HR.
  - assert (E1 : TrimSuffix (base +:+ " Capture Route") " Playback Enum"
                 = base +:+ " Capture Route").
    { unfold TrimSuffix.
      assert (H : HasSuffix (base +:+ " Capture Route") " Playback Enum" = false)
        by (apply (HasSuffix_differ base " Capture Rout" "e" " Playback Enu" "m");
            [reflexivity|discriminate]).
      now rewrite H. }
    assert (E2 : TrimSuffix (base +:+ " Capture Route") " Capture Enum"
                 = base +:+ " Capture Route").
    { unfold TrimSuffix.
      assert (H : HasSuffix (base +:+ " Capture Route") " Capture Enum" = false)
        by (apply (HasSuffix_differ base " Capture Rout" "e" " Capture Enu" "m");
            [reflexivity|discriminate]).
      now rewrite H. }
    now rewrite E1, E2, TrimSuffix_app.
Qed.

Lemma shortSinkName_strips_witness :
  shortSinkName "Analogue 01" = "Analogue 01"
  /\ shortSinkName ("Analogue 01" +:+ " Playback Enum") = "Analogue 01".
Proof.
  split; [reflexivity|].
  apply (shortSinkName_strips "Analogue 01" " Playback Enum");
    [now left|reflexivity].
Defined.
